(** * Sentinel Hub Stat API download client: retrying and caching

    A shallow embedding of [sentinelhub/download/sentinelhub_stat_client.py]
    (class [SentinelHubStatDownloadClient]) and the properties of its
    caching, retry and merge logic. *)

From Stdlib Require Import ZArith String Ascii List Bool Lia Sorting.Sorted.
From stdpp Require Import base option list gmap strings fin_maps pretty.

Local Open Scope string_scope.

(** ** Decoded payloads

    The client works on decoded JSON: Python dicts with string keys, lists,
    strings, numbers, booleans and [None].  Numbers are only carried around;
    the client never computes with them. *)

#[local] Set Warnings "-register-all".

Inductive json : Type :=
| JNull
| JBool (b : bool)
| JNum (n : Z)
| JStr (s : string)
| JArr (items : list json)
| JObj (fields : gmap string json).

(** ** Exceptions and results *)

Inductive exn : Type :=
| InvalidRequestError
| DownloadError
| DecodeError
| IOError
| KeyError
| IndexError
| TypeError
| AttributeError
| ValueError (msg : string).

Inductive Result (A : Type) : Type :=
| Ok (a : A)
| Raise (e : exn).
Arguments Ok {A} a.
Arguments Raise {A} e.

Definition rbind {A B} (r : Result A) (k : A -> Result B) : Result B :=
  match r with
  | Ok a => k a
  | Raise e => Raise e
  end.

Declare Scope result_scope.
Delimit Scope result_scope with result.
Notation "'let?' x := r 'in' k" := (rbind r (fun x => k))
  (at level 10, x pattern, r at level 100, k at level 200) : result_scope.

(** ** Python operations on decoded values *)

Module PyJson.
Local Open Scope result_scope.

(** [obj.get(key, default)]: only dicts have a [get] method. *)
Definition get (obj : json) (key : string) (default : json) : Result json :=
  match obj with
  | JObj fields => Ok (match fields !! key with Some v => v | None => default end)
  | _ => Raise AttributeError
  end.

(** [obj[key]] for a string key. *)
Definition getitem (obj : json) (key : string) : Result json :=
  match obj with
  | JObj fields => match fields !! key with Some v => Ok v | None => Raise KeyError end
  | _ => Raise TypeError
  end.

(** A string holds the UTF-8 bytes of a Python [str]; Python indexes and
    iterates a [str] by characters.  A byte [10xxxxxx] continues the
    character of the byte before it. *)
Definition continuation (c : ascii) : bool :=
  match c with
  | Ascii _ _ _ _ _ _ false true => true
  | _ => false
  end.

Definition continues_character (s : string) : bool :=
  match s with
  | String c _ => continuation c
  | EmptyString => false
  end.

Fixpoint characters (s : string) : list string :=
  match s with
  | EmptyString => []
  | String c rest =>
      match characters rest with
      | first :: others =>
          if continues_character rest then String c first :: others
          else String c EmptyString :: first :: others
      | [] => [String c EmptyString]
      end
  end.

(** [obj[index]] for an integer index that is not negative.  The keys of
    a decoded dict are strings, so an integer is never among them. *)
Definition getitem_int (obj : json) (index : nat) : Result json :=
  match obj with
  | JArr items => match items !! index with Some v => Ok v | None => Raise IndexError end
  | JStr s => match characters s !! index with
              | Some c => Ok (JStr c)
              | None => Raise IndexError
              end
  | JObj _ => Raise KeyError
  | _ => Raise TypeError
  end.

(** [obj[key] = value]: item assignment with a string key. *)
Definition setitem (obj : json) (key : string) (value : json) : Result json :=
  match obj with
  | JObj fields => Ok (JObj (<[key := value]> fields))
  | _ => Raise TypeError
  end.

(** [value == 'literal']: a decoded value equals a string literal exactly
    when it is that string. *)
Definition eq_str (value : json) (literal : string) : bool :=
  match value with
  | JStr s => String.eqb s literal
  | _ => false
  end.

(** [value in literals] for a list of string literals. *)
Definition in_strs (value : json) (literals : list string) : bool :=
  existsb (eq_str value) literals.

(** [key in obj] for a string key: key membership on a dict, element
    membership on a list, substring test on a string. *)
Definition contains (obj : json) (key : string) : Result bool :=
  match obj with
  | JObj fields => Ok (match fields !! key with Some _ => true | None => false end)
  | JArr items => Ok (existsb (fun v => eq_str v key) items)
  | JStr s => Ok (match String.index 0 key s with Some _ => true | None => false end)
  | _ => Raise TypeError
  end.

Definition chars (s : string) : list json := JStr <$> characters s.

(** A dict is kept as a finite map, which does not record the order in
    which its keys were inserted.  [key_order] stands for that order: the
    keys of the dict that it lists come first, each once, in its order;
    keys that it leaves out follow. *)
Definition keys_in_order (key_order : gmap string json -> list string)
    (fields : gmap string json) : list string :=
  let listed := remove_dups
                  (List.filter (fun key => bool_decide (is_Some (fields !! key)))
                     (key_order fields)) in
  listed ++ List.filter (fun key => negb (bool_decide (key ∈ listed)))
              (fst <$> map_to_list fields).

(** The values a [for] loop (or [enumerate]) draws from [obj]: the items
    of a list, the characters of a string, the keys of a dict in the order
    of their insertion. *)
Definition iter (key_order : gmap string json -> list string) (obj : json)
  : Result (list json) :=
  match obj with
  | JArr items => Ok items
  | JStr s => Ok (chars s)
  | JObj fields => Ok (JStr <$> keys_in_order key_order fields)
  | _ => Raise TypeError
  end.

End PyJson.

(** A Python dict keyed by interval index.  Iteration follows insertion
    order, which fixes the order in which sub-requests are built and
    submitted, so the dict is kept as the list of its items. *)
Module PyDict.
Section Ops.
Context {V : Type}.
Abbreviation t := (list (nat * V)).

Definition empty : t := [].

Fixpoint get (d : t) (key : nat) : option V :=
  match d with
  | [] => None
  | (k, v) :: rest => if Nat.eqb k key then Some v else get rest key
  end.

(** [d[key] = value]: an existing key keeps its place. *)
Fixpoint set (d : t) (key : nat) (value : V) : t :=
  match d with
  | [] => [(key, value)]
  | (k, v) :: rest =>
      if Nat.eqb k key then (k, value) :: rest else (k, v) :: set rest key value
  end.

Definition keys (d : t) : list nat := fst <$> d.
Definition values (d : t) : list V := snd <$> d.

(** [d.get(key, default)] *)
Definition get_default (d : t) (key : nat) (default : V) : V :=
  match get d key with Some v => v | None => default end.

(** [bool(d)] *)
Definition truthy (d : t) : bool :=
  match d with [] => false | _ => true end.

(** [{k: v for k, v in pairs}] *)
Definition of_pairs (pairs : list (nat * V)) : t :=
  fold_left (fun d kv => set d (fst kv) (snd kv)) pairs empty.
End Ops.
Abbreviation t V := (list (nat * V)) (only parsing).
End PyDict.

Definition _RETIRABLE_ERRORS : list string := ["EXECUTION_ERROR"; "TIMEOUT"].
Definition _RETRY_NUM : Z := 1.

Local Open Scope result_scope.

(** [_has_retriable_error]:
      error_type = stat_info.get('error', {}).get('type')
      return error_type in self._RETIRABLE_ERRORS
    The second [get] has no default, so a missing type is [None]. *)
Definition _has_retriable_error (stat_info : json) : Result bool :=
  let? error := PyJson.get stat_info "error" (JObj ∅) in
  let? error_type := PyJson.get error "type" JNull in
  Ok (PyJson.in_strs error_type _RETIRABLE_ERRORS).


(** ** Requests, the outside world and the collaborators

    The request classes, [decode_data], [read_data], [write_data] and the
    inherited [_execute_download] live in other modules of the package; the
    client reaches them through the surface below. *)

(** [constants.MimeType]: the client only names [MimeType.JSON] and passes
    [request.data_type] through. *)
Class Formats := {
  MimeType : Type;
  JSON : MimeType
}.

Definition bytes := list Byte.byte.

Section Model.
Context {formats : Formats}.

(** The attributes of a download request the client reads.  [post_values]
    is the payload of the Stat API call; its [aggregation.timeRange] field
    is what [_download_per_interval] overwrites. *)
Record DownloadRequest := {
  url : string;
  data_type : MimeType;
  post_values : json;
  save_response : bool;
  return_data : bool
}.

Definition set_post_values (request : DownloadRequest) (value : json) : DownloadRequest :=
  {| url := url request;
     data_type := data_type request;
     post_values := value;
     save_response := save_response request;
     return_data := return_data request |}.

(** Disk operations, most recent first.  A write is recorded when the file
    has been replaced. *)
Inductive disk_op : Type :=
| DiskExists (path : string)
| DiskRead (path : string)
| DiskWrite (path : string) (content : bytes).

(** The outside world: the files on disk, the requests sent over the
    network so far (most recent first) and the disk operations so far. *)
Record World := {
  files : gmap string bytes;
  fetched : list DownloadRequest;
  disk : list disk_op
}.

Class Collaborators := {
  (** [request.raise_if_invalid()] *)
  raise_if_invalid : DownloadRequest -> Result unit;
  (** [request.get_storage_paths()]: the request path and the response path *)
  get_storage_paths : DownloadRequest -> option string * option string;
  (** [request.get_request_params(include_metadata=...)] *)
  get_request_params : DownloadRequest -> bool -> json;
  (** What the service answers to a request, given how many requests were
      sent before it. *)
  service : nat -> DownloadRequest -> Result bytes;
  (** [decode_data(response_content, data_type)] *)
  decode_data_function : bytes -> MimeType -> Result json;
  (** The format readers and writers behind [read_data] and [write_data] *)
  read_format : MimeType -> bytes -> Result json;
  write_format : MimeType -> json -> Result bytes;
  (** Whether the disk accepts a write at a path. *)
  writable : string -> bool;
  (** The order in which the keys of a decoded dict were inserted *)
  key_order : gmap string json -> list string;
  (** The thread pool: the positions of the tasks of an [executor.map] in
      the order in which the threads get to perform them, given how many
      requests were sent before and the number of tasks. *)
  schedule : nat -> nat -> list nat
}.

Context {collaborators : Collaborators}.

(** *** The monad of the client: state of the world and exceptions *)

Definition M (A : Type) : Type := World -> Result A * World.

Definition ret {A} (a : A) : M A := fun w => (Ok a, w).
Definition raise {A} (e : exn) : M A := fun w => (Raise e, w).
Definition lift {A} (r : Result A) : M A := fun w => (r, w).
Definition bind {A B} (m : M A) (k : A -> M B) : M B :=
  fun w => match m w with
           | (Ok a, w') => k a w'
           | (Raise e, w') => (Raise e, w')
           end.

Notation "'do' x <- m ; k" := (bind m (fun x => k))
  (at level 10, x pattern, m at level 100, k at level 200).

(** World updates: a request sent, a disk operation that leaves the files
    alone, a file replaced. *)
Definition record_fetch (request : DownloadRequest) (w : World) : World :=
  {| files := files w; fetched := request :: fetched w; disk := disk w |}.

Definition record_disk (op : disk_op) (w : World) : World :=
  {| files := files w; fetched := fetched w; disk := op :: disk w |}.

Definition store (path : string) (content : bytes) (w : World) : World :=
  {| files := <[path := content]> (files w);
     fetched := fetched w;
     disk := DiskWrite path content :: disk w |}.

(** [self._execute_download(request)] *)
Definition _execute_download (request : DownloadRequest) : M bytes :=
  fun w => (service (length (fetched w)) request, record_fetch request w).

(** [os.path.exists(path)] *)
Definition path_exists (path : string) : M bool :=
  fun w => (Ok (match files w !! path with Some _ => true | None => false end),
            record_disk (DiskExists path) w).

(** [read_data(path, data_format=...)] *)
Definition read_data (path : option string) (data_format : MimeType) : M json :=
  match path with
  | None => raise TypeError
  | Some p =>
      fun w =>
        (match files w !! p with
         | Some content => read_format data_format content
         | None => Raise IOError
         end,
         record_disk (DiskRead p) w)
  end.

(** [write_data(path, data, data_format=...)]: all or nothing. *)
Definition write_data (path : option string) (data : json) (data_format : MimeType) : M unit :=
  match path with
  | None => raise TypeError
  | Some p =>
      do content <- lift (write_format data_format data);
      if writable p then fun w => (Ok tt, store p content w)
      else raise IOError
  end.

(** *** The Stat client *)

(** The client object: [redownload] is the attribute of the download
    client that the Stat client reads. *)
Record SentinelHubStatDownloadClient := {
  redownload : bool
}.

(** [range(n)] *)
Definition py_range (n : Z) : list Z := map Z.of_nat (seq 0 (Z.to_nat n)).

(** The body of the [for retry_count in range(retry_num)] loop of
    [_execute_single_stat_download], run over the remaining counts.
    [Some stat_info] is a [return stat_info] from inside the loop; [None]
    means that the loop ran to its end without returning. *)
Fixpoint retry_loop (retry_num : Z) (request : DownloadRequest) (counts : list Z)
  : M (option json) :=
  match counts with
  | [] => ret None
  | retry_count :: rest =>
      do response <- _execute_download request;
      do stat_response <- lift (decode_data_function response (data_type request));
      do stat_info <- lift (let? data := PyJson.getitem stat_response "data" in
                            PyJson.getitem_int data 0);
      do retriable <- lift (_has_retriable_error stat_info);
      if negb retriable || (retry_count =? retry_num - 1)%Z
      then ret (Some stat_info)
      else retry_loop retry_num request rest
  end.

(** [_execute_single_stat_download] for a retry bound [retry_num]. *)
Definition execute_with_retries (retry_num : Z) (request : DownloadRequest) : M json :=
  do outcome <- retry_loop retry_num request (py_range retry_num);
  match outcome with
  | Some stat_info => ret stat_info
  | None => raise (ValueError "No retries done")
  end.

Definition _execute_single_stat_download (request : DownloadRequest) : M json :=
  execute_with_retries _RETRY_NUM request.

(** [interval_request = copy.deepcopy(request)]
    [interval_request.post_values['aggregation']['timeRange'] = time_interval]
    The assignment changes the dict that [post_values] holds under
    ['aggregation'], so it shows through [post_values]. *)
Definition interval_request (request : DownloadRequest) (time_interval : json)
  : Result DownloadRequest :=
  let? aggregation := PyJson.getitem (post_values request) "aggregation" in
  let? aggregation' := PyJson.setitem aggregation "timeRange" time_interval in
  let? post_values' := PyJson.setitem (post_values request) "aggregation" aggregation' in
  Ok (set_post_values request post_values').

Fixpoint interval_requests (request : DownloadRequest) (time_intervals : list json)
  : Result (list DownloadRequest) :=
  match time_intervals with
  | [] => Ok []
  | time_interval :: rest =>
      let? first := interval_request request time_interval in
      let? others := interval_requests request rest in
      Ok (first :: others)
  end.

(** *** The thread pool

    [executor.map(f, xs)] submits a task for every item of [xs] before any
    result is read, and the threads of the pool perform the tasks
    concurrently.  A task of the client sends one request, so that a run of
    the pool is an order in which tasks perform: [schedule] gives it. *)

(** The tasks that the schedule has perform: positions of tasks, each
    once. *)
Definition performing (n : nat) (order : list nat) : list nat :=
  remove_dups (List.filter (fun position => Nat.ltb position n) order).

(** The tasks at the positions of [order] perform one after the other,
    whether they return or raise; [finished] keeps the outcome of each. *)
Fixpoint perform {A B} (f : A -> M B) (xs : list A) (order : list nat)
    (finished : gmap nat (Result B)) (w : World) : gmap nat (Result B) * World :=
  match order with
  | [] => (finished, w)
  | position :: rest =>
      match xs !! position with
      | Some x => let (outcome, w') := f x w in
                  perform f xs rest (<[position := outcome]> finished) w'
      | None => perform f xs rest finished w
      end
  end.

(** [list(...)] reads the results in the order of [xs], from [position]
    on.  A task that has raised raises here; a task that has not performed
    yet is waited for, and performs.  The first exception ends the reading:
    the tasks that have not been taken up by then are cancelled. *)
Fixpoint collect {A B} (f : A -> M B) (finished : gmap nat (Result B)) (position : nat)
    (xs : list A) : M (list B) :=
  match xs with
  | [] => ret []
  | x :: rest =>
      do y <- (match finished !! position with
               | Some outcome => lift outcome
               | None => f x
               end);
      do ys <- collect f finished (S position) rest;
      ret (y :: ys)
  end.

(** [with ThreadPoolExecutor() as executor: list(executor.map(f, xs))]: the
    results come in the order of [xs]; when the block is left every task
    has performed or has been cancelled. *)
Definition executor_map {A B} (f : A -> M B) (xs : list A) : M (list B) :=
  fun w =>
    let order := performing (length xs) (schedule (length (fetched w)) (length xs)) in
    let (finished, w') := perform f xs order ∅ w in
    collect f finished 0 xs w'.

Definition _download_per_interval (request : DownloadRequest)
    (time_intervals : PyDict.t json) : M (PyDict.t json) :=
  do requests <- lift (interval_requests request (PyDict.values time_intervals));
  do stat_info_responses <- executor_map _execute_single_stat_download requests;
  ret (PyDict.of_pairs (zip (PyDict.keys time_intervals) stat_info_responses)).

(** The loop of [_single_download] that collects the failed intervals,
    from position [index] on. *)
Fixpoint find_failed (index : nat) (entries : list json) (failed : PyDict.t json)
  : Result (PyDict.t json) :=
  match entries with
  | [] => Ok failed
  | stat_info :: rest =>
      let? retriable := _has_retriable_error stat_info in
      if retriable : bool then
        let? interval := PyJson.getitem stat_info "interval" in
        find_failed (S index) rest (PyDict.set failed index interval)
      else find_failed (S index) rest failed
  end.

(** [sum('error' not in stat_info for stat_info in outcomes)] *)
Fixpoint count_succeeded (outcomes : list json) : Result nat :=
  match outcomes with
  | [] => Ok 0
  | stat_info :: rest =>
      let? failed := PyJson.contains stat_info "error" in
      let? n := count_succeeded rest in
      Ok ((if failed : bool then 0 else 1) + n)
  end.

(** [[retried_responses.get(index, stat_info)
       for index, stat_info in enumerate(data)]] *)
Definition merge_retried (retried_responses : PyDict.t json) (data : list json)
  : list json :=
  imap (fun index stat_info => PyDict.get_default retried_responses index stat_info) data.

(** Truth value of a path that may be [None] or empty. *)
Definition path_truthy (path : option string) : bool :=
  match path with
  | Some p => negb (String.eqb p EmptyString)
  | None => false
  end.

(** The local variables of [_single_download] once the retries are merged. *)
Record Locals := {
  download_required : bool;
  failed_time_intervals : PyDict.t json;
  retried_responses : PyDict.t json;
  n_succeeded_intervals : nat;
  stats_response : json
}.

(** [download_required = self.redownload or response_path is None
                         or not os.path.exists(response_path)] *)
Definition is_download_required (self : SentinelHubStatDownloadClient)
    (response_path : option string) : M bool :=
  if redownload self then ret true
  else match response_path with
       | None => ret true
       | Some p => do present <- path_exists p; ret (negb present)
       end.

(** [_single_download], from the storage paths to the merge of the retried
    intervals. *)
Definition download_and_retry (self : SentinelHubStatDownloadClient)
    (request : DownloadRequest) : M Locals :=
  let response_path := snd (get_storage_paths request) in
  do required <- is_download_required self response_path;
  do response <-
    (if required : bool then
       do response_content <- _execute_download request;
       lift (decode_data_function response_content (data_type request))
     else read_data response_path (data_type request));
  do entries <- lift (let? data := PyJson.getitem response "data" in
                      PyJson.iter key_order data);
  do failed <- lift (find_failed 0 entries PyDict.empty);
  if PyDict.truthy failed then
    do retried <- _download_per_interval request failed;
    do n_succeeded <- lift (count_succeeded (PyDict.values retried));
    do entries' <- lift (let? data := PyJson.getitem response "data" in
                         PyJson.iter key_order data);
    do merged <- lift (PyJson.setitem response "data" (JArr (merge_retried retried entries')));
    ret {| download_required := required;
           failed_time_intervals := failed;
           retried_responses := retried;
           n_succeeded_intervals := n_succeeded;
           stats_response := merged |}
  else
    ret {| download_required := required;
           failed_time_intervals := failed;
           retried_responses := PyDict.empty;
           n_succeeded_intervals := 0;
           stats_response := response |}.

(** [_single_download], the conditional write of the request
    parameters:
      if request_path and request.save_response and
         (self.redownload or not os.path.exists(request_path)): ... *)
Definition save_request_info (self : SentinelHubStatDownloadClient)
    (request : DownloadRequest) : M unit :=
  let request_path := fst (get_storage_paths request) in
  do write_request <-
    (if path_truthy request_path && save_response request then
       if redownload self then ret true
       else match request_path with
            | Some p => do present <- path_exists p; ret (negb present)
            | None => ret false
            end
     else ret false);
  if write_request : bool then
    write_data request_path (get_request_params request true) JSON
  else ret tt.

(** [_single_download], the conditional write of the response:
      if request.save_response and
         (download_required or n_succeeded_intervals > 0): ... *)
Definition save_stats_response (request : DownloadRequest) (locals : Locals) : M unit :=
  let response_path := snd (get_storage_paths request) in
  if save_response request
     && (download_required locals || (0 <? n_succeeded_intervals locals)%nat)
  then write_data response_path (stats_response locals) (data_type request)
  else ret tt.

(** [_single_download(self, request, _)]; [None] is Python's [None]. *)
Definition _single_download (self : SentinelHubStatDownloadClient)
    (request : DownloadRequest) (_ : bool) : M (option json) :=
  do _ <- lift (raise_if_invalid request);
  if negb (save_response request || return_data request) then ret None
  else
    do locals <- download_and_retry self request;
    do _ <- save_request_info self request;
    do _ <- save_stats_response request locals;
    ret (if return_data request then Some (stats_response locals) else None).

End Model.

Arguments DownloadRequest {_}.
Arguments World {_}.
Arguments Collaborators {_}.
Arguments Locals : clear implicits.

(** ** Vocabulary of the properties *)

(** The specification's reading of a retriable entry: it contains an
    [error] object whose [type] is [EXECUTION_ERROR] or [TIMEOUT]. *)
Definition carries_retriable_error (stat_info : json) : Prop :=
  ∃ fields error type,
    stat_info = JObj fields ∧
    fields !! "error" = Some (JObj error) ∧
    error !! "type" = Some type ∧
    (type = JStr "EXECUTION_ERROR" ∨ type = JStr "TIMEOUT").






Section Vocabulary.
Context {formats : Formats} {collaborators : Collaborators}.
Implicit Types (request : DownloadRequest) (w : World).

(** The interval result of the attempt made when [sent_before] requests
    have already been sent: the answer of the service, decoded, and its
    [data[0]]. *)
Definition attempt_stat_info (sent_before : nat) request : Result json :=
  let? response := service sent_before request in
  let? stat_response := decode_data_function response (data_type request) in
  let? data := PyJson.getitem stat_response "data" in
  PyJson.getitem_int data 0.

(** What an attempt can raise: the fetch, the decoding and the access to
    [data[0]], or the classification of the interval result. *)
Definition attempt_raises (sent_before : nat) request (e : exn) : Prop :=
  attempt_stat_info sent_before request = Raise e ∨
  ∃ stat_info, attempt_stat_info sent_before request = Ok stat_info ∧
               _has_retriable_error stat_info = Raise e.

(** The file writes among disk operations, most recent first. *)
Fixpoint write_log (ops : list disk_op) : list (string * bytes) :=
  match ops with
  | [] => []
  | DiskWrite p content :: rest => (p, content) :: write_log rest
  | _ :: rest => write_log rest
  end.

(** Number of times the file at [path] has been written. *)
Definition writes_at (path : string) (ops : list disk_op) : nat :=
  length (List.filter (fun entry => String.eqb (fst entry) path) (write_log ops)).

(** A computation that sends requests but leaves the disk alone. *)
Definition disk_free {A} (m : M A) : Prop :=
  ∀ w, files (snd (m w)) = files w ∧ disk (snd (m w)) = disk w.

(** A computation that writes no file. *)
Definition write_free {A} (m : M A) : Prop :=
  ∀ w, files (snd (m w)) = files w ∧ write_log (disk (snd (m w))) = write_log (disk w).

(** The world after the tasks at the positions of [trace] have performed,
    one after the other. *)
Fixpoint after_tasks {A B} (f : A -> M B) (xs : list A) (trace : list nat) w : World :=
  match trace with
  | [] => w
  | position :: rest =>
      match xs !! position with
      | Some x => after_tasks f xs rest (snd (f x w))
      | None => after_tasks f xs rest w
      end
  end.

(** The items at the positions of [trace]. *)
Definition tasks_at {A} (xs : list A) (trace : list nat) : list A :=
  omap (fun position => xs !! position) trace.

(** A world in the course of the retries that started in [w]: some of the
    sub-requests have been sent, none of them twice, and the disk is as it
    was. *)
Definition during_retries (requests : list DownloadRequest) w w1 : Prop :=
  files w1 = files w ∧ disk w1 = disk w ∧
  ∃ sent, fetched w1 = (sent ++ fetched w)%list ∧ sent ⊆+ requests.

(** The sub-requests of a mapping of failed intervals, none when one of
    them cannot be built. *)
Definition tasks_at_all request (time_intervals : PyDict.t json) : list DownloadRequest :=
  match interval_requests request (PyDict.values time_intervals) with
  | Ok requests => requests
  | Raise _ => []
  end.

(** [sub] is [request] with [time_interval] as the
    [aggregation.timeRange] of its payload, and nothing else changed. *)
Definition retries_interval request (time_interval : json) sub : Prop :=
  url sub = url request ∧ data_type sub = data_type request ∧
  save_response sub = save_response request ∧ return_data sub = return_data request ∧
  (let? aggregation := PyJson.getitem (post_values sub) "aggregation" in
   PyJson.getitem aggregation "timeRange") = Ok time_interval ∧
  (∀ key, key ≠ "aggregation" →
     PyJson.getitem (post_values sub) key = PyJson.getitem (post_values request) key) ∧
  (∀ key, key ≠ "timeRange" →
     (let? aggregation := PyJson.getitem (post_values sub) "aggregation" in
      PyJson.getitem aggregation key)
     = (let? aggregation := PyJson.getitem (post_values request) "aggregation" in
        PyJson.getitem aggregation key)).



(** The world after a cached response has been looked up and read. *)
Definition after_cache_read (p : string) w : World :=
  record_disk (DiskRead p) (record_disk (DiskExists p) w).

(** The file of the request parameters is there if the request asks for
    it to be saved. *)
Definition request_info_saved request w : Prop :=
  ∀ rp, fst (get_storage_paths request) = Some rp →
        path_truthy (Some rp) && save_response request = true →
        files w !! rp ≠ None.

End Vocabulary.

(** ** A small concrete setting

    A stand-in service with a two-file cache, used to run the client on
    concrete requests. *)

Module Demo.
Import Byte.

Definition formats : Formats := {| MimeType := string; JSON := "application/json" |}.

Definition timeout_entry : json :=
  JObj {[ "interval" := JStr "2020-01-02/2020-01-03";
          "error" := JObj {[ "type" := JStr "TIMEOUT" ]} ]}.

Definition good_entry (interval : string) : json :=
  JObj {[ "interval" := JStr interval; "outputs" := JObj ∅ ]}.

(** Four intervals, the second one timed out. *)
Definition partial_response : json :=
  JObj {[ "data" := JArr [ good_entry "2020-01-01/2020-01-02"; timeout_entry;
                           good_entry "2020-01-03/2020-01-04";
                           good_entry "2020-01-04/2020-01-05" ] ]}.

Definition clean_response : json :=
  JObj {[ "data" := JArr [ good_entry "2020-01-01/2020-01-02";
                           good_entry "2020-01-02/2020-01-03" ] ]}.

Definition interval_response : json :=
  JObj {[ "data" := JArr [ good_entry "2020-01-02/2020-01-03" ] ]}.

(** The retry of an interval that times out again. *)
Definition failed_interval_response : json :=
  JObj {[ "data" := JArr [ timeout_entry ] ]}.

Definition decode (content : bytes) : Result json :=
  match content with
  | [x01] => Ok partial_response
  | [x02] => Ok interval_response
  | [x03] => Ok clean_response
  | [x06] => Ok failed_interval_response
  | _ => Raise DecodeError
  end.

Definition encode (data : json) : Result bytes :=
  match data with
  | JObj fields => Ok (match fields !! "data" with Some _ => [x04] | None => [x05] end)
  | _ => Raise TypeError
  end.

(** The service answers the request for the whole range with the partial
    response and a request for a single interval with [interval_answer]. *)
Definition collaborators_with (interval_answer : bytes) : @Collaborators formats := {|
  raise_if_invalid := fun request =>
    if String.eqb (url request) EmptyString then Raise InvalidRequestError else Ok tt;
  get_storage_paths := fun request =>
    (Some (String.append (url request) "/request.json"),
     Some (String.append (url request) "/response.json"));
  get_request_params := fun request _ => JObj {[ "url" := JStr (url request) ]};
  service := fun _ request =>
    match (let? aggregation := PyJson.getitem (post_values request) "aggregation" in
           PyJson.getitem aggregation "timeRange") with
    | Ok range => if PyJson.eq_str range "2020-01-01/2020-01-05"
                  then Ok [x01] else Ok interval_answer
    | Raise _ => Raise DownloadError
    end;
  decode_data_function := fun content _ => decode content;
  read_format := fun _ content => decode content;
  write_format := fun _ data => encode data;
  writable := fun _ => true;
  key_order := fun _ => [];
  schedule := fun _ n => rev (seq 0 n)
|}.

(** Retries succeed. *)
Definition collaborators : @Collaborators formats := collaborators_with [x02].

(** Retries time out again. *)
Definition stubborn : @Collaborators formats := collaborators_with [x06].

Definition client : SentinelHubStatDownloadClient := {| redownload := false |}.

Definition request (save ret : bool) : @DownloadRequest formats := {|
  url := "stat";
  data_type := @JSON formats;
  post_values := JObj {[ "aggregation" := JObj {[ "timeRange" := JStr "2020-01-01/2020-01-05" ]} ]};
  save_response := save;
  return_data := ret
|}.

Definition world (cached : option bytes) : @World formats := {|
  files := match cached with
           | Some content => {[ "stat/response.json" := content ]}
           | None => ∅
           end;
  fetched := [];
  disk := []
|}.

(** The response path of the requests below. *)
Definition cache_path : string := "stat/response.json".

(** One call of the client, on a cache that holds [cached] if anything. *)
Definition run (save ret : bool) (cached : option bytes) : Result (option json) * World :=
  _single_download (collaborators := collaborators) client (request save ret) false (world cached).

(** The cached response with a timed-out interval, once the retry of that
    interval has succeeded. *)
Definition merged_response : json :=
  JObj {[ "data" := JArr [ good_entry "2020-01-01/2020-01-02";
                           good_entry "2020-01-02/2020-01-03";
                           good_entry "2020-01-03/2020-01-04";
                           good_entry "2020-01-04/2020-01-05" ] ]}.

(** Two failed intervals retried from an empty cache. *)
Definition two_failed : PyDict.t json :=
  [(1, JStr "2020-01-02/2020-01-03"); (3, JStr "2020-01-04/2020-01-05")].



(** A cached response without failed intervals. *)
Definition clean_entries : list json :=
  [good_entry "2020-01-01/2020-01-02"; good_entry "2020-01-02/2020-01-03"].

End Demo.

(** ** More vocabulary: the scan, the disk and the network *)

(** An entry the scan passes over or collects without raising. *)
Definition scannable (stat_info : json) : Prop :=
  _has_retriable_error stat_info = Ok false ∨
  (_has_retriable_error stat_info = Ok true ∧
   ∃ interval, PyJson.getitem stat_info "interval" = Ok interval).

(** What the scan raises at an entry it cannot handle. *)
Definition scan_raises (stat_info : json) (e : exn) : Prop :=
  _has_retriable_error stat_info = Raise e ∨
  (_has_retriable_error stat_info = Ok true ∧
   PyJson.getitem stat_info "interval" = Raise e).

(** The disk operations that consult the disk without changing it. *)
Fixpoint probes (ops : list disk_op) : list disk_op :=
  match ops with
  | [] => []
  | DiskWrite _ _ :: rest => probes rest
  | op :: rest => op :: probes rest
  end.

Section Vocabulary2.
Context {formats : Formats} {collaborators : Collaborators}.

(** A computation that never consults the disk. *)
Definition probe_free {A} (m : M A) : Prop :=
  ∀ w, probes (disk (snd (m w))) = probes (disk w).

End Vocabulary2.

(** * The Batch API interface

    A shallow embedding of [sentinelhub/sentinelhub_batch.py]: the class
    [SentinelHubBatch] and the helpers [_remove_undefined_params] and
    [_iter_pages]. *)

(** ** Values as conditions and inside f-strings *)

Module PyValue.

(** [value is None] *)
Definition is_none (value : json) : bool :=
  match value with JNull => true | _ => false end.

(** [bool(value)] *)
Definition truthy (value : json) : bool :=
  match value with
  | JNull => false
  | JBool b => b
  | JNum n => negb (n =? 0)%Z
  | JStr s => negb (String.eqb s EmptyString)
  | JArr items => match items with [] => false | _ => true end
  | JObj fields => negb (Nat.eqb (size fields) 0)
  end.

(** [f'{value}']: the text of a string, the decimal digits of an integer,
    the names of the constants; [container_repr] stands for Python's
    rendering of lists and dicts. *)
Definition format (container_repr : json -> string) (value : json) : string :=
  match value with
  | JStr s => s
  | JNum n => pretty n
  | JBool true => "True"
  | JBool false => "False"
  | JNull => "None"
  | _ => container_repr value
  end.

(** [s.rsplit(sep, 1)[-1]]: what follows the last [sep], all of [s] when
    there is none. *)
Fixpoint has_char (sep : ascii) (s : string) : bool :=
  match s with
  | EmptyString => false
  | String c rest => Ascii.eqb c sep || has_char sep rest
  end.

Fixpoint rsplit_last (sep : ascii) (s : string) : string :=
  match s with
  | EmptyString => EmptyString
  | String c rest =>
      if has_char sep rest then rsplit_last sep rest
      else if Ascii.eqb c sep then rest else s
  end.

End PyValue.

(** A Python dict with string keys whose order of insertion matters:
    keyword arguments, query parameters, payloads. *)
Module KwDict.
Abbreviation t := (list (string * json)).

Definition empty : t := [].

Fixpoint get (d : t) (key : string) : option json :=
  match d with
  | [] => None
  | (k, v) :: rest => if String.eqb k key then Some v else get rest key
  end.

(** [d[key] = value]: an existing key keeps its place. *)
Fixpoint set (d : t) (key : string) (value : json) : t :=
  match d with
  | [] => [(key, value)]
  | (k, v) :: rest =>
      if String.eqb k key then (k, value) :: rest else (k, v) :: set rest key value
  end.

Definition keys (d : t) : list string := fst <$> d.

(** A dict display or comprehension: the items are inserted in order, a
    repeated key keeps its first place and takes its last value. *)
Definition of_pairs (pairs : list (string * json)) : t :=
  fold_left (fun d kv => set d (fst kv) (snd kv)) pairs empty.

(** The dict as a decoded value. *)
Definition to_json (d : t) : json := JObj (list_to_map d).

End KwDict.

(** [_remove_undefined_params]:
      {name: value for name, value in payload.items() if value is not None} *)
Definition _remove_undefined_params (payload : KwDict.t) : KwDict.t :=
  KwDict.of_pairs (List.filter (fun item => negb (PyValue.is_none (snd item))) payload).

(** ** The service and the configuration *)

(** [constants.RequestType]: the module names [RequestType.POST] only. *)
Inductive RequestType : Type := POST.

(** [config.SHConfig]: the attribute the module reads. *)
Record SHConfig := {
  sh_base_url : string
}.

(** A call of [get_auth_json(url, post_values=..., request_type=...)] with
    the arguments as given. *)
Record api_call := {
  call_url : string;
  call_post_values : option KwDict.t;
  call_request_type : option RequestType
}.

Class BatchCollaborators := {
  (** [SHConfig()] *)
  default_config : SHConfig;
  (** [urllib.parse.urlencode] *)
  urlencode : KwDict.t -> string;
  (** Python's text for a list or a dict inside an f-string *)
  container_repr : json -> string;
  (** The order in which the keys of a dict of an answer were inserted *)
  insertion_order : gmap string json -> list string;
  (** What [get_auth_json] returns for a call, given how many calls were
      made before it. *)
  answer : nat -> api_call -> Result json;
  (** [a > b] for values that are not both strings *)
  builtin_gt : json -> json -> Result bool;
  (** [constants.CRS] and the classes of [geometry] *)
  crs : Type;
  area : Type;
  CRS : string -> Result crs;
  BBox : json -> crs -> Result area;
  Geometry : json -> crs -> Result area
}.

Module Batch.
Section Model.
Context {service : BatchCollaborators}.

(** *** The monad: the calls made so far (most recent first) and exceptions *)

Definition B (A : Type) : Type := list api_call -> Result A * list api_call.

Definition ret {A} (a : A) : B A := fun calls => (Ok a, calls).
Definition raise {A} (e : exn) : B A := fun calls => (Raise e, calls).
Definition lift {A} (r : Result A) : B A := fun calls => (r, calls).
Definition bind {A C} (m : B A) (k : A -> B C) : B C :=
  fun calls => match m calls with
               | (Ok a, calls') => k a calls'
               | (Raise e, calls') => (Raise e, calls')
               end.

Notation "'do' x <- m ; k" := (bind m (fun x => k))
  (at level 10, x pattern, m at level 100, k at level 200).

(** [get_auth_json(url, post_values=..., request_type=...)] *)
Definition get_auth_json (url : string) (post_values : option KwDict.t)
    (request_type : option RequestType) : B json :=
  fun calls =>
    let call := {| call_url := url;
                   call_post_values := post_values;
                   call_request_type := request_type |} in
    (answer (length calls) call, call :: calls).

Definition fmt (value : json) : string := PyValue.format container_repr value.

(** *** URLs *)

(** [config or SHConfig()] *)
Definition config_or_default (config : option SHConfig) : SHConfig :=
  match config with Some c => c | None => default_config end.

Definition _get_batch_url (config : option SHConfig) : string :=
  String.append (sh_base_url (config_or_default config)) "/api/v1/batch".

Definition _get_process_url (config : option SHConfig) (request_id : json) : string :=
  let url := String.append (_get_batch_url config) "/process" in
  if PyValue.truthy request_id
  then String.append url (String.append "/" (fmt request_id))
  else url.

Definition _get_tiling_grids_url (config : option SHConfig) : string :=
  String.append (_get_batch_url config) "/tilinggrids".

(** *** The class *)

(** The attributes of a [SentinelHubBatch] object; [JNull] is [None]. *)
Record SentinelHubBatch := {
  request_id : json;
  config : SHConfig;
  _request_info : json
}.

Definition __init__ (request_id_arg request_info : json) (config_arg : option SHConfig)
  : Result SentinelHubBatch :=
  if negb (PyValue.truthy request_id_arg || PyValue.truthy request_info) then
    Raise (ValueError "One of the parameters request_id and request_info has to be given")
  else
    let? id := (if PyValue.truthy request_id_arg then Ok request_id_arg
                else PyJson.getitem request_info "id") in
    Ok {| request_id := id;
          config := config_or_default config_arg;
          _request_info := request_info |}.

(** [tiling_grid(grid_id, resolution, buffer=None, **kwargs)]; [buffer] is a
    tuple or [None]. *)
Definition tiling_grid (grid_id resolution : json) (buffer : option (list json))
    (kwargs : KwDict.t) : Result KwDict.t :=
  let payload := KwDict.of_pairs ([("id", grid_id); ("resolution", resolution)] ++ kwargs) in
  match buffer with
  | Some (first :: others) =>
      let? buffer_x := Ok first in
      let? buffer_y := match others with
                       | second :: _ => Ok second
                       | [] => Raise IndexError
                       end in
      Ok (KwDict.of_pairs (payload ++ [("bufferX", buffer_x); ("bufferY", buffer_y)]))
  | _ => Ok payload
  end.

(** [output], whose parameters are keyword-only: [default_tile_path],
    [cog_output], [cog_parameters], [create_collection], [collection_id]
    and [responses], all [None] by default, and [**kwargs]. *)
Definition output (default_tile_path cog_output cog_parameters create_collection
    collection_id responses : json) (kwargs : KwDict.t) : KwDict.t :=
  _remove_undefined_params
    (KwDict.of_pairs ([("defaultTilePath", default_tile_path);
                       ("cogOutput", cog_output);
                       ("cogParameters", cog_parameters);
                       ("createCollection", create_collection);
                       ("collectionId", collection_id);
                       ("responses", responses)] ++ kwargs)).

(** [update_info]: the object afterwards *)
Definition update_info (self : SentinelHubBatch) : B SentinelHubBatch :=
  let url := _get_process_url (Some (config self)) (request_id self) in
  do request_info <- get_auth_json url None None;
  ret {| request_id := request_id self;
         config := config self;
         _request_info := request_info |}.

(** The property [info]: its value and the object afterwards *)
Definition info (self : SentinelHubBatch) : B (json * SentinelHubBatch) :=
  do self' <- (if PyValue.is_none (_request_info self) then update_info self else ret self);
  ret (_request_info self', self').

(** The property [evalscript] *)
Definition evalscript (self : SentinelHubBatch) : B (json * SentinelHubBatch) :=
  do (request_info, self') <- info self;
  do script <- lift (let? process := PyJson.getitem request_info "processRequest" in
                     PyJson.getitem process "evalscript");
  ret (script, self').

(** [value.rsplit('/', 1)[-1]]: only strings have [rsplit]. *)
Definition last_segment (value : json) : Result string :=
  match value with
  | JStr s => Ok (PyValue.rsplit_last "/"%char s)
  | _ => Raise AttributeError
  end.

(** The property [geometry] *)
Definition geometry (self : SentinelHubBatch) : B (area * SentinelHubBatch) :=
  do (request_info, self') <- info self;
  do shape <- lift (
    let? process := PyJson.getitem request_info "processRequest" in
    let? input := PyJson.getitem process "input" in
    let? bounds_definition := PyJson.getitem input "bounds" in
    let? properties := PyJson.getitem bounds_definition "properties" in
    let? crs_url := PyJson.getitem properties "crs" in
    let? code := last_segment crs_url in
    let? crs := CRS code in
    let? has_bbox := PyJson.contains bounds_definition "bbox" in
    if has_bbox : bool then
      let? bbox := PyJson.getitem bounds_definition "bbox" in BBox bbox crs
    else
      let? shape := PyJson.getitem bounds_definition "geometry" in Geometry shape crs);
  ret (shape, self').

(** [_call_job(endpoint_name)] *)
Definition _call_job (self : SentinelHubBatch) (endpoint_name : string) : B unit :=
  let process_url := _get_process_url (Some (config self)) (request_id self) in
  let url := String.append process_url (String.append "/" endpoint_name) in
  do _ <- get_auth_json url None (Some POST);
  ret tt.

Definition start_analysis (self : SentinelHubBatch) : B unit := _call_job self "analyse".
Definition start_job (self : SentinelHubBatch) : B unit := _call_job self "start".
Definition cancel_job (self : SentinelHubBatch) : B unit := _call_job self "cancel".
Definition restart_job (self : SentinelHubBatch) : B unit := _call_job self "restartpartial".

(** [_get_tiles_url(tile_id=None)] *)
Definition _get_tiles_url (self : SentinelHubBatch) (tile_id : json) : string :=
  let process_url := _get_process_url (Some (config self)) (request_id self) in
  let url := String.append process_url "/tiles" in
  if PyValue.truthy tile_id
  then String.append url (String.append "/" (fmt tile_id))
  else url.

Definition get_tile (self : SentinelHubBatch) (tile_id : json) : B json :=
  get_auth_json (_get_tiles_url self tile_id) None None.

(** [reprocess_tile(tile_id)]: [self._call_job(f'tiles/{tile_id}/restart')] *)
Definition reprocess_tile (self : SentinelHubBatch) (tile_id : json) : B unit :=
  _call_job self (String.append "tiles/" (String.append (fmt tile_id) "/restart")).

(** [get_tiling_grid(grid_id, config=None)] *)
Definition get_tiling_grid (grid_id : json) (config : option SHConfig) : B json :=
  get_auth_json (String.append (_get_tiling_grids_url config)
                   (String.append "/" (fmt grid_id))) None None.

(** *** Pages

    [_iter_pages] is a generator.  Its states: not started; suspended at the
    [yield] inside a page, with the items still to come; finished. *)
Inductive pages : Type :=
| PagesStart (service_url : string) (params : KwDict.t)
| PagesInPage (service_url : string) (params : KwDict.t) (results : json)
              (pending : list json)
| PagesDone.

(** What [next(generator)] gives: an item and the generator afterwards, or
    [StopIteration]; [Starved] when the steps allowed here have run out. *)
Inductive step (A G : Type) : Type :=
| Yielded (item : A) (generator : G)
| Stopped
| Starved.
Arguments Yielded {A G} item generator.
Arguments Stopped {A G}.
Arguments Starved {A G}.

(** [results['view'].get('nextToken')] *)
Definition next_token (results : json) : Result json :=
  let? view := PyJson.getitem results "view" in
  PyJson.get view "nextToken" JNull.

(** The parameters of the request made with [token]:
      if token is not None: params['viewtoken'] = token *)
Definition with_token (params : KwDict.t) (token : json) : KwDict.t :=
  if PyValue.is_none token then params else KwDict.set params "viewtoken" token.

Definition page_url (service_url : string) (params : KwDict.t) : string :=
  String.append service_url (String.append "?" (urlencode params)).

(** The body of the [while True] loop from its top, with [token] from the
    page before ([None] at the start), until the next [yield] or the
    [break]. *)
Fixpoint turn_pages (fuel : nat) (service_url : string) (params : KwDict.t) (token : json)
  : B (step json pages) :=
  match fuel with
  | 0 => ret Starved
  | S fuel' =>
      let params := with_token params token in
      do results <- get_auth_json (page_url service_url params) None None;
      do items <- lift (let? member := PyJson.getitem results "member" in
                        PyJson.iter insertion_order member);
      match items with
      | item :: pending => ret (Yielded item (PagesInPage service_url params results pending))
      | [] =>
          do token' <- lift (next_token results);
          if PyValue.is_none token' then ret Stopped
          else turn_pages fuel' service_url params token'
      end
  end.

(** [next(generator)] for a generator of [_iter_pages] *)
Definition pages_next (fuel : nat) (generator : pages) : B (step json pages) :=
  match generator with
  | PagesStart service_url params => turn_pages fuel service_url params JNull
  | PagesInPage service_url params results (item :: pending) =>
      ret (Yielded item (PagesInPage service_url params results pending))
  | PagesInPage service_url params results [] =>
      do token <- lift (next_token results);
      if PyValue.is_none token then ret Stopped
      else turn_pages fuel service_url params token
  | PagesDone => ret Stopped
  end.

(** [_iter_pages(service_url, **params)]: calling it only creates the
    generator. *)
Definition _iter_pages (service_url : string) (params : KwDict.t) : pages :=
  PagesStart service_url params.

(** The call [_iter_pages(url, **params)] with a dict unpacked into keyword
    arguments: an item named [service_url] gives the function a second
    value for its first parameter, which is a [TypeError]. *)
Definition unpack_into_iter_pages (url : string) (params : KwDict.t) : Result pages :=
  match KwDict.get params "service_url" with
  | Some _ => Raise TypeError
  | None => Ok (_iter_pages url params)
  end.

(** [list(generator)], for a generator with the given [next]; [None] when
    the steps allowed here have run out. *)
Fixpoint drain {A G} (next : nat -> G -> B (step A G)) (fuel : nat) (generator : G)
  : B (option (list A)) :=
  match fuel with
  | 0 => ret None
  | S fuel' =>
      do outcome <- next fuel' generator;
      match outcome with
      | Yielded item generator' =>
          do rest <- drain next fuel' generator';
          ret (match rest with Some items => Some (item :: items) | None => None end)
      | Stopped => ret (Some [])
      | Starved => ret None
      end
  end.

(** [iter_tiling_grids(search=None, sort=None, config=None, **kwargs)] *)
Definition iter_tiling_grids (search sort : json) (config : option SHConfig)
    (kwargs : KwDict.t) : Result pages :=
  let url := _get_tiling_grids_url config in
  let params := _remove_undefined_params
                  (KwDict.of_pairs ([("search", search); ("sort", sort)] ++ kwargs)) in
  unpack_into_iter_pages url params.

(** [iter_tiles(status=None, **kwargs)] *)
Definition iter_tiles (self : SentinelHubBatch) (status : json) (kwargs : KwDict.t)
  : Result pages :=
  let url := _get_tiles_url self JNull in
  let params := _remove_undefined_params
                  (KwDict.of_pairs ([("status", status)] ++ kwargs)) in
  unpack_into_iter_pages url params.

(** [iter_requests(search=None, sort=None, user_id=None, config=None,
                   **kwargs)]: a generator around the generator of pages,
    which it creates, or fails to create, when it is started. *)
Inductive requests : Type :=
| RequestsStart (search sort user_id : json) (config : option SHConfig) (kwargs : KwDict.t)
| RequestsOver (config : option SHConfig) (inner : pages).

Definition iter_requests (search sort user_id : json) (config : option SHConfig)
    (kwargs : KwDict.t) : requests :=
  RequestsStart search sort user_id config kwargs.

Definition requests_pages (generator : requests) : Result (option SHConfig * pages) :=
  match generator with
  | RequestsStart search sort user_id config kwargs =>
      let url := _get_process_url config JNull in
      let params := _remove_undefined_params
                      (KwDict.of_pairs ([("search", search); ("sort", sort);
                                         ("userid", user_id)] ++ kwargs)) in
      let? inner := unpack_into_iter_pages url params in
      Ok (config, inner)
  | RequestsOver config inner => Ok (config, inner)
  end.

Definition requests_next (fuel : nat) (generator : requests)
  : B (step SentinelHubBatch requests) :=
  do (config, inner) <- lift (requests_pages generator);
  do outcome <- pages_next fuel inner;
  match outcome with
  | Yielded request_info inner' =>
      do request <- lift (__init__ JNull request_info config);
      ret (Yielded request (RequestsOver config inner'))
  | Stopped => ret Stopped
  | Starved => ret Starved
  end.

(** *** The latest request *)

(** [a > b]: strings compare by their characters. *)
Definition py_gt (a b : json) : Result bool :=
  match a, b with
  | JStr s, JStr t => Ok (String.ltb t s)
  | _, _ => builtin_gt a b
  end.

(** [request.info['created']], with the request afterwards *)
Definition created (request : SentinelHubBatch) : B (json * SentinelHubBatch) :=
  do (request_info, request') <- info request;
  do value <- lift (PyJson.getitem request_info "created");
  ret (value, request').

(** The loop of [max] over the remaining arguments: the best so far is
    replaced by an argument whose key is greater. *)
Fixpoint max_loop (best : SentinelHubBatch) (best_key : json) (others : list SentinelHubBatch)
  : B SentinelHubBatch :=
  match others with
  | [] => ret best
  | request :: rest =>
      do (key, request') <- created request;
      do greater <- lift (py_gt key best_key);
      if greater : bool then max_loop request' key rest
      else max_loop best best_key rest
  end.

(** [max] called with the batch requests unpacked as its arguments and
    [key=lambda request: request.info['created']]:
    without arguments [max] has nothing to compare; a single argument has
    to be an iterable, which a [SentinelHubBatch] is not. *)
Definition max_created (batch_requests : list SentinelHubBatch) : B SentinelHubBatch :=
  match batch_requests with
  | [] => raise TypeError
  | [_] => raise TypeError
  | first :: others =>
      do (key, first') <- created first;
      max_loop first' key others
  end.

(** [get_latest_request(config=None)]; [None] when the steps allowed here
    have run out before the list of requests was complete. *)
Definition get_latest_request (fuel : nat) (config : option SHConfig)
  : B (option SentinelHubBatch) :=
  do batch_requests <- drain requests_next fuel
                         (iter_requests JNull JNull JNull config KwDict.empty);
  match batch_requests with
  | Some batch_requests => do latest <- max_created batch_requests; ret (Some latest)
  | None => ret None
  end.

(** *** Creating a request *)

(** The first argument of [create]: a [SentinelHubRequest], seen through
    the payloads of its [download_list], or any other value. *)
Inductive request_argument : Type :=
| RequestObject (download_list_post_values : list json)
| PlainValue (value : json).

(** [create(sentinelhub_request, tiling_grid, output=None, bucket_name=None,
            description=None, config=None)] *)
Definition create (sentinelhub_request : request_argument)
    (tiling_grid_arg output_arg bucket_name description : json) (config : option SHConfig)
  : B SentinelHubBatch :=
  do process_request <- lift (match sentinelhub_request with
                              | RequestObject payloads =>
                                  match payloads with
                                  | first :: _ => Ok first
                                  | [] => Raise IndexError
                                  end
                              | PlainValue value => Ok value
                              end);
  match process_request with
  | JObj _ =>
      let payload := _remove_undefined_params
                       (KwDict.of_pairs [("processRequest", process_request);
                                         ("tilingGrid", tiling_grid_arg);
                                         ("output", output_arg);
                                         ("bucketName", bucket_name);
                                         ("description", description)]) in
      let url := _get_process_url config JNull in
      do request_info <- get_auth_json url (Some payload) None;
      lift (__init__ JNull request_info config)
  | _ => raise (ValueError "Parameter sentinelhub_request should be an instance of SentinelHubRequest or a dictionary of request payload")
  end.

End Model.

Arguments Yielded {A G} item generator.
Arguments Stopped {A G}.
Arguments Starved {A G}.

End Batch.

(** ** Vocabulary of the properties of the Batch interface *)

(** [None] dropped from a look-up. *)
Definition defined (value : option json) : option json :=
  match value with
  | Some JNull => None
  | other => other
  end.

(** The items of a payload whose value is not [None]. *)
Definition keep_defined (payload : KwDict.t) : KwDict.t :=
  List.filter (fun item => negb (PyValue.is_none (snd item))) payload.

(** A GET: a call without payload and without request type. *)
Definition get_call (url : string) : api_call :=
  {| call_url := url; call_post_values := None; call_request_type := None |}.

Section BatchVocabulary.
Context {service : BatchCollaborators}.
Implicit Types (self : Batch.SentinelHubBatch).

(** The items of a page: [results['member']], iterated. *)
Definition read_items (results : json) : Result (list json) :=
  let? member := PyJson.getitem results "member" in
  PyJson.iter insertion_order member.

(** The service holds a chain of pages ready, each with its items: asked
    with the parameters and the token of the page before, it answers with
    the next page; every page but the last names a token, the last one
    names none. *)
Fixpoint served (sent_before : nat) (service_url : string) (params : KwDict.t)
    (token : json) (chain : list (json * list json)) : Prop :=
  match chain with
  | [] => False
  | (results, items) :: rest =>
      let params' := Batch.with_token params token in
      answer sent_before (get_call (Batch.page_url service_url params')) = Ok results ∧
      PyJson.getitem results "member" = Ok (JArr items) ∧
      match rest with
      | [] => Batch.next_token results = Ok JNull
      | _ => ∃ token', Batch.next_token results = Ok token' ∧ token' ≠ JNull ∧
                       served (S sent_before) service_url params' token' rest
      end
  end.

(** What follows a page: nothing when it names no token, the rest of the
    chain otherwise. *)
Definition continues (sent_before : nat) (service_url : string) (params : KwDict.t) (results : json)
    (chain : list (json * list json)) : Prop :=
  match chain with
  | [] => Batch.next_token results = Ok JNull
  | _ => ∃ token', Batch.next_token results = Ok token' ∧ token' ≠ JNull ∧
                   served sent_before service_url params token' chain
  end.

(** The token a page names, [None] when it cannot be read. *)
Definition token_of (results : json) : json :=
  match Batch.next_token results with
  | Ok token => token
  | Raise _ => JNull
  end.

(** The parameters of the successive requests for a chain of pages. *)
Fixpoint page_params (params : KwDict.t) (token : json) (chain : list (json * list json))
  : list KwDict.t :=
  match chain with
  | [] => []
  | (results, _) :: rest =>
      let params' := Batch.with_token params token in
      params' :: page_params params' (token_of results) rest
  end.

(** The calls for a chain of pages, in the order in which they are made. *)
Definition page_calls (service_url : string) (params : KwDict.t) (token : json)
    (chain : list (json * list json)) : list api_call :=
  (fun p => get_call (Batch.page_url service_url p)) <$> page_params params token chain.

(** Steps that are enough to go through a chain of pages. *)
Fixpoint cost (chain : list (json * list json)) : nat :=
  match chain with
  | [] => 0
  | (_, items) :: rest => S (length items + cost rest)
  end.

(** What [list] does with the outcome of a [next]. *)
Definition finish {A G} (next : nat -> G -> Batch.B (Batch.step A G)) (fuel : nat)
    (outcome : Batch.step A G) : Batch.B (option (list A)) :=
  match outcome with
  | Batch.Yielded item generator' =>
      Batch.bind (Batch.drain next fuel generator')
        (fun rest => Batch.ret (match rest with
                                | Some items => Some (item :: items)
                                | None => None
                                end))
  | Batch.Stopped => Batch.ret (Some [])
  | Batch.Starved => Batch.ret None
  end.

(** The call of a job endpoint: a POST without payload. *)
Definition job_call self (endpoint_name : string) : api_call :=
  {| call_url := Batch._get_process_url (Some (Batch.config self)) (Batch.request_id self)
                   +:+ "/" +:+ endpoint_name;
     call_post_values := None;
     call_request_type := Some POST |}.

(** The object once [request_info] has been stored in it. *)
Definition with_info self (request_info : json) : Batch.SentinelHubBatch :=
  {| Batch.request_id := Batch.request_id self;
     Batch.config := Batch.config self;
     Batch._request_info := request_info |}.

(** The call that loads the information of a request. *)
Definition info_call self : api_call :=
  get_call (Batch._get_process_url (Some (Batch.config self)) (Batch.request_id self)).

(** The object that [iter_requests] and [create] build from the
    information of a request. *)
Definition request_of (config : option SHConfig) (request_info id : json)
  : Batch.SentinelHubBatch :=
  {| Batch.request_id := id;
     Batch.config := Batch.config_or_default config;
     Batch._request_info := request_info |}.

(** The information of a request names its id. *)
Definition listed (config : option SHConfig) (request_info : json)
    (request : Batch.SentinelHubBatch) : Prop :=
  ∃ id, PyJson.getitem request_info "id" = Ok id ∧
        request = request_of config request_info id.

(** The information of a request gives the text [stamp] as its time of
    creation. *)
Definition created_at (request_info : json) (stamp : string) : Prop :=
  PyJson.getitem request_info "created" = Ok (JStr stamp).

(** The position of the first greatest among texts. *)
Definition first_greatest (stamps : list string) (i : nat) (greatest : string) : Prop :=
  stamps !! i = Some greatest ∧
  ∀ (j : nat) (stamp : string), stamps !! j = Some stamp →
    String.le stamp greatest ∧ (j < i → stamp ≠ greatest).

(** The payload that [create] builds before the undefined fields are
    removed. *)
Definition create_fields (process_request tiling_grid_arg output_arg bucket_name
    description : json) : KwDict.t :=
  [("processRequest", process_request); ("tilingGrid", tiling_grid_arg);
   ("output", output_arg); ("bucketName", bucket_name); ("description", description)].

End BatchVocabulary.

(** ** More requests for the Stat client *)

Module ClientDemo.
Import Demo Byte.



Definition request_path : string := "stat/request.json".

(** A request whose payload has no aggregation: the service refuses it. *)
Definition refused : @DownloadRequest formats := {|
  url := "stat";
  data_type := @JSON formats;
  post_values := JObj ∅;
  save_response := true;
  return_data := true
|}.

Definition refusal : @World formats :=
  snd (download_and_retry (collaborators := collaborators) client refused (world None)).

Definition eager : SentinelHubStatDownloadClient := {| redownload := true |}.

(** Three failed intervals, and a service whose answers to the retries
    cannot be decoded. *)
Definition three_failed : PyDict.t json :=
  [(0, JStr "2020-01-01/2020-01-02"); (1, JStr "2020-01-02/2020-01-03");
   (3, JStr "2020-01-04/2020-01-05")].

Definition garbled : @Collaborators formats := collaborators_with [x07].

(** A dict whose keys were inserted in an order that is not the
    alphabetical one. *)
Definition unsorted : gmap string json :=
  {[ "zeta" := JNum 1; "alpha" := JNum 2; "mid" := JNum 3 ]}.

End ClientDemo.

(** ** A Batch service to run the interface against *)

Module BatchDemo.

Definition base : SHConfig := {| sh_base_url := "https://services.example" |}.

Definition request_info_of (id stamp : string) : json :=
  JObj {[ "id" := JStr id; "created" := JStr stamp ]}.

Definition first_info : json := request_info_of "a" "2020-03-01".
Definition second_info : json := request_info_of "b" "2020-05-01".
Definition third_info : json := request_info_of "c" "2020-05-01".

(** Two pages: the first names the token of the second. *)
Definition first_page : json :=
  JObj {[ "member" := JArr [first_info; second_info];
          "view" := JObj {[ "nextToken" := JStr "t1" ]} ]}.

Definition last_page : json :=
  JObj {[ "member" := JArr [third_info]; "view" := JObj ∅ ]}.

(** A single page with a single request. *)
Definition only_page : json :=
  JObj {[ "member" := JArr [first_info]; "view" := JObj ∅ ]}.

Definition encode_item (item : string * json) : string :=
  fst item +:+ "=" +:+ PyValue.format (fun _ => "...") (snd item).

(** The service answers the first call with [opening] and the second with
    the last page. *)
Definition service_with (opening : json) : BatchCollaborators := {|
  default_config := base;
  urlencode := fun params => String.concat "&" (encode_item <$> params);
  container_repr := fun _ => "...";
  insertion_order := fun _ => [];
  answer := fun sent_before _ =>
    match sent_before with
    | 0 => Ok opening
    | 1 => Ok last_page
    | _ => Raise DownloadError
    end;
  builtin_gt := fun _ _ => Raise TypeError;
  crs := string;
  area := bool * json * string;
  CRS := fun code => Ok code;
  BBox := fun bbox system => Ok (true, bbox, system);
  Geometry := fun shape system => Ok (false, shape, system)
|}.

Definition service : BatchCollaborators := service_with first_page.
Definition lonely : BatchCollaborators := service_with only_page.

Definition chain : list (json * list json) :=
  [(first_page, [first_info; second_info]); (last_page, [third_info])].

Definition short_chain : list (json * list json) := [(only_page, [first_info])].

Definition listing (id : string) (request_info : json) : Batch.SentinelHubBatch :=
  request_of (service := service) None request_info (JStr id).

Definition listings : list Batch.SentinelHubBatch :=
  [listing "a" first_info; listing "b" second_info; listing "c" third_info].

(** A request over a bounding box in WGS 84. *)
Definition bounds : gmap string json :=
  {[ "bbox" := JArr [JNum 14; JNum 45; JNum 15; JNum 46];
     "geometry" := JObj ∅;
     "properties" := JObj {[ "crs" := JStr "http://www.opengis.net/def/crs/EPSG/0/4326" ]} ]}.

Definition boxed : Batch.SentinelHubBatch :=
  request_of (service := service) None
    (JObj {[ "id" := JStr "a";
             "processRequest" := JObj {[ "input" := JObj {[ "bounds" := JObj bounds ]} ]} ]})
    (JStr "a").

(** The arguments of the runs below. *)
Definition query : KwDict.t :=
  [("search", JStr "ndvi"); ("sort", JNull); ("count", JNum 10)].

Definition overrides : KwDict.t := [("cogOutput", JNull); ("overwrite", JBool true)].

Definition grid_arguments : KwDict.t := [("id", JNum 5); ("bufferX", JNum 0)].

Definition tiles_url : string := Batch._get_tiles_url (service := service) boxed JNull.

Definition tiles_query : KwDict.t := [("status", JStr "FAILED")].

Definition requests_url : string := Batch._get_process_url (service := service) None JNull.

Definition requests_query : KwDict.t :=
  _remove_undefined_params
    (KwDict.of_pairs ([("search", JStr "ndvi"); ("sort", JNull); ("userid", JNull)]
                        ++ KwDict.empty)).

Definition stamps : list string := ["2020-03-01"; "2020-05-01"; "2020-05-01"].

End BatchDemo.

(** ** Properties *)

Local Open Scope nat_scope.
Local Open Scope list_scope.

Lemma in_retriable_errors (type : json) :
  PyJson.in_strs type _RETIRABLE_ERRORS = true ↔
  type = JStr "EXECUTION_ERROR" ∨ type = JStr "TIMEOUT".
Proof.
  unfold PyJson.in_strs, _RETIRABLE_ERRORS. simpl.
  rewrite !orb_true_iff. unfold PyJson.eq_str.
  destruct type as [ | | |s| | ]; try (split; [intuition discriminate | intros [?|?]; discriminate]).
  rewrite !String.eqb_eq. split.
  - intros [->|[->|?]]; [by left|by right|discriminate].
  - intros [[= ->]|[= ->]]; auto.
Qed.

Lemma in_retriable_errors_false (type : json) :
  type ≠ JStr "EXECUTION_ERROR" → type ≠ JStr "TIMEOUT" →
  PyJson.in_strs type _RETIRABLE_ERRORS = false.
Proof.
  intros H1 H2. apply not_true_is_false. rewrite in_retriable_errors. tauto.
Qed.

(** C5. [_has_retriable_error] answers [True] exactly on the entries that
    contain an [error] object whose [type] is [EXECUTION_ERROR] or
    [TIMEOUT].  An entry without an [error] key, an entry whose [error]
    object has no [type], and an entry whose [error] object has any other
    [type] are all answered with [False]. *)
Theorem has_retriable_error_iff (stat_info : json) :
  (_has_retriable_error stat_info = Ok true ↔ carries_retriable_error stat_info) ∧
  (∀ fields, stat_info = JObj fields →
     (fields !! "error" = None → _has_retriable_error stat_info = Ok false) ∧
     (∀ error, fields !! "error" = Some (JObj error) → error !! "type" = None →
        _has_retriable_error stat_info = Ok false) ∧
     (∀ error type, fields !! "error" = Some (JObj error) → error !! "type" = Some type →
        type ≠ JStr "EXECUTION_ERROR" → type ≠ JStr "TIMEOUT" →
        _has_retriable_error stat_info = Ok false)).
Proof.
  split.
  - split.
    + unfold _has_retriable_error. destruct stat_info as [ | | | | |fields]; try discriminate.
      simpl. destruct (fields !! "error") as [error|] eqn:Herror; simpl.
      * destruct error as [ | | | | |efields]; try discriminate. simpl.
        destruct (efields !! "type") as [type|] eqn:Htype.
        -- intros [= Hin]. apply in_retriable_errors in Hin.
           by exists fields, efields, type.
        -- discriminate.
      * rewrite lookup_empty. discriminate.
    + intros (fields & error & type & -> & Herror & Htype & Hin).
      unfold _has_retriable_error. simpl. rewrite Herror. simpl. rewrite Htype.
      f_equal. by apply in_retriable_errors.
  - intros fields ->. unfold _has_retriable_error. simpl. repeat split.
    + intros ->. simpl. by rewrite lookup_empty.
    + intros error -> Htype. simpl. by rewrite Htype.
    + intros error type -> Htype H1 H2. simpl. rewrite Htype.
      f_equal. by apply in_retriable_errors_false.
Qed.

(** An entry that [_has_retriable_error] can classify is a dict. *)
Lemma has_retriable_error_obj (stat_info : json) (b : bool) :
  _has_retriable_error stat_info = Ok b → ∃ fields, stat_info = JObj fields.
Proof.
  destruct stat_info; try discriminate. eauto.
Qed.



Section Validation.
Context {formats : Formats} {collaborators : Collaborators}.
Implicit Types (self : SentinelHubStatDownloadClient) (request : DownloadRequest) (w : World).

(** C9. A structurally valid request that asks neither to save nor to
    return data gets [None] at once: the world, with its files, its record
    of network requests and its record of disk operations, is unchanged. *)
Theorem single_download_nothing_to_do self request (flag : bool) w :
  raise_if_invalid request = Ok tt →
  save_response request = false →
  return_data request = false →
  _single_download self request flag w = (Ok None, w).
Proof.
  intros Hvalid Hsave Hreturn.
  unfold _single_download, bind, lift. rewrite Hvalid, Hsave, Hreturn. reflexivity.
Qed.

(** C4 (as amended). A structurally valid request that asks neither to
    save nor to return data does not fail: no exception is raised, and the
    call ends before any network or disk operation. *)
Theorem single_download_no_purpose_no_error self request (flag : bool) w :
  raise_if_invalid request = Ok tt →
  save_response request = false →
  return_data request = false →
  (∀ e, fst (_single_download self request flag w) ≠ Raise e) ∧
  snd (_single_download self request flag w) = w.
Proof.
  intros Hvalid Hsave Hreturn.
  unfold _single_download, bind, lift. rewrite Hvalid, Hsave, Hreturn. simpl.
  split; [discriminate|reflexivity].
Qed.

(** C10. Structural validation comes first: the error of
    [raise_if_invalid] is raised whatever the save and return flags are,
    with the world untouched, and a call that returns at all was made on a
    structurally valid request. *)
Theorem single_download_validates_first self request (flag : bool) w :
  (∀ e, raise_if_invalid request = Raise e →
        _single_download self request flag w = (Raise e, w)) ∧
  (∀ result w', _single_download self request flag w = (Ok result, w') →
        raise_if_invalid request = Ok tt).
Proof.
  split.
  - intros e Hinvalid. unfold _single_download, bind, lift. by rewrite Hinvalid.
  - intros result w'. unfold _single_download, bind, lift.
    destruct (raise_if_invalid request) as [[]|e]; [done|discriminate].
Qed.

End Validation.

Section Retries.
Context {formats : Formats} {collaborators : Collaborators}.
Implicit Types (request : DownloadRequest) (w : World).

Lemma retry_loop_cons (retry_num : Z) request (retry_count : Z) (rest : list Z) w :
  retry_loop retry_num request (retry_count :: rest) w =
  match attempt_stat_info (length (fetched w)) request with
  | Raise e => (Raise e, record_fetch request w)
  | Ok stat_info =>
      match _has_retriable_error stat_info with
      | Raise e => (Raise e, record_fetch request w)
      | Ok retriable =>
          if negb retriable || (retry_count =? retry_num - 1)%Z
          then (Ok (Some stat_info), record_fetch request w)
          else retry_loop retry_num request rest (record_fetch request w)
      end
  end.
Proof.
  unfold attempt_stat_info. simpl. unfold bind, _execute_download, lift, ret. 
  destruct (service (length (fetched w)) request) as [response|e]; [simpl|done].
  destruct (decode_data_function response (data_type request)) as [stat_response|e]; [simpl|done].
  destruct (PyJson.getitem stat_response "data") as [data|e]; [simpl|done].
  destruct (PyJson.getitem_int data 0) as [stat_info|e]; [simpl|done].
  destruct (_has_retriable_error stat_info) as [retriable|e]; [simpl|done].
  by destruct (negb retriable || (retry_count =? retry_num - 1)%Z).
Qed.

(** The loop, entered at count [first] with [S more] counts to go, the
    last of which is [retry_num - 1]. *)
Lemma retry_loop_from (retry_num : Z) request (more first : nat) w :
  Z.of_nat (first + more) = (retry_num - 1)%Z →
  match retry_loop retry_num request (map Z.of_nat (seq first (S more))) w with
  | (Ok (Some stat_info), w') =>
      ∃ k, k ≤ more ∧
           attempt_stat_info (length (fetched w) + k) request = Ok stat_info ∧
           (∃ retriable, _has_retriable_error stat_info = Ok retriable) ∧
           length (fetched w') = length (fetched w) + S k
  | (Ok None, _) => False
  | (Raise e, _) => ∃ k, k ≤ more ∧ attempt_raises (length (fetched w) + k) request e
  end.
Proof.
  revert first w. induction more as [|more IH]; intros first w Hlast.
  - cbn [seq map]. rewrite retry_loop_cons.
    destruct (attempt_stat_info (length (fetched w)) request) as [stat_info|e] eqn:Hattempt.
    + destruct (_has_retriable_error stat_info) as [retriable|e] eqn:Hclass.
      * replace (Z.of_nat first =? retry_num - 1)%Z with true
          by (symmetry; apply Z.eqb_eq; lia).
        rewrite orb_true_r. exists 0. rewrite Nat.add_0_r. simpl.
        repeat split; try lia; eauto.
      * exists 0. rewrite Nat.add_0_r. split; [lia|]. right. eauto.
    + exists 0. rewrite Nat.add_0_r. split; [lia|]. by left.
  - change (seq first (S (S more))) with (first :: seq (S first) (S more)).
    cbn [map]. rewrite retry_loop_cons.
    destruct (attempt_stat_info (length (fetched w)) request) as [stat_info|e] eqn:Hattempt.
    + destruct (_has_retriable_error stat_info) as [retriable|e] eqn:Hclass.
      * destruct (negb retriable || (Z.of_nat first =? retry_num - 1)%Z).
        -- exists 0. rewrite Nat.add_0_r. simpl. repeat split; try lia; eauto.
        -- specialize (IH (S first) (record_fetch request w)).
           destruct (retry_loop retry_num request (map Z.of_nat (seq (S first) (S more)))
                       (record_fetch request w)) as [[[stat_info'|]|e] w'].
           ++ destruct IH as (k & Hk & Hat & Hcl & Hlen); [lia|].
              simpl in Hat, Hlen. exists (S k).
              rewrite <- Nat.add_succ_comm. repeat split; [lia|done|done|lia].
           ++ apply IH. lia.
           ++ destruct IH as (k & Hk & Hraise); [lia|].
              simpl in Hraise. exists (S k).
              rewrite <- Nat.add_succ_comm. split; [lia|done].
      * exists 0. rewrite Nat.add_0_r. split; [lia|]. right. eauto.
    + exists 0. rewrite Nat.add_0_r. split; [lia|]. by left.
Qed.

(** With the bound [_RETRY_NUM = 1] of the class there is one attempt, and
    its interval result is returned once it has been classified. *)
Lemma execute_single_one_attempt request w :
  _execute_single_stat_download request w =
  (match attempt_stat_info (length (fetched w)) request with
   | Ok stat_info =>
       match _has_retriable_error stat_info with
       | Ok _ => Ok stat_info
       | Raise e => Raise e
       end
   | Raise e => Raise e
   end,
   record_fetch request w).
Proof.
  unfold _execute_single_stat_download, execute_with_retries, bind.
  change (py_range _RETRY_NUM) with [0%Z]. rewrite retry_loop_cons.
  destruct (attempt_stat_info (length (fetched w)) request) as [stat_info|e]; [|done].
  destruct (_has_retriable_error stat_info) as [retriable|e]; [|done].
  change (0 =? _RETRY_NUM - 1)%Z with true. by rewrite orb_true_r.
Qed.

Lemma py_range_pos (retry_num : Z) :
  (1 ≤ retry_num)%Z →
  ∃ more, py_range retry_num = map Z.of_nat (seq 0 (S more)) ∧
          Z.of_nat (0 + more) = (retry_num - 1)%Z ∧ S more = Z.to_nat retry_num.
Proof.
  intros Hpos. exists (Z.to_nat (retry_num - 1)). unfold py_range.
  replace (Z.to_nat retry_num) with (S (Z.to_nat (retry_num - 1))) by lia.
  repeat split. lia.
Qed.

(** C6. With a retry bound of at least 1 the loop never runs to its end
    without returning, so [ValueError('No retries done')] is out of reach:
    a call that returns gives [data[0]] of one of its decoded attempts, a
    call that raises passes on what one of its attempts raised, and a call
    whose attempts all succeed does return. *)
Theorem retry_loop_always_returns (retry_num : Z) request w :
  (1 ≤ retry_num)%Z →
  (∀ w', retry_loop retry_num request (py_range retry_num) w ≠ (Ok None, w')) ∧
  (∀ stat_info w',
     execute_with_retries retry_num request w = (Ok stat_info, w') →
     ∃ k, k < Z.to_nat retry_num ∧
          attempt_stat_info (length (fetched w) + k) request = Ok stat_info) ∧
  (∀ e w',
     execute_with_retries retry_num request w = (Raise e, w') →
     ∃ k, k < Z.to_nat retry_num ∧ attempt_raises (length (fetched w) + k) request e) ∧
  ((∀ k, k < Z.to_nat retry_num →
         ∃ stat_info retriable,
           attempt_stat_info (length (fetched w) + k) request = Ok stat_info ∧
           _has_retriable_error stat_info = Ok retriable) →
   ∃ stat_info w', execute_with_retries retry_num request w = (Ok stat_info, w')).
Proof.
  intros Hpos. destruct (py_range_pos retry_num Hpos) as (more & Hrange & Hlast & Hnum).
  pose proof (retry_loop_from retry_num request more 0 w Hlast) as Hloop.
  unfold execute_with_retries, bind. rewrite Hrange.
  destruct (retry_loop retry_num request (map Z.of_nat (seq 0 (S more))) w)
    as [[[stat_info|]|e] w1]; [| done |].
  - destruct Hloop as (k & Hk & Hattempt & _ & _).
    repeat split.
    + discriminate.
    + intros ? ? [= <- <-]. exists k. split; [lia|done].
    + discriminate.
    + eauto.
  - destruct Hloop as (k & Hk & Hraise).
    repeat split.
    + discriminate.
    + discriminate.
    + intros ? ? [= <- <-]. exists k. split; [lia|done].
    + intros Hall. destruct (Hall k) as (stat_info & retriable & Hat & Hcl); [lia|].
      destruct Hraise as [Hr|(stat_info' & Hat' & Hcl')]; congruence.
Qed.

End Retries.

(** ** Dicts keyed by interval index *)

Section PyDictFacts.
Context {V : Type}.
Implicit Types (d : PyDict.t V) (key : nat) (value : V).


Lemma pydict_get_Some_lookup d key value :
  PyDict.get d key = Some value → ∃ pos, d !! pos = Some (key, value).
Proof.
  induction d as [|[k v] d IH]; simpl; [discriminate|].
  destruct (Nat.eqb_spec k key) as [->|Hne].
  - intros [= ->]. by exists 0.
  - intros Hget. destruct (IH Hget) as [pos Hpos]. by exists (S pos).
Qed.

Lemma pydict_lookup_get d pos key value :
  NoDup (PyDict.keys d) → d !! pos = Some (key, value) → PyDict.get d key = Some value.
Proof.
  unfold PyDict.keys. revert pos. induction d as [|[k v] d IH]; intros pos Hnodup Hpos.
  - by rewrite lookup_nil in Hpos.
  - apply NoDup_cons in Hnodup as [Hfresh Hnodup]. simpl in *.
    destruct pos as [|pos]; simpl in Hpos.
    + injection Hpos as -> ->. by rewrite Nat.eqb_refl.
    + destruct (Nat.eqb_spec k key) as [->|Hne]; [|by eapply IH].
      exfalso. apply Hfresh. apply list_elem_of_fmap.
      exists (key, value). split; [done|]. by eapply list_elem_of_lookup_2.
Qed.

Lemma pydict_set_fresh d key value :
  key ∉ PyDict.keys d → PyDict.set d key value = d ++ [(key, value)].
Proof.
  unfold PyDict.keys. induction d as [|[k v] d IH]; simpl; [done|].
  rewrite not_elem_of_cons. intros [Hne Hfresh].
  destruct (Nat.eqb_spec k key) as [->|_]; [done|]. by rewrite IH.
Qed.

Lemma pydict_fold_set_fresh (pairs : list (nat * V)) d :
  NoDup (PyDict.keys d ++ pairs.*1) →
  fold_left (fun d kv => PyDict.set d (fst kv) (snd kv)) pairs d = d ++ pairs.
Proof.
  unfold PyDict.keys. revert d. induction pairs as [|[k v] pairs IH]; intros d Hnodup; simpl.
  - by rewrite app_nil_r.
  - simpl in Hnodup. rewrite pydict_set_fresh.
    + rewrite IH.
      * by rewrite <- app_assoc.
      * unfold PyDict.keys. rewrite fmap_app. simpl. by rewrite <- app_assoc.
    + apply NoDup_app in Hnodup as (_ & Hdisjoint & _).
      intros Hin. apply (Hdisjoint k Hin). by left.
Qed.

(** A dict comprehension over pairs with distinct keys keeps the pairs
    as they come. *)
Lemma pydict_of_pairs_NoDup (pairs : list (nat * V)) :
  NoDup pairs.*1 → PyDict.of_pairs pairs = pairs.
Proof.
  intros Hnodup. unfold PyDict.of_pairs, PyDict.empty.
  by rewrite pydict_fold_set_fresh.
Qed.

End PyDictFacts.

(** ** The scan for failed intervals *)

Section Scan.
Implicit Types (failed : PyDict.t json) (entries : list json).




End Scan.

Section PerInterval.
Context {formats : Formats} {collaborators : Collaborators}.
Implicit Types (request sub : DownloadRequest) (w : World).

Lemma interval_requests_Ok request (specs : list json) (requests : list DownloadRequest) :
  interval_requests request specs = Ok requests →
  Forall2 (fun spec sub => interval_request request spec = Ok sub) specs requests.
Proof.
  revert requests. induction specs as [|spec specs IH]; intros requests; simpl.
  - intros [= <-]. constructor.
  - destruct (interval_request request spec) as [sub|e] eqn:Hsub; [simpl|done].
    destruct (interval_requests request specs) as [subs|e]; [simpl|done].
    intros [= <-]. constructor; auto.
Qed.

Lemma interval_requests_Raise request (specs : list json) (e : exn) :
  interval_requests request specs = Raise e →
  ∃ spec, spec ∈ specs ∧ interval_request request spec = Raise e.
Proof.
  induction specs as [|spec specs IH]; simpl; [done|].
  destruct (interval_request request spec) as [sub|e'] eqn:Hsub; simpl.
  - destruct (interval_requests request specs) as [subs|e']; [done|]. simpl.
    intros [= ->]. destruct IH as (spec' & Hin & Hraise); [done|].
    exists spec'. split; [by right|done].
  - intros [= ->]. exists spec. split; [by left|done].
Qed.

(** *** The thread pool *)

Lemma performing_spec (n : nat) (order : list nat) :
  NoDup (performing n order) ∧ ∀ i, i ∈ performing n order → i < n.
Proof.
  unfold performing. split; [apply NoDup_remove_dups|].
  intros i. rewrite elem_of_remove_dups, list_elem_of_In, filter_In.
  intros [_ Hlt]. by apply Nat.ltb_lt.
Qed.

Lemma after_tasks_app {A B} (f : A → M B) (xs : list A) (first second : list nat) w :
  after_tasks f xs (first ++ second) w = after_tasks f xs second (after_tasks f xs first w).
Proof.
  revert w. induction first as [|i first IH]; intros w; simpl; [done|].
  by destruct (xs !! i).
Qed.

(** The tasks that the schedule has perform: each leaves its outcome in
    the world reached by those before it. *)
Lemma perform_spec {A B} (f : A → M B) (xs : list A) (order : list nat) :
  ∀ (finished : gmap nat (Result B)) w finished' w',
    perform f xs order finished w = (finished', w') →
    NoDup order → (∀ i, i ∈ order → i < length xs) →
    w' = after_tasks f xs order w ∧
    (∀ i, i ∉ order → finished' !! i = finished !! i) ∧
    (∀ k i, order !! k = Some i →
       ∃ x, xs !! i = Some x ∧
            finished' !! i = Some (fst (f x (after_tasks f xs (take k order) w)))).
Proof.
  induction order as [|i order IH]; intros finished w finished' w'; simpl.
  - intros [= <- <-] _ _. by repeat split.
  - intros Hrun Hnodup Hrange. apply NoDup_cons in Hnodup as [Hfresh Hnodup].
    destruct (lookup_lt_is_Some_2 xs i) as [x Hx]; [apply Hrange; by left|].
    rewrite Hx in Hrun. rewrite Hx.
    destruct (f x w) as [outcome w1] eqn:Hfx.
    destruct (IH _ _ _ _ Hrun Hnodup) as (Hworld & Hother & Hat).
    { intros j Hj. apply Hrange. by right. }
    split; [done|]. split.
    + intros j Hj. apply not_elem_of_cons in Hj as [Hne Hj].
      rewrite (Hother j Hj). by rewrite lookup_insert_ne.
    + intros [|k] j Hk; simpl in Hk.
      * injection Hk as <-. exists x. split; [done|].
        rewrite (Hother i Hfresh), lookup_insert_eq. simpl. by rewrite Hfx.
      * destruct (Hat k j Hk) as (x' & Hx' & Hdone). exists x'. split; [done|].
        simpl. by rewrite Hx, Hfx.
Qed.

(** The reading of the results: the tasks that had not performed do so in
    the order of their positions, up to the first exception. *)
Lemma collect_spec {A B} (f : A → M B) (finished : gmap nat (Result B)) (xs : list A)
    (rest : list A) :
  ∀ (position : nat) w (r : Result (list B)) w',
    drop position xs = rest →
    collect f finished position rest w = (r, w') →
    ∃ late : list nat,
      NoDup late ∧
      (∀ i, i ∈ late → position ≤ i ∧ i < length xs ∧ finished !! i = None) ∧
      w' = after_tasks f xs late w ∧
      match r with
      | Ok ys =>
          length ys = length rest ∧
          ∀ j x, rest !! j = Some x →
            ∃ y, ys !! j = Some y ∧
                 (finished !! (position + j) = Some (Ok y) ∨
                  ∃ k, late !! k = Some (position + j) ∧
                       fst (f x (after_tasks f xs (take k late) w)) = Ok y)
      | Raise e =>
          (∃ i, finished !! i = Some (Raise e)) ∨
          (∃ k i x, late !! k = Some i ∧ xs !! i = Some x ∧
                    fst (f x (after_tasks f xs (take k late) w)) = Raise e)
      end.
Proof.
  induction rest as [|x rest IH]; intros position w r w' Hdrop; simpl.
  - unfold ret. intros [= <- <-]. exists []. split; [constructor|].
    split; [intros i Hi; by apply elem_of_nil in Hi|]. split; [done|].
    split; [done|]. intros j x Hj. by rewrite lookup_nil in Hj.
  - assert (Hx : xs !! position = Some x).
    { rewrite <- (Nat.add_0_r position), <- lookup_drop, Hdrop. done. }
    assert (Hrest : drop (S position) xs = rest).
    { pose proof (drop_S _ _ _ Hx) as Hnext. rewrite Hdrop in Hnext. congruence. }
    pose proof (lookup_lt_Some _ _ _ Hx) as Hlt.
    unfold bind at 1.
    destruct (finished !! position) as [[y|e]|] eqn:Hdone.
    + unfold lift at 1. unfold bind at 1.
      destruct (collect f finished (S position) rest w) as [[ys|e] w1] eqn:Hcollect.
      * unfold ret. intros [= <- <-].
        destruct (IH _ _ _ _ Hrest Hcollect) as (late & Hnodup & Hlate & Hworld & Hlen & Hys).
        exists late. split; [done|]. split.
        { intros i Hi. destruct (Hlate i Hi) as (? & ? & ?). repeat split; [lia|done|done]. }
        split; [done|]. split; [simpl; by rewrite Hlen|].
        intros [|j] x' Hj; simpl in Hj.
        -- injection Hj as <-. exists y. split; [done|]. left. by rewrite Nat.add_0_r.
        -- destruct (Hys j x' Hj) as (y' & Hy' & Hfrom). exists y'. split; [done|].
           by replace (position + S j) with (S position + j) by lia.
      * intros [= <- <-].
        destruct (IH _ _ _ _ Hrest Hcollect) as (late & Hnodup & Hlate & Hworld & Hraise).
        exists late. split; [done|]. split; [|done].
        intros i Hi. destruct (Hlate i Hi) as (? & ? & ?). repeat split; [lia|done|done].
    + unfold lift at 1. intros [= <- <-]. exists []. split; [constructor|].
      split; [intros i Hi; by apply elem_of_nil in Hi|]. split; [done|]. left. by exists position.
    + destruct (f x w) as [[y|e] w1] eqn:Hfx.
      * unfold bind at 1.
        destruct (collect f finished (S position) rest w1) as [[ys|e] w2] eqn:Hcollect.
        -- unfold ret. intros [= <- <-].
           destruct (IH _ _ _ _ Hrest Hcollect)
             as (late & Hnodup & Hlate & Hworld & Hlen & Hys).
           exists (position :: late). split.
           { apply NoDup_cons. split; [|done]. intros Hin.
             destruct (Hlate _ Hin) as (? & _). lia. }
           split.
           { intros i Hi. apply elem_of_cons in Hi as [->|Hi]; [done|].
             destruct (Hlate i Hi) as (? & ? & ?). repeat split; [lia|done|done]. }
           split; [simpl; by rewrite Hx, Hfx|]. split; [simpl; by rewrite Hlen|].
           intros [|j] x' Hj; simpl in Hj.
           ++ injection Hj as <-. exists y. split; [done|]. right. exists 0.
              rewrite Nat.add_0_r. split; [done|]. simpl. by rewrite Hfx.
           ++ destruct (Hys j x' Hj) as (y' & Hy' & Hfrom). exists y'. split; [done|].
              replace (position + S j) with (S position + j) by lia.
              destruct Hfrom as [?|(k & Hk & Hrun)]; [by left|right].
              exists (S k). split; [done|]. simpl. by rewrite Hx, Hfx.
        -- intros [= <- <-].
           destruct (IH _ _ _ _ Hrest Hcollect) as (late & Hnodup & Hlate & Hworld & Hraise).
           exists (position :: late). split.
           { apply NoDup_cons. split; [|done]. intros Hin.
             destruct (Hlate _ Hin) as (? & _). lia. }
           split.
           { intros i Hi. apply elem_of_cons in Hi as [->|Hi]; [done|].
             destruct (Hlate i Hi) as (? & ? & ?). repeat split; [lia|done|done]. }
           split; [simpl; by rewrite Hx, Hfx|].
           destruct Hraise as [?|(k & i & x' & Hk & Hx' & Hrun)]; [by left|right].
           exists (S k), i, x'. split; [done|]. split; [done|]. simpl. by rewrite Hx, Hfx.
      * intros [= <- <-]. exists [position]. split; [apply NoDup_singleton|]. split.
        { intros i Hi. apply list_elem_of_singleton in Hi as ->. done. }
        split; [simpl; by rewrite Hx, Hfx|]. right.
        exists 0, position, x. split; [done|]. split; [done|]. simpl. by rewrite Hfx.
Qed.

(** A run of the pool: the tasks that perform do so one after the other
    in some order, none twice.  When the results are returned every task
    has performed, and the result at a position is what the task of that
    position returned; an exception raised is one that a task raised. *)
Lemma executor_map_run {A B} (f : A → M B) (xs : list A) w (r : Result (list B)) w' :
  executor_map f xs w = (r, w') →
  ∃ trace : list nat,
    NoDup trace ∧ (∀ i, i ∈ trace → i < length xs) ∧
    w' = after_tasks f xs trace w ∧
    match r with
    | Ok ys =>
        length ys = length xs ∧
        ∀ i x, xs !! i = Some x →
          ∃ k y, trace !! k = Some i ∧ ys !! i = Some y ∧
                 fst (f x (after_tasks f xs (take k trace) w)) = Ok y
    | Raise e =>
        ∃ k i x, trace !! k = Some i ∧ xs !! i = Some x ∧
                 fst (f x (after_tasks f xs (take k trace) w)) = Raise e
    end.
Proof.
  unfold executor_map.
  destruct (performing_spec (length xs) (schedule (length (fetched w)) (length xs)))
    as [Hnodup Hrange].
  set (order := performing _ _) in *.
  destruct (perform f xs order ∅ w) as [finished w1] eqn:Hperform.
  destruct (perform_spec _ _ _ _ _ _ _ Hperform Hnodup Hrange) as (Hworld & Hother & Hat).
  intros Hcollect.
  destruct (collect_spec f finished xs xs 0 w1 r w' eq_refl Hcollect)
    as (late & Hnodup' & Hlate & Hworld' & Hresult).
  assert (Hin_order : ∀ i outcome, finished !! i = Some outcome →
            ∃ k x, order !! k = Some i ∧ xs !! i = Some x ∧
                   fst (f x (after_tasks f xs (take k order) w)) = outcome).
  { intros i outcome Hi. destruct (decide (i ∈ order)) as [Hin|Hout].
    - apply list_elem_of_lookup in Hin as [k Hk]. destruct (Hat k i Hk) as (x & Hx & Hdone).
      exists k, x. split; [done|]. split; [done|]. rewrite Hdone in Hi. by injection Hi.
    - by rewrite (Hother i Hout), lookup_empty in Hi. }
  assert (Hlater : ∀ k, after_tasks f xs (take k late) w1
                        = after_tasks f xs (take (length order + k) (order ++ late)) w).
  { intros k. rewrite take_app_add', after_tasks_app by done. by rewrite Hworld. }
  assert (Hearlier : ∀ k i, order !! k = Some i →
                            take k (order ++ late) = take k order).
  { intros k i Hk. apply lookup_lt_Some in Hk. rewrite take_app_le by lia. done. }
  exists (order ++ late). split.
  { apply NoDup_app. split; [done|]. split; [|done].
    intros i Hin Hin'. destruct (Hlate i Hin') as (_ & _ & Hnone).
    apply list_elem_of_lookup in Hin as [k Hk]. destruct (Hat k i Hk) as (x & _ & Hdone).
    by rewrite Hnone in Hdone. }
  split.
  { intros i Hi. apply elem_of_app in Hi as [Hi|Hi]; [by apply Hrange|].
    by destruct (Hlate i Hi) as (_ & ? & _). }
  split; [by rewrite after_tasks_app, <- Hworld|].
  destruct r as [ys|e].
  - destruct Hresult as [Hlen Hys]. split; [done|]. intros i x Hx.
    destruct (Hys i x Hx) as (y & Hy & [Hdone|(k & Hk & Hrun)]).
    + destruct (Hin_order _ _ Hdone) as (k & x' & Hk & Hx' & Hrun).
      simpl in Hx'. rewrite Hx in Hx'. injection Hx' as <-.
      exists k, y. split; [by apply lookup_app_l_Some|]. split; [done|].
      by rewrite (Hearlier k i Hk).
    + exists (length order + k), y. split.
      { rewrite lookup_app_r by lia. by replace (length order + k - length order) with k by lia. }
      split; [done|]. by rewrite <- Hlater.
  - destruct Hresult as [[i Hdone]|(k & i & x & Hk & Hx & Hrun)].
    + destruct (Hin_order _ _ Hdone) as (k & x & Hk & Hx & Hrun).
      exists k, i, x. split; [by apply lookup_app_l_Some|]. split; [done|].
      by rewrite (Hearlier k i Hk).
    + exists (length order + k), i, x. split.
      { rewrite lookup_app_r by lia. by replace (length order + k - length order) with k by lia. }
      split; [done|]. by rewrite <- Hlater.
Qed.


(** *** The tasks of the client: one request each *)

Lemma after_tasks_single (requests : list DownloadRequest) (trace : list nat) w :
  files (after_tasks _execute_single_stat_download requests trace w) = files w ∧
  disk (after_tasks _execute_single_stat_download requests trace w) = disk w ∧
  fetched (after_tasks _execute_single_stat_download requests trace w)
    = rev (tasks_at requests trace) ++ fetched w.
Proof.
  unfold tasks_at. revert w. induction trace as [|i trace IH]; intros w; simpl; [done|].
  destruct (requests !! i) as [sub|]; [|apply IH].
  rewrite execute_single_one_attempt. cbn [snd].
  destruct (IH (record_fetch sub w)) as (-> & -> & ->). simpl.
  by rewrite <- app_assoc.
Qed.

Lemma tasks_at_seq {A} (xs : list A) : tasks_at xs (seq 0 (length xs)) = xs.
Proof.
  unfold tasks_at.
  assert (Hgen : ∀ before, omap (fun position => (before ++ xs) !! position)
                             (seq (length before) (length xs)) = xs).
  { induction xs as [|x xs IH]; intros before; simpl; [done|].
    rewrite list_lookup_middle by done. f_equal.
    specialize (IH (before ++ [x])). rewrite length_app, Nat.add_1_r in IH.
    by rewrite <- app_assoc in IH. }
  apply (Hgen []).
Qed.

(** The items at positions that do not repeat are among the items, none
    of them counted twice; they are all the items when every position is
    there. *)
Lemma tasks_at_submseteq {A} (xs : list A) (trace : list nat) :
  NoDup trace → (∀ i, i ∈ trace → i < length xs) →
  tasks_at xs trace ⊆+ xs ∧
  ((∀ i, i < length xs → i ∈ trace) → tasks_at xs trace ≡ₚ xs).
Proof.
  intros Hnodup Hrange. split.
  - assert (Hsub : trace ⊆+ seq 0 (length xs)).
    { apply NoDup_submseteq; [done|]. intros i Hi. apply elem_of_seq. split; [lia|].
      simpl. by apply Hrange. }
    apply submseteq_Permutation in Hsub as [others Hperm].
    rewrite <- (tasks_at_seq xs) at 2. unfold tasks_at. rewrite Hperm, omap_app.
    by apply submseteq_inserts_r.
  - intros Hall. rewrite <- (tasks_at_seq xs) at 2. unfold tasks_at.
    apply omap_Permutation, NoDup_Permutation; [done|apply NoDup_seq|].
    intros i. rewrite elem_of_seq. split.
    + intros Hi. split; [lia|]. simpl. by apply Hrange.
    + intros [_ Hi]. by apply Hall.
Qed.

Lemma after_tasks_during (requests : list DownloadRequest) (trace : list nat) (k : nat) w :
  NoDup trace → (∀ i, i ∈ trace → i < length requests) →
  during_retries requests w
    (after_tasks _execute_single_stat_download requests (take k trace) w).
Proof.
  intros Hnodup Hrange.
  destruct (after_tasks_single requests (take k trace) w) as (Hfiles & Hdisk & Hsent).
  split; [done|]. split; [done|]. exists (rev (tasks_at requests (take k trace))).
  split; [done|]. rewrite <- Permutation_rev.
  apply tasks_at_submseteq.
  - eapply sublist_NoDup; [exact Hnodup|apply sublist_take].
  - intros i Hi. apply Hrange. apply elem_of_take in Hi as (pos & Hpos & _).
    by eapply list_elem_of_lookup_2.
Qed.

(** The sub-request for an interval is the request with the interval
    written at [aggregation.timeRange] of its payload and nothing else
    changed. *)
Lemma interval_request_Ok request (time_interval : json) sub :
  interval_request request time_interval = Ok sub →
  ∃ payload aggregation,
    post_values request = JObj payload ∧
    payload !! "aggregation" = Some (JObj aggregation) ∧
    sub = set_post_values request
            (JObj (<["aggregation" := JObj (<["timeRange" := time_interval]> aggregation)]>
                     payload)).
Proof.
  unfold interval_request.
  destruct (post_values request) as [ | | | | |payload] eqn:Hpayload; try discriminate.
  simpl. destruct (payload !! "aggregation") as [aggregation|] eqn:Hagg; [|discriminate].
  simpl. destruct aggregation as [ | | | | |aggregation]; try discriminate.
  simpl. intros [= <-]. by exists payload, aggregation.
Qed.

Lemma interval_request_retries request (time_interval : json) sub :
  interval_request request time_interval = Ok sub → retries_interval request time_interval sub.
Proof.
  intros Hsub.
  destruct (interval_request_Ok _ _ _ Hsub) as (payload & aggregation & Hp & Ha & ->).
  unfold retries_interval. simpl. rewrite Hp. simpl. repeat split.
  - by rewrite lookup_insert_eq; simpl; rewrite lookup_insert_eq.
  - intros key Hkey. by rewrite lookup_insert_ne.
  - intros key Hkey. rewrite lookup_insert_eq, Ha. simpl. by rewrite lookup_insert_ne.
Qed.


(** C3. [_download_per_interval] keeps the keys of the mapping it is
    given, and it maps each index to the outcome of executing the
    sub-request of that index: the request with the interval of the index
    as its [aggregation.timeRange] and nothing else changed.  The
    sub-requests are built and their outcomes are paired with the indices
    position by position, in whatever order the threads of the pool get
    to send the sub-requests; each is executed in a world in which, since
    the call, only sub-requests have been sent, none of them twice, and the
    disk is as it was.  The call raises only what building or executing
    one of the sub-requests raises. *)
Theorem download_per_interval_by_position request (time_intervals : PyDict.t json) w :
  NoDup (PyDict.keys time_intervals) →
  match _download_per_interval request time_intervals w with
  | (Ok retried, w') =>
      PyDict.keys retried = PyDict.keys time_intervals ∧
      ∃ requests outcomes,
        interval_requests request (PyDict.values time_intervals) = Ok requests ∧
        executor_map _execute_single_stat_download requests w = (Ok outcomes, w') ∧
        length requests = length time_intervals ∧
        length outcomes = length time_intervals ∧
        ∀ index spec,
          PyDict.get time_intervals index = Some spec →
          ∃ pos sub outcome w1,
            time_intervals !! pos = Some (index, spec) ∧
            interval_request request spec = Ok sub ∧
            retries_interval request spec sub ∧
            requests !! pos = Some sub ∧
            during_retries requests w w1 ∧
            fst (_execute_single_stat_download sub w1) = Ok outcome ∧
            outcomes !! pos = Some outcome ∧
            PyDict.get retried index = Some outcome
  | (Raise e, w') =>
      (∃ spec, spec ∈ PyDict.values time_intervals ∧
               interval_request request spec = Raise e) ∨
      (∃ spec sub w1, spec ∈ PyDict.values time_intervals ∧
                      interval_request request spec = Ok sub ∧
                      retries_interval request spec sub ∧
                      during_retries (tasks_at_all request time_intervals) w w1 ∧
                      fst (_execute_single_stat_download sub w1) = Raise e)
  end.
Proof.
  intros Hnodup. unfold _download_per_interval, bind, lift, ret.
  destruct (interval_requests request (PyDict.values time_intervals))
    as [requests|e] eqn:Hbuild.
  - pose proof (interval_requests_Ok _ _ _ Hbuild) as Hsubs.
    pose proof (Forall2_length _ _ _ Hsubs) as Hlen_subs.
    unfold PyDict.values in Hlen_subs. rewrite length_fmap in Hlen_subs.
    destruct (executor_map _execute_single_stat_download requests w)
      as [[outcomes|e] w'] eqn:Hrun;
      destruct (executor_map_run _ _ _ _ _ Hrun) as (trace & Htrace & Hrange & _ & Hresult).
    + destruct Hresult as [Hlen Hpos].
      assert (Hkeys : (zip (PyDict.keys time_intervals) outcomes).*1
                      = PyDict.keys time_intervals).
      { apply fst_zip. unfold PyDict.keys. rewrite length_fmap. lia. }
      rewrite pydict_of_pairs_NoDup by (by rewrite Hkeys).
      split; [done|].
      exists requests, outcomes. split; [done|]. split; [done|].
      split; [done|]. split; [lia|].
      intros index spec Hget.
      destruct (pydict_get_Some_lookup _ _ _ Hget) as [pos Hat].
      assert (Hspec : PyDict.values time_intervals !! pos = Some spec).
      { unfold PyDict.values. rewrite list_lookup_fmap, Hat. done. }
      destruct (Forall2_lookup_l _ _ _ _ _ Hsubs Hspec) as (sub & Hsub & Hbuilt).
      destruct (Hpos pos sub Hsub) as (k & outcome & Hk & Hout & Hexec).
      exists pos, sub, outcome,
        (after_tasks _execute_single_stat_download requests (take k trace) w).
      split; [done|]. split; [done|]. split; [by apply interval_request_retries|].
      split; [done|]. split; [by apply after_tasks_during|]. split; [done|].
      split; [done|].
      apply (pydict_lookup_get _ pos).
      * unfold PyDict.keys in *. by rewrite Hkeys.
      * apply lookup_zip_with_Some. exists index, outcome. repeat split; [|done].
        unfold PyDict.keys. by rewrite list_lookup_fmap, Hat.
    + right. destruct Hresult as (k & pos & sub & Hk & Hsub & Hexec).
      destruct (Forall2_lookup_r _ _ _ _ _ Hsubs Hsub) as (spec & Hspec & Hbuilt).
      exists spec, sub,
        (after_tasks _execute_single_stat_download requests (take k trace) w).
      split; [by eapply list_elem_of_lookup_2|]. split; [done|].
      split; [by apply interval_request_retries|]. split; [|done].
      unfold tasks_at_all. rewrite Hbuild. by apply after_tasks_during.
  - left. by apply interval_requests_Raise.
Qed.

End PerInterval.

(** ** Running the client *)

Section Running.
Context {formats : Formats} {collaborators : Collaborators}.
Implicit Types (self : SentinelHubStatDownloadClient) (request : DownloadRequest) (w : World).

Lemma run_bind {A B} (m : M A) (k : A → M B) w :
  bind m k w = match m w with
               | (Ok a, w') => k a w'
               | (Raise e, w') => (Raise e, w')
               end.
Proof. reflexivity. Qed.

Lemma disk_free_ret {A} (a : A) : disk_free (ret a).
Proof. by intros w. Qed.

Lemma disk_free_raise {A} (e : exn) : disk_free (raise (A:=A) e).
Proof. by intros w. Qed.

Lemma disk_free_lift {A} (r : Result A) : disk_free (lift r).
Proof. by intros w. Qed.

Lemma disk_free_bind {A B} (m : M A) (k : A → M B) :
  disk_free m → (∀ a, disk_free (k a)) → disk_free (bind m k).
Proof.
  intros Hm Hk w. rewrite run_bind. specialize (Hm w).
  destruct (m w) as [[a|e] w1]; simpl in Hm.
  - destruct (Hk a w1) as [Hfiles Hdisk]. destruct Hm as [<- <-]. done.
  - done.
Qed.

Lemma disk_free_execute_download request : disk_free (_execute_download request).
Proof. by intros w. Qed.

Lemma disk_free_retry_loop (retry_num : Z) request (counts : list Z) :
  disk_free (retry_loop retry_num request counts).
Proof.
  induction counts as [|retry_count rest IH]; simpl.
  - apply disk_free_ret.
  - repeat (apply disk_free_bind; [first [apply disk_free_execute_download|apply disk_free_lift]|intros ?]).
    destruct (_ || _); [apply disk_free_ret|apply IH].
Qed.

Lemma disk_free_execute_single request : disk_free (_execute_single_stat_download request).
Proof.
  unfold _execute_single_stat_download, execute_with_retries.
  apply disk_free_bind; [apply disk_free_retry_loop|].
  intros [stat_info|]; [apply disk_free_ret|apply disk_free_raise].
Qed.

Lemma disk_free_executor_map {A B} (f : A → M B) (xs : list A) :
  (∀ x, disk_free (f x)) → disk_free (executor_map f xs).
Proof.
  intros Hf w. destruct (executor_map f xs w) as [r w'] eqn:Hrun.
  destruct (executor_map_run _ _ _ _ _ Hrun) as (trace & _ & _ & -> & _). simpl.
  clear Hrun. revert w. induction trace as [|i trace IH]; intros w; simpl; [done|].
  destruct (xs !! i) as [x|]; [|apply IH].
  destruct (IH (snd (f x w))) as [-> ->]. apply Hf.
Qed.

Lemma disk_free_download_per_interval request (time_intervals : PyDict.t json) :
  disk_free (_download_per_interval request time_intervals).
Proof.
  unfold _download_per_interval.
  apply disk_free_bind; [apply disk_free_lift|intros requests].
  apply disk_free_bind; [|intros outcomes; apply disk_free_ret].
  apply disk_free_executor_map, disk_free_execute_single.
Qed.

Lemma disk_free_write_free {A} (m : M A) : disk_free m → write_free m.
Proof. intros Hm w. destruct (Hm w) as [-> ->]. done. Qed.

Lemma write_free_bind {A B} (m : M A) (k : A → M B) :
  write_free m → (∀ a, write_free (k a)) → write_free (bind m k).
Proof.
  intros Hm Hk w. rewrite run_bind. specialize (Hm w).
  destruct (m w) as [[a|e] w1]; simpl in Hm.
  - destruct (Hk a w1) as [Hfiles Hlog]. destruct Hm as [<- <-]. done.
  - done.
Qed.

Lemma write_free_path_exists (p : string) : write_free (path_exists p).
Proof. by intros w. Qed.

Lemma write_free_read_data (path : option string) (data_format : MimeType) :
  write_free (read_data path data_format).
Proof. destruct path; by intros w. Qed.

Lemma write_free_is_download_required self (response_path : option string) :
  write_free (is_download_required self response_path).
Proof.
  unfold is_download_required.
  destruct (redownload self); [by apply disk_free_write_free, disk_free_ret|].
  destruct response_path as [p|]; [|by apply disk_free_write_free, disk_free_ret].
  apply write_free_bind; [apply write_free_path_exists|intros present].
  apply disk_free_write_free, disk_free_ret.
Qed.

Lemma write_free_download_and_retry self request :
  write_free (download_and_retry self request).
Proof.
  unfold download_and_retry. cbn zeta.
  apply write_free_bind; [apply write_free_is_download_required|intros required].
  apply write_free_bind.
  { destruct required; [|apply write_free_read_data].
    apply disk_free_write_free, disk_free_bind;
      [apply disk_free_execute_download|intros ?; apply disk_free_lift]. }
  intros response.
  apply write_free_bind; [apply disk_free_write_free, disk_free_lift|intros entries].
  apply write_free_bind; [apply disk_free_write_free, disk_free_lift|intros failed].
  destruct (PyDict.truthy failed); [|apply disk_free_write_free, disk_free_ret].
  apply disk_free_write_free.
  apply disk_free_bind; [apply disk_free_download_per_interval|intros retried].
  repeat (apply disk_free_bind; [apply disk_free_lift|intros ?]).
  apply disk_free_ret.
Qed.

Lemma writes_at_log (path : string) (ops ops' : list disk_op) :
  write_log ops' = write_log ops → writes_at path ops' = writes_at path ops.
Proof. unfold writes_at. by intros ->. Qed.

Lemma write_data_run (p : string) (data : json) (data_format : MimeType) w :
  write_data (Some p) data data_format w =
  match write_format data_format data with
  | Ok content => if writable p then (Ok tt, store p content w) else (Raise IOError, w)
  | Raise e => (Raise e, w)
  end.
Proof.
  unfold write_data. rewrite run_bind. unfold lift.
  destruct (write_format data_format data); [|done]. by destruct (writable p).
Qed.

Lemma save_stats_response_run request (locals : Locals) w :
  save_stats_response request locals w =
  if save_response request
     && (download_required locals || (0 <? n_succeeded_intervals locals))
  then write_data (snd (get_storage_paths request)) (stats_response locals)
         (data_type request) w
  else (Ok tt, w).
Proof. unfold save_stats_response. by destruct (_ && _). Qed.

(** What the write of the request parameters leaves in place: the record
    of network requests, and every file other than the one at the request
    path; without [redownload], every file that is there. *)
Lemma save_request_info_frame self request w :
  fetched (snd (save_request_info self request w)) = fetched w ∧
  ∀ q, (fst (get_storage_paths request) ≠ Some q ∨
        (redownload self = false ∧ files w !! q ≠ None)) →
       files (snd (save_request_info self request w)) !! q = files w !! q ∧
       writes_at q (disk (snd (save_request_info self request w))) = writes_at q (disk w).
Proof.
  assert (Hstore : ∀ rp content w0,
            files w0 = files w → fetched w0 = fetched w →
            write_log (disk w0) = write_log (disk w) →
            (redownload self = false → files w !! rp = None) →
            fetched (store rp content w0) = fetched w ∧
            ∀ q, (Some rp ≠ Some q ∨ (redownload self = false ∧ files w !! q ≠ None)) →
                 files (store rp content w0) !! q = files w !! q ∧
                 writes_at q (disk (store rp content w0)) = writes_at q (disk w)).
  { intros rp content w0 Hfiles Hfetched Hlog Hmissing. simpl. split; [done|].
    intros q Hq.
    assert (rp ≠ q) by (destruct Hq as [Hq|[Hre Hq]]; [|specialize (Hmissing Hre)]; congruence).
    rewrite lookup_insert_ne, Hfiles by done. split; [done|].
    unfold writes_at. simpl. by rewrite (proj2 (String.eqb_neq rp q)), Hlog. }
  assert (Hsame : fetched w = fetched w ∧
            ∀ q, (fst (get_storage_paths request) ≠ Some q ∨
                  (redownload self = false ∧ files w !! q ≠ None)) →
                 files w !! q = files w !! q ∧
                 writes_at q (disk w) = writes_at q (disk w)) by done.
  destruct (save_request_info self request w) as [r w'] eqn:Hrun. cbn [snd].
  revert Hrun. unfold save_request_info. cbn zeta. rewrite run_bind.
  destruct (fst (get_storage_paths request)) as [rp|] eqn:Hrp; cbn [path_truthy andb];
    [|by intros [= <- <-]].
  destruct (negb (String.eqb rp EmptyString) && save_response request); [|by intros [= <- <-]].
  destruct (redownload self) eqn:Hre.
  - unfold ret at 1. rewrite write_data_run.
    destruct (write_format JSON (get_request_params request true)) as [content|e];
      [|by intros [= <- <-]].
    destruct (writable rp); intros [= <- <-]; [|done]. by apply Hstore.
  - rewrite run_bind. unfold path_exists at 1, ret at 1.
    destruct (files w !! rp) as [present|] eqn:Hpresent; cbn [negb];
      [by intros [= <- <-]|].
    rewrite write_data_run.
    destruct (write_format JSON (get_request_params request true)) as [content|e];
      [|by intros [= <- <-]].
    destruct (writable rp); intros [= <- <-]; [|done]. by apply Hstore.
Qed.

Lemma save_request_info_Ok self request w w' :
  redownload self = false →
  save_request_info self request w = (Ok tt, w') →
  request_info_saved request w'.
Proof.
  intros Hre. unfold save_request_info, request_info_saved. cbn zeta.
  destruct (fst (get_storage_paths request)) as [rp|] eqn:Hrp; [|done].
  intros Hrun ? [= <-] Hasked. revert Hrun. rewrite Hasked, Hre.
  rewrite !run_bind. unfold path_exists at 1, ret at 1.
  destruct (files w !! rp) as [present|] eqn:Hpresent; cbn [negb].
  - intros [= <-]. simpl. congruence.
  - rewrite write_data_run.
    destruct (write_format JSON (get_request_params request true)) as [content|e]; [|done].
    destruct (writable rp); [|done]. intros [= <-]. simpl.
    rewrite lookup_insert_eq. done.
Qed.

Lemma save_request_info_saved self request w :
  redownload self = false →
  request_info_saved request w →
  ∃ w', save_request_info self request w = (Ok tt, w') ∧
        files w' = files w ∧ fetched w' = fetched w ∧
        write_log (disk w') = write_log (disk w).
Proof.
  intros Hre Hsaved. unfold save_request_info. cbn zeta.
  destruct (fst (get_storage_paths request)) as [rp|] eqn:Hrp.
  2: { simpl. rewrite run_bind. unfold ret. eauto. }
  destruct (path_truthy (Some rp) && save_response request) eqn:Hasked.
  - rewrite Hre, !run_bind. unfold path_exists at 1, ret at 1.
    specialize (Hsaved rp Hrp Hasked).
    destruct (files w !! rp); [|done]. cbn [negb]. unfold ret. eauto.
  - rewrite run_bind. unfold ret. eauto.
Qed.

Lemma find_failed_clean (entries : list json) (index : nat) (failed : PyDict.t json) :
  Forall (fun stat_info => _has_retriable_error stat_info = Ok false) entries →
  find_failed index entries failed = Ok failed.
Proof.
  intros Hclean. revert index. induction Hclean as [|stat_info entries Hfirst _ IH]; intros index.
  - done.
  - simpl. rewrite Hfirst. simpl. apply IH.
Qed.

Lemma find_failed_none_retriable (entries : list json) (index : nat) (failed : PyDict.t json) :
  Forall (fun stat_info => _has_retriable_error stat_info ≠ Ok true) entries →
  find_failed index entries failed = Ok failed ∨
  ∃ e, find_failed index entries failed = Raise e.
Proof.
  intros Hclean. revert index. induction Hclean as [|stat_info entries Hfirst _ IH]; intros index.
  - by left.
  - simpl. destruct (_has_retriable_error stat_info) as [[]|e]; simpl; [done|apply IH|eauto].
Qed.

(** [download_required = self.redownload or response_path is None
                         or not os.path.exists(response_path)] *)
Lemma is_download_required_value self (response_path : option string) w :
  fst (is_download_required self response_path w) =
  Ok (redownload self
      || match response_path with
         | None => true
         | Some p => match files w !! p with Some _ => false | None => true end
         end).
Proof.
  unfold is_download_required. destruct (redownload self); [done|].
  destruct response_path as [p|]; [|done].
  rewrite run_bind. unfold path_exists, ret. simpl. by destruct (files w !! p).
Qed.

Ltac run_cached Hre Hpath Hfile Hread Hentries Hfailed :=
  unfold download_and_retry; rewrite Hpath; cbn zeta;
  rewrite run_bind; unfold is_download_required; rewrite Hre;
  rewrite run_bind; unfold path_exists at 1; rewrite Hfile; unfold ret at 1; cbn [negb];
  rewrite run_bind; unfold read_data; cbn [files record_disk]; rewrite Hfile, Hread;
  rewrite run_bind; unfold lift at 1; rewrite Hentries;
  rewrite run_bind; unfold lift at 1; rewrite Hfailed; reflexivity.

(** A cached response in which no interval failed is handed on as it is,
    after one look-up and one read. *)
Lemma download_and_retry_cached_clean self request w
    (p : string) (content : bytes) (response : json) (entries : list json) :
  redownload self = false →
  snd (get_storage_paths request) = Some p →
  files w !! p = Some content →
  read_format (data_type request) content = Ok response →
  (let? data := PyJson.getitem response "data" in PyJson.iter key_order data) = Ok entries →
  find_failed 0 entries PyDict.empty = Ok [] →
  download_and_retry self request w =
  (Ok {| download_required := false;
         failed_time_intervals := [];
         retried_responses := PyDict.empty;
         n_succeeded_intervals := 0;
         stats_response := response |},
   after_cache_read p w).
Proof.
  intros Hre Hpath Hfile Hread Hentries Hfailed.
  run_cached Hre Hpath Hfile Hread Hentries Hfailed.
Qed.

Lemma download_and_retry_cached_raise self request w
    (p : string) (content : bytes) (response : json) (entries : list json) (e : exn) :
  redownload self = false →
  snd (get_storage_paths request) = Some p →
  files w !! p = Some content →
  read_format (data_type request) content = Ok response →
  (let? data := PyJson.getitem response "data" in PyJson.iter key_order data) = Ok entries →
  find_failed 0 entries PyDict.empty = Raise e →
  download_and_retry self request w = (Raise e, after_cache_read p w).
Proof.
  intros Hre Hpath Hfile Hread Hentries Hfailed.
  run_cached Hre Hpath Hfile Hread Hentries Hfailed.
Qed.

(** C7. Without [redownload], with a response path and a file at that
    path, [download_required] is false; if the cached response has no
    retriable entry, the call sends no request and does not write the
    response file, whose content stays as it was. *)
Theorem cached_clean_response_untouched self request (flag : bool) w
    (p : string) (content : bytes) (response : json) (entries : list json) :
  redownload self = false →
  snd (get_storage_paths request) = Some p →
  files w !! p = Some content →
  read_format (data_type request) content = Ok response →
  (let? data := PyJson.getitem response "data" in PyJson.iter key_order data) = Ok entries →
  Forall (fun stat_info => _has_retriable_error stat_info ≠ Ok true) entries →
  fst (is_download_required self (Some p) w) = Ok false ∧
  fetched (snd (_single_download self request flag w)) = fetched w ∧
  writes_at p (disk (snd (_single_download self request flag w))) = writes_at p (disk w) ∧
  files (snd (_single_download self request flag w)) !! p = Some content.
Proof.
  intros Hre Hpath Hfile Hread Hentries Hclean.
  split.
  { rewrite is_download_required_value, Hre, Hfile. done. }
  destruct (_single_download self request flag w) as [r w'] eqn:Hrun. cbn [snd].
  revert Hrun. unfold _single_download. rewrite run_bind. unfold lift at 1.
  destruct (raise_if_invalid request) as [[]|e]; [|by intros [= <- <-]].
  destruct (negb (save_response request || return_data request)); [by intros [= <- <-]|].
  rewrite run_bind.
  destruct (find_failed_none_retriable entries 0 PyDict.empty Hclean) as [Hnone|[e Hraise]].
  - rewrite (download_and_retry_cached_clean _ _ _ _ _ _ _ Hre Hpath Hfile Hread Hentries Hnone).
    rewrite run_bind.
    destruct (save_request_info_frame self request (after_cache_read p w)) as [Hfetched Hframe].
    destruct (Hframe p) as [Hkept Hlog].
    { right. split; [done|]. simpl. congruence. }
    destruct (save_request_info self request (after_cache_read p w)) as [[[]|e] wa];
      cbn [snd] in *.
    + rewrite run_bind, save_stats_response_run. cbn [download_required n_succeeded_intervals].
      rewrite andb_false_r. unfold ret. intros [= <- <-].
      rewrite Hfetched, Hlog, Hkept. done.
    + intros [= <- <-]. rewrite Hfetched, Hlog, Hkept. done.
  - rewrite (download_and_retry_cached_raise _ _ _ _ _ _ _ _ Hre Hpath Hfile Hread Hentries Hraise).
    by intros [= <- <-].
Qed.

(** C8. Without [redownload], on a stored response without retriable
    entries, a call that has returned can be repeated: the second call
    returns the same value, which is the stored response when data is
    asked for, and it writes no file and sends no request; the first call
    sends no request either. *)
Theorem second_call_repeats_first self request (flag : bool) w
    (p : string) (content : bytes) (response : json) (entries : list json)
    (first : option json) (w1 : World) :
  redownload self = false →
  snd (get_storage_paths request) = Some p →
  files w !! p = Some content →
  read_format (data_type request) content = Ok response →
  (let? data := PyJson.getitem response "data" in PyJson.iter key_order data) = Ok entries →
  Forall (fun stat_info => _has_retriable_error stat_info = Ok false) entries →
  _single_download self request flag w = (Ok first, w1) →
  first = (if return_data request then Some response else None) ∧
  fetched w1 = fetched w ∧
  ∃ w2, _single_download self request flag w1 = (Ok first, w2) ∧
        files w2 = files w1 ∧
        write_log (disk w2) = write_log (disk w1) ∧
        fetched w2 = fetched w1.
Proof.
  intros Hre Hpath Hfile Hread Hentries Hclean Hfirst.
  pose proof (find_failed_clean entries 0 PyDict.empty Hclean) as Hnone.
  revert Hfirst. unfold _single_download. rewrite (run_bind _ _ w), (run_bind _ _ w1).
  unfold lift. destruct (raise_if_invalid request) as [[]|e]; [|done].
  destruct (negb (save_response request || return_data request)) eqn:Hflags.
  { unfold ret. intros [= <- <-].
    apply negb_true_iff, orb_false_iff in Hflags as [_ ->].
    split; [done|]. split; [done|]. by exists w. }
  rewrite (run_bind _ _ w).
  rewrite (download_and_retry_cached_clean _ _ _ _ _ _ _ Hre Hpath Hfile Hread Hentries Hnone).
  rewrite (run_bind _ _ (after_cache_read p w)).
  destruct (save_request_info_frame self request (after_cache_read p w)) as [Hfetched Hframe].
  destruct (Hframe p) as [Hkept _].
  { right. split; [done|]. simpl. congruence. }
  destruct (save_request_info self request (after_cache_read p w)) as [[[]|e] wa] eqn:Hsave;
    cbn [snd] in *; [|done].
  rewrite (run_bind _ _ wa), save_stats_response_run.
  cbn [download_required n_succeeded_intervals].
  rewrite andb_false_r. unfold ret at 1. intros [= <- <-].
  split; [done|]. split; [done|].
  assert (Hfile1 : files wa !! p = Some content) by (by rewrite Hkept).
  rewrite run_bind.
  rewrite (download_and_retry_cached_clean _ _ _ _ _ _ _ Hre Hpath Hfile1 Hread Hentries Hnone).
  rewrite run_bind.
  destruct (save_request_info_saved self request (after_cache_read p wa) Hre)
    as (w2 & Hsave2 & Hfiles2 & Hfetched2 & Hlog2).
  { intros rp Hrp Hasked. simpl. by eapply (save_request_info_Ok self request). }
  rewrite Hsave2, run_bind, save_stats_response_run.
  cbn [download_required n_succeeded_intervals]. rewrite andb_false_r. unfold ret.
  exists w2. by rewrite Hfiles2, Hfetched2, Hlog2.
Qed.

(** *** The retried outcomes and the count of successes *)














End Running.

(** ** More of the Stat client *)

Section ScanMore.
Implicit Types (failed : PyDict.t json) (entries : list json).

Lemma has_retriable_error_raises (stat_info : json) (e : exn) :
  _has_retriable_error stat_info = Raise e → e = AttributeError.
Proof.
  unfold _has_retriable_error.
  destruct stat_info as [ | | | | |fields]; simpl; try (by intros [= <-]).
  destruct (fields !! "error") as [[ | | | | |error]|]; simpl; try (by intros [= <-]).
  all: discriminate.
Qed.



Lemma find_failed_Raise entries (index : nat) failed (e : exn) :
  find_failed index entries failed = Raise e ↔
  ∃ k stat_info,
    entries !! k = Some stat_info ∧
    (∀ j earlier, j < k → entries !! j = Some earlier → scannable earlier) ∧
    scan_raises stat_info e.
Proof.
  revert index failed. induction entries as [|stat_info entries IH]; intros index failed; simpl.
  - split; [done|]. intros (k & s & Hk & _). by rewrite lookup_nil in Hk.
  - destruct (_has_retriable_error stat_info) as [[]|e0] eqn:Hclass; simpl.
    + destruct (PyJson.getitem stat_info "interval") as [iv|e0] eqn:Hiv; simpl.
      * rewrite IH. split.
        -- intros (k & s & Hk & Hbefore & Hraise). exists (S k), s. split; [done|]. split; [|done].
           intros [|j] earlier Hj Hearlier; simpl in Hearlier.
           ++ injection Hearlier as <-. right. eauto.
           ++ apply (Hbefore j); [lia|done].
        -- intros ([|k] & s & Hk & Hbefore & Hraise); simpl in Hk.
           ++ injection Hk as <-. destruct Hraise as [?|[_ ?]]; congruence.
           ++ exists k, s. split; [done|]. split; [|done].
              intros j earlier Hj Hearlier. apply (Hbefore (S j)); [lia|done].
      * split.
        -- intros [= <-]. exists 0, stat_info. split; [done|]. split; [intros; lia|].
           by right.
        -- intros ([|k] & s & Hk & Hbefore & Hraise); simpl in Hk.
           ++ injection Hk as <-. destruct Hraise as [?|[_ ?]]; congruence.
           ++ destruct (Hbefore 0 stat_info) as [?|[_ [iv ?]]]; [lia|done|congruence|congruence].
    + rewrite IH. split.
      * intros (k & s & Hk & Hbefore & Hraise). exists (S k), s. split; [done|]. split; [|done].
        intros [|j] earlier Hj Hearlier; simpl in Hearlier.
        -- injection Hearlier as <-. by left.
        -- apply (Hbefore j); [lia|done].
      * intros ([|k] & s & Hk & Hbefore & Hraise); simpl in Hk.
        -- injection Hk as <-. destruct Hraise as [?|[? _]]; congruence.
        -- exists k, s. split; [done|]. split; [|done].
           intros j earlier Hj Hearlier. apply (Hbefore (S j)); [lia|done].
    + split.
      * intros [= <-]. exists 0, stat_info. split; [done|]. split; [intros; lia|]. by left.
      * intros ([|k] & s & Hk & Hbefore & Hraise); simpl in Hk.
        -- injection Hk as <-. destruct Hraise as [?|[? _]]; congruence.
        -- destruct (Hbefore 0 stat_info) as [?|[? _]]; [lia|done|congruence|congruence].
Qed.

(** X2. The scan raises exactly when some entry cannot be handled: the
    first entry that cannot be classified ([AttributeError]: not a dict, or
    an ['error'] that is not a dict) or that is retriable but has no
    ['interval'] ([KeyError]) decides the exception; the scan raises
    nothing else. *)
Theorem find_failed_first_error entries (e : exn) :
  (find_failed 0 entries PyDict.empty = Raise e ↔
   ∃ k stat_info,
     entries !! k = Some stat_info ∧
     (∀ j earlier, j < k → entries !! j = Some earlier → scannable earlier) ∧
     scan_raises stat_info e) ∧
  (find_failed 0 entries PyDict.empty = Raise e → e = AttributeError ∨ e = KeyError).
Proof.
  split; [apply find_failed_Raise|].
  intros Hraise. apply find_failed_Raise in Hraise as (k & stat_info & _ & _ & Hwhy).
  destruct Hwhy as [Hclass|[Hclass Hinterval]].
  - left. by eapply has_retriable_error_raises.
  - right. destruct (has_retriable_error_obj _ _ Hclass) as [fields ->].
    simpl in Hinterval. by destruct (fields !! "interval"); simplify_eq.
Qed.

End ScanMore.

Section ClientMore.
Context {formats : Formats} {collaborators : Collaborators}.
Implicit Types (self : SentinelHubStatDownloadClient) (request sub : DownloadRequest) (w : World).

(** *** One request per failed interval *)



(** *** The sub-request of an interval *)

(** X4. The sub-request of an interval is the request with
    [post_values['aggregation']['timeRange']] set to the interval: reading
    that field back gives the interval, every other field of the payload
    and of its aggregation reads as in the request, and the other
    attributes are those of the request.  It cannot be built when the
    payload is not a dict ([TypeError]), has no ['aggregation'] ([KeyError])
    or has an ['aggregation'] that is not a dict ([TypeError]). *)
Theorem interval_request_sets_time_range request (time_interval : json) :
  match interval_request request time_interval with
  | Ok sub =>
      url sub = url request ∧ data_type sub = data_type request ∧
      save_response sub = save_response request ∧ return_data sub = return_data request ∧
      (let? aggregation := PyJson.getitem (post_values sub) "aggregation" in
       PyJson.getitem aggregation "timeRange") = Ok time_interval ∧
      (∀ key, key ≠ "aggregation" →
         PyJson.getitem (post_values sub) key = PyJson.getitem (post_values request) key) ∧
      (∀ key, key ≠ "timeRange" →
         (let? aggregation := PyJson.getitem (post_values sub) "aggregation" in
          PyJson.getitem aggregation key)
         = (let? aggregation := PyJson.getitem (post_values request) "aggregation" in
            PyJson.getitem aggregation key))
  | Raise e =>
      (e = TypeError ∧ ∀ payload, post_values request ≠ JObj payload) ∨
      (∃ payload, post_values request = JObj payload ∧
         ((e = KeyError ∧ payload !! "aggregation" = None) ∨
          (e = TypeError ∧ ∃ aggregation, payload !! "aggregation" = Some aggregation ∧
                                           ∀ fields, aggregation ≠ JObj fields)))
  end.
Proof.
  unfold interval_request.
  destruct (post_values request) as [ | | | | |payload] eqn:Hpayload; simpl;
    try (left; split; [done|]; intros ?; discriminate).
  destruct (payload !! "aggregation") as [aggregation|] eqn:Hagg; simpl.
  2: { right. exists payload. split; [done|]. by left. }
  destruct aggregation as [ | | | | |aggregation]; simpl;
    try (right; exists payload; split; [done|]; right; split; [done|];
         eexists; split; [done|]; intros ?; discriminate).
  repeat split.
  - by rewrite lookup_insert_eq; simpl; rewrite lookup_insert_eq.
  - intros key Hkey. by rewrite lookup_insert_ne.
  - intros key Hkey. rewrite lookup_insert_eq. simpl. by rewrite lookup_insert_ne.
Qed.

(** *** What is written, and when *)

Lemma single_download_Ok_valid self request (flag : bool) w (result : option json) w2 :
  _single_download self request flag w = (Ok result, w2) → raise_if_invalid request = Ok tt.
Proof.
  unfold _single_download. rewrite run_bind. unfold lift at 1.
  by destruct (raise_if_invalid request) as [[]|e].
Qed.

Lemma single_download_run self request (flag : bool) w :
  raise_if_invalid request = Ok tt →
  save_response request || return_data request = true →
  _single_download self request flag w =
  match download_and_retry self request w with
  | (Ok locals, w1) =>
      match save_request_info self request w1 with
      | (Ok _, wa) =>
          match save_stats_response request locals wa with
          | (Ok _, wb) =>
              (Ok (if return_data request then Some (stats_response locals) else None), wb)
          | (Raise e, wb) => (Raise e, wb)
          end
      | (Raise e, wa) => (Raise e, wa)
      end
  | (Raise e, w1) => (Raise e, w1)
  end.
Proof.
  intros Hvalid Hpurpose. unfold _single_download. rewrite run_bind. unfold lift at 1.
  rewrite Hvalid, Hpurpose. cbn [negb]. rewrite run_bind.
  destruct (download_and_retry self request w) as [[locals|e] w1]; [|done].
  rewrite run_bind.
  destruct (save_request_info self request w1) as [[[]|e] wa]; [|done].
  rewrite run_bind.
  by destruct (save_stats_response request locals wa) as [[[]|e] wb].
Qed.

Lemma save_request_info_run self request w :
  save_request_info self request w =
  match fst (get_storage_paths request) with
  | Some rp =>
      if negb (String.eqb rp EmptyString) && save_response request then
        if redownload self then
          write_data (Some rp) (get_request_params request true) JSON w
        else
          match files w !! rp with
          | Some _ => (Ok tt, record_disk (DiskExists rp) w)
          | None => write_data (Some rp) (get_request_params request true) JSON
                      (record_disk (DiskExists rp) w)
          end
      else (Ok tt, w)
  | None => (Ok tt, w)
  end.
Proof.
  unfold save_request_info. cbn zeta. rewrite run_bind.
  destruct (fst (get_storage_paths request)) as [rp|]; cbn [path_truthy andb]; [|done].
  destruct (negb (String.eqb rp EmptyString) && save_response request); [|done].
  destruct (redownload self); [done|].
  rewrite run_bind. unfold path_exists at 1, ret at 1.
  by destruct (files w !! rp).
Qed.

Lemma store_same (p : string) (content : bytes) w :
  files (store p content w) !! p = Some content ∧
  writes_at p (disk (store p content w)) = S (writes_at p (disk w)).
Proof.
  split; [apply lookup_insert_eq|]. unfold writes_at. simpl. by rewrite String.eqb_refl.
Qed.

Lemma store_other (p q : string) (content : bytes) w :
  p ≠ q →
  files (store p content w) !! q = files w !! q ∧
  writes_at q (disk (store p content w)) = writes_at q (disk w).
Proof.
  intros Hne. split; [by apply lookup_insert_ne|].
  unfold writes_at. simpl. by rewrite (proj2 (String.eqb_neq p q)).
Qed.

(** What the write of the response does to another file: nothing. *)
Lemma save_stats_response_other request (locals : Locals) w (q : string) :
  snd (get_storage_paths request) ≠ Some q →
  files (snd (save_stats_response request locals w)) !! q = files w !! q ∧
  writes_at q (disk (snd (save_stats_response request locals w))) = writes_at q (disk w).
Proof.
  intros Hother. rewrite save_stats_response_run.
  destruct (save_response request && _); [|done].
  destruct (snd (get_storage_paths request)) as [p|]; [|done].
  rewrite write_data_run.
  destruct (write_format (data_type request) (stats_response locals)); [|done].
  destruct (writable p); [|done]. apply store_other. congruence.
Qed.

(** X5. For a call that returns, the file at the request path (when it is
    not also the response path) is written if and only if the path is not
    empty, [save_response] is set, and [redownload] is set or no file was
    there; what is written is the request parameters with metadata, in JSON.
    Otherwise the file is as before the call. *)
Theorem request_info_written_iff self request (flag : bool) w (result : option json) w2
    (rp : string) :
  fst (get_storage_paths request) = Some rp →
  snd (get_storage_paths request) ≠ Some rp →
  _single_download self request flag w = (Ok result, w2) →
  let asked := rp ≠ EmptyString ∧ save_response request = true ∧
               (redownload self = true ∨ files w !! rp = None) in
  (writes_at rp (disk w) < writes_at rp (disk w2) ↔ asked) ∧
  (asked → ∃ content,
     write_format JSON (get_request_params request true) = Ok content ∧
     files w2 !! rp = Some content) ∧
  (¬ asked → files w2 !! rp = files w !! rp).
Proof.
  intros Hrp Hother Hrun asked.
  pose proof (single_download_Ok_valid _ _ _ _ _ _ Hrun) as Hvalid.
  destruct (save_response request || return_data request) eqn:Hpurpose.
  2: { revert Hrun. unfold _single_download. rewrite run_bind. unfold lift at 1.
       rewrite Hvalid, Hpurpose. unfold ret. intros [= <- <-].
       apply orb_false_iff in Hpurpose as [Hsave _].
       assert (¬ asked) by (intros (_ & ? & _); congruence).
       repeat split; try done; lia. }
  rewrite (single_download_run _ _ _ _ Hvalid Hpurpose) in Hrun.
  destruct (download_and_retry self request w) as [[locals|e] w1] eqn:Hlocals; [|done].
  destruct (write_free_download_and_retry self request w) as [Hfiles1 Hlog1].
  rewrite Hlocals in Hfiles1, Hlog1. cbn [snd] in Hfiles1, Hlog1.
  destruct (save_request_info self request w1) as [[[]|e] wa] eqn:Hinfo; [|done].
  destruct (save_stats_response_other request locals wa rp Hother) as [Hkept Hcount].
  destruct (save_stats_response request locals wa) as [[[]|e] wb]; [|done].
  injection Hrun as _ <-. cbn [snd] in Hkept, Hcount. rewrite Hkept, Hcount.
  revert Hinfo. rewrite save_request_info_run, Hrp, Hfiles1.
  assert (Hempty : negb (String.eqb rp EmptyString) = true ↔ rp ≠ EmptyString).
  { rewrite negb_true_iff. apply String.eqb_neq. }
  assert (Hwritten : ∀ w0, files w0 = files w → write_log (disk w0) = write_log (disk w) →
            write_data (Some rp) (get_request_params request true) JSON w0 = (Ok tt, wa) →
            writes_at rp (disk w) < writes_at rp (disk wa) ∧
            ∃ content, write_format JSON (get_request_params request true) = Ok content ∧
                       files wa !! rp = Some content).
  { intros w0 Hf Hl. rewrite write_data_run.
    destruct (write_format JSON (get_request_params request true)) as [content|e]; [|done].
    destruct (writable rp); [|done]. intros [= <-].
    destruct (store_same rp content w0) as [Hin Hmore].
    rewrite Hmore, (writes_at_log rp _ _ Hl). split; [lia|]. by exists content. }
  assert (Hyes : asked → writes_at rp (disk w) < writes_at rp (disk wa) →
            (∃ content, write_format JSON (get_request_params request true) = Ok content ∧
                        files wa !! rp = Some content) →
            (writes_at rp (disk w) < writes_at rp (disk wa) ↔ asked) ∧
            (asked → ∃ content,
               write_format JSON (get_request_params request true) = Ok content ∧
               files wa !! rp = Some content) ∧
            (¬ asked → files wa !! rp = files w !! rp)).
  { intros Hasked Hmore Hcontent. split; [done|]. split; [done|]. by intros []. }
  assert (Hno : ¬ asked → writes_at rp (disk wa) = writes_at rp (disk w) →
            files wa !! rp = files w !! rp →
            (writes_at rp (disk w) < writes_at rp (disk wa) ↔ asked) ∧
            (asked → ∃ content,
               write_format JSON (get_request_params request true) = Ok content ∧
               files wa !! rp = Some content) ∧
            (¬ asked → files wa !! rp = files w !! rp)).
  { intros Hnot Hsame Hkeep. split; [split; [lia|done]|]. split; [done|done]. }
  destruct (negb (String.eqb rp EmptyString) && save_response request) eqn:Hcond.
  - apply andb_true_iff in Hcond as [Hnonempty Hsave]. apply Hempty in Hnonempty.
    destruct (redownload self) eqn:Hre.
    + intros Hw. destruct (Hwritten w1 Hfiles1 Hlog1 Hw) as [Hmore Hcontent].
      apply Hyes; [|done|done]. split; [done|split; [done|by left]].
    + destruct (files w !! rp) as [present|] eqn:Hpresent.
      * intros [= <-]. apply Hno.
        -- intros (_ & _ & [?|?]); congruence.
        -- unfold writes_at. simpl. by rewrite Hlog1.
        -- simpl. by rewrite Hfiles1.
      * intros Hw. destruct (Hwritten (record_disk (DiskExists rp) w1) Hfiles1 Hlog1 Hw)
          as [Hmore Hcontent].
        apply Hyes; [|done|done]. split; [done|split; [done|by right]].
  - intros [= <-]. apply Hno.
    + intros (Hnonempty & Hsave & _). apply Hempty in Hnonempty.
      rewrite Hnonempty, Hsave in Hcond. discriminate.
    + by rewrite (writes_at_log rp _ _ Hlog1).
    + by rewrite Hfiles1.
Qed.

End ClientMore.

Section ClientEffects.
Context {formats : Formats} {collaborators : Collaborators}.
Implicit Types (self : SentinelHubStatDownloadClient) (request : DownloadRequest) (w : World).


(** X7. Without [save_response] the client writes nothing: whatever the
    call does, returns or raises, the files and the record of writes are
    as before. *)
Theorem no_save_no_write self request (flag : bool) w :
  save_response request = false →
  files (snd (_single_download self request flag w)) = files w ∧
  write_log (disk (snd (_single_download self request flag w))) = write_log (disk w).
Proof.
  intros Hsave. revert w.
  change (write_free (_single_download self request flag)).
  unfold _single_download.
  apply write_free_bind; [apply disk_free_write_free, disk_free_lift|intros _].
  destruct (negb _); [apply disk_free_write_free, disk_free_ret|].
  apply write_free_bind; [apply write_free_download_and_retry|intros locals].
  apply write_free_bind.
  { intros w. rewrite save_request_info_run.
    destruct (fst (get_storage_paths request)) as [rp|]; [|done].
    by rewrite Hsave, andb_false_r. }
  intros _. apply write_free_bind; [|intros _; apply disk_free_write_free, disk_free_ret].
  intros w. by rewrite save_stats_response_run, Hsave.
Qed.

(** X8. The writes come last: when the download, the decoding, the scan or
    a retry raises, [_single_download] raises the same exception and no
    file has been written. *)
Theorem failure_before_writes self request (flag : bool) w (e : exn) w1 :
  raise_if_invalid request = Ok tt →
  save_response request || return_data request = true →
  download_and_retry self request w = (Raise e, w1) →
  _single_download self request flag w = (Raise e, w1) ∧
  files w1 = files w ∧
  write_log (disk w1) = write_log (disk w).
Proof.
  intros Hvalid Hpurpose Hraise.
  rewrite (single_download_run _ _ _ _ Hvalid Hpurpose), Hraise.
  destruct (write_free_download_and_retry self request w) as [Hfiles Hlog].
  rewrite Hraise in Hfiles, Hlog. done.
Qed.

(** *** With [redownload], the cache is not consulted *)

Lemma probe_free_disk_free {A} (m : M A) : disk_free m → probe_free m.
Proof. intros Hm w. by destruct (Hm w) as [_ ->]. Qed.

Lemma probe_free_bind {A B} (m : M A) (k : A → M B) :
  probe_free m → (∀ a, probe_free (k a)) → probe_free (bind m k).
Proof.
  intros Hm Hk w. rewrite run_bind. specialize (Hm w).
  destruct (m w) as [[a|e] w1]; simpl in Hm; [|done].
  by rewrite (Hk a w1).
Qed.

Lemma probe_free_write_data (path : option string) (data : json) (data_format : MimeType) :
  probe_free (write_data path data data_format).
Proof.
  destruct path as [p|]; [|by intros w]. intros w. rewrite write_data_run.
  destruct (write_format data_format data); [|done]. by destruct (writable p).
Qed.

(** X9. With [redownload] set the client never consults the disk: it does
    not look for the cached response or for the request file and it reads
    no file; its only disk operations are writes. *)
Theorem redownload_ignores_cache self request (flag : bool) w :
  redownload self = true →
  probes (disk (snd (_single_download self request flag w))) = probes (disk w).
Proof.
  intros Hre. revert w. change (probe_free (_single_download self request flag)).
  unfold _single_download.
  apply probe_free_bind; [apply probe_free_disk_free, disk_free_lift|intros _].
  destruct (negb _); [apply probe_free_disk_free, disk_free_ret|].
  apply probe_free_bind.
  { unfold download_and_retry, is_download_required. rewrite Hre. cbn zeta.
    apply probe_free_disk_free.
    intros w. rewrite run_bind. unfold ret at 1. cbn beta iota. revert w.
    apply disk_free_bind.
    { apply disk_free_bind; [apply disk_free_execute_download|intros ?; apply disk_free_lift]. }
    intros response.
    apply disk_free_bind; [apply disk_free_lift|intros entries].
    apply disk_free_bind; [apply disk_free_lift|intros failed].
    destruct (PyDict.truthy failed); [|apply disk_free_ret].
    apply disk_free_bind; [apply disk_free_download_per_interval|intros retried].
    repeat (apply disk_free_bind; [apply disk_free_lift|intros ?]).
    apply disk_free_ret. }
  intros locals. apply probe_free_bind.
  { intros w. rewrite save_request_info_run.
    destruct (fst (get_storage_paths request)) as [rp|]; [|done].
    rewrite Hre. destruct (_ && _); [|done]. apply probe_free_write_data. }
  intros _. apply probe_free_bind; [|intros _; apply probe_free_disk_free, disk_free_ret].
  unfold save_stats_response. destruct (_ && _); [apply probe_free_write_data|].
  apply probe_free_disk_free, disk_free_ret.
Qed.

End ClientEffects.

(** * Properties of the Batch API interface *)

(** ** Ordered dicts with string keys *)

Section KwDictFacts.
Implicit Types (d pairs : KwDict.t) (key k : string) (value v : json).

Lemma kwdict_get_None d key : KwDict.get d key = None ↔ key ∉ KwDict.keys d.
Proof.
  unfold KwDict.keys. induction d as [|[k v] d IH]; simpl.
  - split; [intros _; apply not_elem_of_nil|done].
  - rewrite not_elem_of_cons. destruct (String.eqb_spec k key) as [->|Hne].
    + split; [discriminate|intros [? _]; done].
    + rewrite IH. split; [intros ?; split; [congruence|done]|intros [_ ?]; done].
Qed.

Lemma kwdict_get_Some_elem d key value :
  KwDict.get d key = Some value → (key, value) ∈ d.
Proof.
  induction d as [|[k v] d IH]; simpl; [discriminate|].
  destruct (String.eqb_spec k key) as [->|Hne].
  - intros [= ->]. by left.
  - intros Hget. right. by apply IH.
Qed.

Lemma kwdict_elem_get d key value :
  NoDup (KwDict.keys d) → (key, value) ∈ d → KwDict.get d key = Some value.
Proof.
  unfold KwDict.keys. induction d as [|[k v] d IH]; simpl; intros Hnodup Hin.
  - by apply elem_of_nil in Hin.
  - apply NoDup_cons in Hnodup as [Hfresh Hnodup].
    apply elem_of_cons in Hin as [[= <- <-]|Hin]; [by rewrite String.eqb_refl|].
    destruct (String.eqb_spec k key) as [->|Hne]; [|by apply IH].
    exfalso. apply Hfresh. apply list_elem_of_fmap. by exists (key, value).
Qed.

Lemma kwdict_get_set d key value k :
  KwDict.get (KwDict.set d key value) k
  = if String.eqb key k then Some value else KwDict.get d k.
Proof.
  induction d as [|[k0 v0] d IH]; simpl; [done|].
  destruct (String.eqb_spec k0 key) as [->|Hne]; simpl.
  - by destruct (String.eqb_spec key k).
  - rewrite IH. destruct (String.eqb_spec k0 k) as [->|?]; [|done].
    by rewrite (proj2 (String.eqb_neq key k)).
Qed.

Lemma kwdict_keys_set_present d key value :
  key ∈ KwDict.keys d → KwDict.keys (KwDict.set d key value) = KwDict.keys d.
Proof.
  unfold KwDict.keys. induction d as [|[k0 v0] d IH]; simpl; intros Hin.
  - by apply elem_of_nil in Hin.
  - destruct (String.eqb_spec k0 key) as [->|Hne]; simpl; [done|].
    apply elem_of_cons in Hin as [->|Hin]; [done|]. f_equal. by apply IH.
Qed.

Lemma kwdict_set_fresh d key value :
  key ∉ KwDict.keys d → KwDict.set d key value = d ++ [(key, value)].
Proof.
  unfold KwDict.keys. induction d as [|[k v] d IH]; simpl; [done|].
  rewrite not_elem_of_cons. intros [Hne Hfresh].
  destruct (String.eqb_spec k key) as [->|_]; [done|]. by rewrite IH.
Qed.

Lemma kwdict_NoDup_set d key value :
  NoDup (KwDict.keys d) → NoDup (KwDict.keys (KwDict.set d key value)).
Proof.
  intros Hnodup. destruct (decide (key ∈ KwDict.keys d)) as [Hin|Hin].
  - by rewrite kwdict_keys_set_present.
  - rewrite kwdict_set_fresh by done. unfold KwDict.keys in *. rewrite fmap_app.
    apply NoDup_app. split; [done|]. split; [|apply NoDup_singleton].
    intros k Hk Hk'. apply list_elem_of_singleton in Hk' as ->. done.
Qed.

Lemma kwdict_fold_set pairs d :
  NoDup (KwDict.keys d) →
  NoDup (KwDict.keys (fold_left (fun d kv => KwDict.set d (fst kv) (snd kv)) pairs d)) ∧
  ∀ k, KwDict.get (fold_left (fun d kv => KwDict.set d (fst kv) (snd kv)) pairs d) k
       = match KwDict.get (rev pairs) k with
         | Some v => Some v
         | None => KwDict.get d k
         end.
Proof.
  revert d. induction pairs as [|[key value] pairs IH]; intros d Hnodup; simpl; [done|].
  destruct (IH (KwDict.set d key value) (kwdict_NoDup_set _ _ _ Hnodup)) as [Hnodup' Hget].
  split; [done|]. intros k. rewrite Hget, kwdict_get_set.
  assert (Happ : ∀ l, KwDict.get (l ++ [(key, value)]) k
                      = match KwDict.get l k with
                        | Some v => Some v
                        | None => if String.eqb key k then Some value else None
                        end).
  { induction l as [|[k0 v0] l IHl]; simpl; [done|]. by destruct (String.eqb k0 k). }
  rewrite Happ. by destruct (KwDict.get (rev pairs) k), (String.eqb key k).
Qed.

Lemma kwdict_of_pairs_NoDup_keys pairs : NoDup (KwDict.keys (KwDict.of_pairs pairs)).
Proof. apply kwdict_fold_set. apply NoDup_nil_2. Qed.

Lemma kwdict_get_of_pairs pairs k :
  KwDict.get (KwDict.of_pairs pairs) k = KwDict.get (rev pairs) k.
Proof.
  unfold KwDict.of_pairs. rewrite (proj2 (kwdict_fold_set pairs KwDict.empty (NoDup_nil_2))).
  by destruct (KwDict.get (rev pairs) k).
Qed.

Lemma kwdict_get_app (a b : KwDict.t) k :
  KwDict.get (a ++ b) k
  = match KwDict.get a k with Some v => Some v | None => KwDict.get b k end.
Proof. induction a as [|[k0 v0] a IH]; simpl; [done|]. by destruct (String.eqb k0 k). Qed.

Lemma kwdict_get_rev d k :
  NoDup (KwDict.keys d) → KwDict.get (rev d) k = KwDict.get d k.
Proof.
  unfold KwDict.keys. induction d as [|[k0 v0] d IH]; simpl; [done|].
  intros Hnodup. apply NoDup_cons in Hnodup as [Hfresh Hnodup].
  rewrite kwdict_get_app, IH by done. simpl.
  destruct (String.eqb_spec k0 k) as [->|Hne]; [|by destruct (KwDict.get d k)].
  apply kwdict_get_None in Hfresh. by rewrite Hfresh.
Qed.

Lemma kwdict_fold_set_fresh pairs d :
  NoDup (KwDict.keys d ++ KwDict.keys pairs) →
  fold_left (fun d kv => KwDict.set d (fst kv) (snd kv)) pairs d = d ++ pairs.
Proof.
  unfold KwDict.keys. revert d. induction pairs as [|[k v] pairs IH]; intros d Hnodup; simpl.
  - by rewrite app_nil_r.
  - simpl in Hnodup. rewrite kwdict_set_fresh.
    + rewrite IH.
      * by rewrite <- app_assoc.
      * rewrite fmap_app. simpl. by rewrite <- app_assoc.
    + apply NoDup_app in Hnodup as (_ & Hdisjoint & _).
      intros Hin. apply (Hdisjoint k Hin). by left.
Qed.

(** A dict display over items with distinct keys keeps the items as they
    come. *)
Lemma kwdict_of_pairs_id pairs : NoDup (KwDict.keys pairs) → KwDict.of_pairs pairs = pairs.
Proof. intros Hnodup. unfold KwDict.of_pairs, KwDict.empty. by rewrite kwdict_fold_set_fresh. Qed.

End KwDictFacts.

(** ** Building payloads *)

Section Payloads.
Implicit Types (payload kwargs : KwDict.t) (key : string).

Lemma keep_defined_sublist payload : sublist (keep_defined payload) payload.
Proof.
  induction payload as [|[k v] payload IH]; simpl; [done|].
  destruct (negb (PyValue.is_none v)); by constructor.
Qed.

Lemma keep_defined_NoDup payload :
  NoDup (KwDict.keys payload) → NoDup (KwDict.keys (keep_defined payload)).
Proof.
  unfold KwDict.keys. intros Hnodup.
  eapply sublist_NoDup; [exact Hnodup|apply fmap_sublist, keep_defined_sublist].
Qed.

Lemma keep_defined_get payload key :
  NoDup (KwDict.keys payload) →
  KwDict.get (keep_defined payload) key = defined (KwDict.get payload key).
Proof.
  unfold KwDict.keys. induction payload as [|[k v] payload IH]; simpl; [done|].
  intros Hnodup. apply NoDup_cons in Hnodup as [Hfresh Hnodup].
  destruct (String.eqb_spec k key) as [->|Hne].
  - destruct v; simpl; rewrite ?String.eqb_refl; try done.
    rewrite IH by done. apply kwdict_get_None in Hfresh. by rewrite Hfresh.
  - destruct (negb (PyValue.is_none v)); simpl; [|by apply IH].
    rewrite (proj2 (String.eqb_neq k key)) by done. by apply IH.
Qed.

Lemma remove_undefined_params_filter payload :
  NoDup (KwDict.keys payload) → _remove_undefined_params payload = keep_defined payload.
Proof.
  intros Hnodup. unfold _remove_undefined_params. fold (keep_defined payload).
  apply kwdict_of_pairs_id. by apply keep_defined_NoDup.
Qed.

Lemma remove_undefined_params_get payload key :
  NoDup (KwDict.keys payload) →
  KwDict.get (_remove_undefined_params payload) key = defined (KwDict.get payload key).
Proof.
  intros Hnodup. rewrite remove_undefined_params_filter by done. by apply keep_defined_get.
Qed.

Lemma remove_undefined_params_defined payload key value :
  NoDup (KwDict.keys payload) →
  (key, value) ∈ _remove_undefined_params payload → value ≠ JNull.
Proof.
  intros Hnodup. rewrite (remove_undefined_params_filter _ Hnodup).
  intros Hin ->. apply list_elem_of_In, filter_In in Hin as [_ Hkept]. discriminate.
Qed.

Lemma remove_undefined_params_NoDup payload :
  NoDup (KwDict.keys payload) → NoDup (KwDict.keys (_remove_undefined_params payload)).
Proof.
  intros Hnodup. rewrite (remove_undefined_params_filter _ Hnodup).
  by apply keep_defined_NoDup.
Qed.

(** X10. [_remove_undefined_params] removes the parameters that are [None]
    and nothing else: a look-up in the result gives what the payload has
    under that name unless that is [None]; no value of the result is
    [None]; the parameters that stay keep their order; and removing again
    changes nothing. *)
Theorem remove_undefined_params_spec payload :
  NoDup (KwDict.keys payload) →
  (∀ key, KwDict.get (_remove_undefined_params payload) key
          = defined (KwDict.get payload key)) ∧
  (∀ key value, (key, value) ∈ _remove_undefined_params payload → value ≠ JNull) ∧
  sublist (_remove_undefined_params payload) payload ∧
  NoDup (KwDict.keys (_remove_undefined_params payload)) ∧
  _remove_undefined_params (_remove_undefined_params payload)
    = _remove_undefined_params payload.
Proof.
  intros Hnodup. pose proof (keep_defined_NoDup _ Hnodup) as Hnodup'.
  split; [intros key; by apply remove_undefined_params_get|].
  split; [intros key value; by apply remove_undefined_params_defined|].
  rewrite (remove_undefined_params_filter _ Hnodup).
  rewrite (remove_undefined_params_filter _ Hnodup').
  split; [apply keep_defined_sublist|]. split; [done|].
  unfold keep_defined. induction payload as [|[k v] payload IH]; simpl; [done|].
  apply NoDup_cons in Hnodup as [_ Hnodup].
  destruct (negb (PyValue.is_none v)) eqn:Hv; simpl.
  - rewrite Hv. f_equal. apply IH; [done|]. by apply keep_defined_NoDup.
  - apply IH; [done|]. by apply keep_defined_NoDup.
Qed.

End Payloads.

(** ** Payload helpers of the class *)

Section BatchPayloads.
Implicit Types (kwargs : KwDict.t) (key : string).

Lemma kwdict_get_display (named kwargs : KwDict.t) key :
  NoDup (KwDict.keys named) → NoDup (KwDict.keys kwargs) →
  KwDict.get (KwDict.of_pairs (named ++ kwargs)) key
  = match KwDict.get kwargs key with
    | Some value => Some value
    | None => KwDict.get named key
    end.
Proof.
  intros Hnamed Hkwargs.
  by rewrite kwdict_get_of_pairs, rev_app_distr, kwdict_get_app, !kwdict_get_rev.
Qed.

(** X11. [output] gives each parameter under its API name, a keyword
    argument of the same name taking its place, and leaves out whatever is
    [None]: also a parameter that a keyword argument overrides with
    [None]. *)
Theorem output_lookup (default_tile_path cog_output cog_parameters create_collection
    collection_id responses : json) kwargs :
  NoDup (KwDict.keys kwargs) →
  let result := Batch.output default_tile_path cog_output cog_parameters create_collection
                  collection_id responses kwargs in
  (∀ key, KwDict.get result key
          = defined (match KwDict.get kwargs key with
                     | Some value => Some value
                     | None => KwDict.get [("defaultTilePath", default_tile_path);
                                           ("cogOutput", cog_output);
                                           ("cogParameters", cog_parameters);
                                           ("createCollection", create_collection);
                                           ("collectionId", collection_id);
                                           ("responses", responses)] key
                     end)) ∧
  (∀ key value, (key, value) ∈ result → value ≠ JNull) ∧
  NoDup (KwDict.keys result).
Proof.
  intros Hkwargs result. subst result. unfold Batch.output.
  set (named := [("defaultTilePath", default_tile_path); ("cogOutput", cog_output);
                 ("cogParameters", cog_parameters); ("createCollection", create_collection);
                 ("collectionId", collection_id); ("responses", responses)]).
  assert (Hnamed : NoDup (KwDict.keys named)) by compute_done.
  pose proof (kwdict_of_pairs_NoDup_keys (named ++ kwargs)) as Hnodup.
  split; [|split].
  - intros key. by rewrite remove_undefined_params_get, kwdict_get_display.
  - intros key value. by apply remove_undefined_params_defined.
  - by apply remove_undefined_params_NoDup.
Qed.

(** X12. [tiling_grid] gives ['id'] and ['resolution'], a keyword argument
    named ['id'] taking the place of the grid ID, and keeps values that are
    [None].  A buffer of two or more numbers sets ['bufferX'] and
    ['bufferY'], over keyword arguments of those names; no buffer or an
    empty one adds nothing; a buffer of one number raises [IndexError]. *)
Theorem tiling_grid_lookup (grid_id resolution : json) (buffer : option (list json)) kwargs :
  NoDup (KwDict.keys kwargs) →
  let base key := match KwDict.get kwargs key with
                  | Some value => Some value
                  | None => KwDict.get [("id", grid_id); ("resolution", resolution)] key
                  end in
  match buffer with
  | Some [_] => Batch.tiling_grid grid_id resolution buffer kwargs = Raise IndexError
  | Some (buffer_x :: buffer_y :: _) =>
      ∃ payload, Batch.tiling_grid grid_id resolution buffer kwargs = Ok payload ∧
        ∀ key, KwDict.get payload key
               = if String.eqb key "bufferY" then Some buffer_y
                 else if String.eqb key "bufferX" then Some buffer_x
                 else base key
  | _ =>
      ∃ payload, Batch.tiling_grid grid_id resolution buffer kwargs = Ok payload ∧
        ∀ key, KwDict.get payload key = base key
  end.
Proof.
  intros Hkwargs base.
  assert (Hbase : ∀ key,
            KwDict.get (KwDict.of_pairs ([("id", grid_id); ("resolution", resolution)] ++ kwargs))
              key = base key).
  { intros key. apply kwdict_get_display; [compute_done|done]. }
  destruct buffer as [[|buffer_x [|buffer_y others]]|]; simpl;
    try (eexists; split; [reflexivity|exact Hbase]); [done|].
  eexists. split; [reflexivity|]. intros key.
  rewrite kwdict_get_of_pairs, rev_app_distr, kwdict_get_app.
  cbn [rev app KwDict.get].
  rewrite (String.eqb_sym "bufferY"), (String.eqb_sym "bufferX").
  destruct (String.eqb key "bufferY"); [done|].
  destruct (String.eqb key "bufferX"); [done|].
  rewrite kwdict_get_rev by apply kwdict_of_pairs_NoDup_keys. apply Hbase.
Qed.

End BatchPayloads.

(** ** URLs, jobs and the cached information *)

Section BatchObject.
Context {service : BatchCollaborators}.
Implicit Types (self : Batch.SentinelHubBatch) (calls : list api_call).

Lemma string_app_assoc (a b c : string) : (a +:+ b) +:+ c = a +:+ (b +:+ c).
Proof.
  induction a as [|x a IH]; [reflexivity|].
  change (String x ((a +:+ b) +:+ c) = String x (a +:+ (b +:+ c))). by rewrite IH.
Qed.

Lemma batch_run_bind {A C} (m : Batch.B A) (k : A → Batch.B C) calls :
  Batch.bind m k calls = match m calls with
                         | (Ok a, calls') => k a calls'
                         | (Raise e, calls') => (Raise e, calls')
                         end.
Proof. reflexivity. Qed.

(** X13. A tile ID that counts as false, [None] or [0], gives the URL of
    the collection of tiles, not of a tile; any other integer ID gives that
    URL followed by the ID in decimal, and different IDs give different
    URLs. *)
Theorem tiles_url_of_id self :
  Batch._get_tiles_url self JNull
    = Batch._get_process_url (Some (Batch.config self)) (Batch.request_id self) +:+ "/tiles" ∧
  Batch._get_tiles_url self (JNum 0) = Batch._get_tiles_url self JNull ∧
  (∀ n : Z, n ≠ 0%Z →
     Batch._get_tiles_url self (JNum n)
       = Batch._get_tiles_url self JNull +:+ "/" +:+ pretty n) ∧
  (∀ n m : Z, n ≠ 0%Z → m ≠ 0%Z →
     Batch._get_tiles_url self (JNum n) = Batch._get_tiles_url self (JNum m) → n = m).
Proof.
  unfold Batch._get_tiles_url. simpl.
  assert (Hnonzero : ∀ n : Z, n ≠ 0%Z → negb (n =? 0)%Z = true).
  { intros n Hn. apply negb_true_iff, Z.eqb_neq, Hn. }
  repeat split.
  - intros n Hn. by rewrite (Hnonzero n Hn).
  - intros n m Hn Hm. rewrite (Hnonzero n Hn), (Hnonzero m Hm). unfold Batch.fmt. simpl.
    intros Heq. apply String.app_inj, String.app_inj in Heq. by apply pretty_Z_inj.
Qed.

Lemma call_job_run self (endpoint_name : string) calls :
  Batch._call_job self endpoint_name calls =
  (match answer (length calls) (job_call self endpoint_name) with
   | Ok _ => Ok tt
   | Raise e => Raise e
   end, job_call self endpoint_name :: calls).
Proof.
  unfold Batch._call_job. cbn zeta. rewrite batch_run_bind. unfold Batch.get_auth_json.
  fold (job_call self endpoint_name).
  by destruct (answer (length calls) (job_call self endpoint_name)).
Qed.

(** X14. Starting the analysis, starting, cancelling and restarting a job
    each make one call: a POST without payload to the process URL of the
    request followed by [analyse], [start], [cancel] or [restartpartial],
    four different URLs.  What the service answers is dropped; what it
    raises is passed on. *)
Theorem job_operations self calls :
  Batch.start_analysis self calls =
    (match answer (length calls) (job_call self "analyse") with
     | Ok _ => Ok tt | Raise e => Raise e end, job_call self "analyse" :: calls) ∧
  Batch.start_job self calls =
    (match answer (length calls) (job_call self "start") with
     | Ok _ => Ok tt | Raise e => Raise e end, job_call self "start" :: calls) ∧
  Batch.cancel_job self calls =
    (match answer (length calls) (job_call self "cancel") with
     | Ok _ => Ok tt | Raise e => Raise e end, job_call self "cancel" :: calls) ∧
  Batch.restart_job self calls =
    (match answer (length calls) (job_call self "restartpartial") with
     | Ok _ => Ok tt | Raise e => Raise e end, job_call self "restartpartial" :: calls) ∧
  NoDup (call_url <$> [job_call self "analyse"; job_call self "start";
                       job_call self "cancel"; job_call self "restartpartial"]).
Proof.
  repeat (split; [apply call_job_run|]).
  assert (Hinj : ∀ a b : string, call_url (job_call self a) = call_url (job_call self b) → a = b).
  { intros a b Heq. simpl in Heq. by apply String.app_inj, String.app_inj in Heq. }
  simpl fmap. repeat (apply NoDup_cons; split); try apply NoDup_nil_2;
    rewrite ?not_elem_of_cons; repeat split; try apply not_elem_of_nil;
    intros Heq; apply Hinj in Heq; discriminate.
Qed.

(** X15. For a tile ID that counts as true, [reprocess_tile] posts to the
    URL that [get_tile] reads, followed by [/restart]. *)
Theorem reprocess_tile_url self (tile_id : json) calls :
  PyValue.truthy tile_id = true →
  snd (Batch.reprocess_tile self tile_id calls)
    = {| call_url := Batch._get_tiles_url self tile_id +:+ "/restart";
         call_post_values := None;
         call_request_type := Some POST |} :: calls ∧
  snd (Batch.get_tile self tile_id calls)
    = {| call_url := Batch._get_tiles_url self tile_id;
         call_post_values := None;
         call_request_type := None |} :: calls.
Proof.
  intros Htruthy. split; [|done].
  unfold Batch.reprocess_tile. rewrite call_job_run. cbn [snd]. f_equal.
  unfold job_call, Batch._get_tiles_url. rewrite Htruthy. f_equal.
  by rewrite !string_app_assoc.
Qed.

Lemma update_info_run self calls :
  Batch.update_info self calls =
  (match answer (length calls) (info_call self) with
   | Ok request_info => Ok (with_info self request_info)
   | Raise e => Raise e
   end, info_call self :: calls).
Proof.
  unfold Batch.update_info, info_call, get_call. cbn zeta.
  rewrite batch_run_bind. unfold Batch.get_auth_json. by destruct (answer _ _).
Qed.

Lemma info_run self calls :
  Batch.info self calls =
  if PyValue.is_none (Batch._request_info self) then
    (match answer (length calls) (info_call self) with
     | Ok request_info => Ok (request_info, with_info self request_info)
     | Raise e => Raise e
     end, info_call self :: calls)
  else (Ok (Batch._request_info self, self), calls).
Proof.
  unfold Batch.info. rewrite batch_run_bind.
  destruct (PyValue.is_none (Batch._request_info self)); [|done].
  rewrite update_info_run. by destruct (answer (length calls) (info_call self)).
Qed.

(** X16. [info] loads the information of a request only when the object
    holds none: an object that holds some answers without a call; an
    object that holds none makes one call, a GET of its process URL, and
    keeps the answer, so that the next [info] gives the same value without
    a call, unless the service answered [None]. *)
Theorem info_loads_once self calls :
  (Batch._request_info self ≠ JNull →
   Batch.info self calls = (Ok (Batch._request_info self, self), calls)) ∧
  (Batch._request_info self = JNull →
   snd (Batch.info self calls) = info_call self :: calls ∧
   ∀ request_info, answer (length calls) (info_call self) = Ok request_info →
     Batch.info self calls = (Ok (request_info, with_info self request_info),
                              info_call self :: calls)) ∧
  (∀ value self' calls',
     Batch.info self calls = (Ok (value, self'), calls') → value ≠ JNull →
     ∀ later, Batch.info self' later = (Ok (value, self'), later)).
Proof.
  assert (Hsome : ∀ value : json, value ≠ JNull → PyValue.is_none value = false).
  { intros value Hvalue. by destruct value. }
  split; [|split].
  - intros Hinfo. by rewrite info_run, Hsome.
  - intros Hinfo. rewrite info_run, Hinfo. simpl. split; [done|].
    by intros request_info ->.
  - intros value self' calls'. rewrite info_run.
    destruct (PyValue.is_none (Batch._request_info self)) eqn:Hnone.
    + destruct (answer (length calls) (info_call self)) as [request_info|e]; [|done].
      intros [= <- <- <-] Hvalue later. rewrite info_run. simpl. by rewrite (Hsome _ Hvalue).
    + intros [= <- <- <-] Hvalue later. by rewrite info_run, Hnone.
Qed.

End BatchObject.

(** ** Pages *)

Section BatchPages.
Context {service : BatchCollaborators}.
Implicit Types (calls : list api_call) (chain : list (json * list json))
  (params : KwDict.t) (token : json).

Lemma drain_step {A G} (next : nat → G → Batch.B (Batch.step A G)) (fuel : nat)
    (generator : G) :
  Batch.drain next (S fuel) generator
  = Batch.bind (next fuel generator) (finish next fuel).
Proof. reflexivity. Qed.

Lemma turn_pages_step (fuel : nat) (service_url : string) params token calls :
  Batch.turn_pages (S fuel) service_url params token calls =
  let params' := Batch.with_token params token in
  let call := get_call (Batch.page_url service_url params') in
  match answer (length calls) call with
  | Raise e => (Raise e, call :: calls)
  | Ok results =>
      match read_items results with
      | Raise e => (Raise e, call :: calls)
      | Ok (item :: pending) =>
          (Ok (Batch.Yielded item (Batch.PagesInPage service_url params' results pending)),
           call :: calls)
      | Ok [] =>
          match Batch.next_token results with
          | Raise e => (Raise e, call :: calls)
          | Ok token' =>
              if PyValue.is_none token' then (Ok Batch.Stopped, call :: calls)
              else Batch.turn_pages fuel service_url params' token' (call :: calls)
          end
      end
  end.
Proof.
  cbn zeta. cbn [Batch.turn_pages]. rewrite batch_run_bind.
  unfold Batch.get_auth_json at 1, get_call.
  destruct (answer _ _) as [results|e]; [|done].
  rewrite batch_run_bind. unfold Batch.lift at 1, read_items.
  destruct (let? member := PyJson.getitem results "member" in
            PyJson.iter insertion_order member)
    as [[|item pending]|e]; [|done|done].
  rewrite batch_run_bind. unfold Batch.lift at 1.
  destruct (Batch.next_token results) as [token'|e]; [|done].
  by destruct (PyValue.is_none token').
Qed.

Lemma is_none_false (value : json) : value ≠ JNull → PyValue.is_none value = false.
Proof. intros Hvalue. by destruct value. Qed.

Lemma served_cons (sent_before : nat) (service_url : string) params token
    (results : json) (items : list json) chain :
  served sent_before service_url params token ((results, items) :: chain) ↔
  answer sent_before (get_call (Batch.page_url service_url (Batch.with_token params token)))
    = Ok results ∧
  PyJson.getitem results "member" = Ok (JArr items) ∧
  continues (S sent_before) service_url (Batch.with_token params token) results chain.
Proof. by destruct chain. Qed.

(** The items of a list are read in the order of the list. *)
Lemma read_items_list (results : json) (items : list json) :
  PyJson.getitem results "member" = Ok (JArr items) → read_items results = Ok items.
Proof. unfold read_items. by intros ->. Qed.

Lemma continues_token (sent_before : nat) (service_url : string) params (results : json)
    chain :
  continues sent_before service_url params results chain →
  Batch.next_token results = Ok (token_of results) ∧
  match chain with
  | [] => token_of results = JNull
  | _ => token_of results ≠ JNull ∧
         served sent_before service_url params (token_of results) chain
  end.
Proof.
  unfold token_of. destruct chain as [|page chain]; simpl.
  - by intros ->.
  - by intros (token' & -> & Hsome & Hserved).
Qed.

Lemma cost_length chain : length chain ≤ cost chain.
Proof. induction chain as [|[results items] chain IH]; simpl; lia. Qed.

(** Going through a chain of pages from the top of the loop and through
    the rest of a page. *)
Lemma pages_turned chain :
  (∀ (service_url : string) params token calls (fuel fuel' : nat),
     served (length calls) service_url params token chain →
     length chain ≤ fuel → cost chain ≤ fuel' →
     Batch.bind (Batch.turn_pages fuel service_url params token)
       (finish Batch.pages_next fuel') calls
     = (Ok (Some (concat (snd <$> chain))),
        rev (page_calls service_url params token chain) ++ calls)) ∧
  (∀ (service_url : string) params (results : json) (pending : list json) calls (fuel : nat),
     continues (length calls) service_url params results chain →
     length pending + cost chain < fuel →
     Batch.drain Batch.pages_next fuel
       (Batch.PagesInPage service_url params results pending) calls
     = (Ok (Some (pending ++ concat (snd <$> chain))),
        rev (page_calls service_url params (token_of results) chain) ++ calls)).
Proof.
  induction chain as [|[results items] chain [IHturn IHpage]].
  - split; [done|].
    intros service_url params results pending calls fuel Hcontinues Hfuel.
    simpl in Hcontinues. simpl. rewrite app_nil_r.
    revert fuel Hfuel. induction pending as [|item pending IH]; intros fuel Hfuel.
    + destruct fuel as [|fuel]; [simpl in Hfuel; lia|].
      rewrite drain_step. simpl. rewrite batch_run_bind. unfold Batch.lift at 1.
      by rewrite Hcontinues.
    + destruct fuel as [|fuel]; [simpl in Hfuel; lia|].
      rewrite drain_step. simpl. rewrite batch_run_bind. unfold Batch.ret at 1.
      simpl. rewrite batch_run_bind, IH by (simpl in *; lia). done.
  - assert (Hturn : ∀ (service_url : string) params token calls (fuel fuel' : nat),
              served (length calls) service_url params token ((results, items) :: chain) →
              length ((results, items) :: chain) ≤ fuel →
              cost ((results, items) :: chain) ≤ fuel' →
              Batch.bind (Batch.turn_pages fuel service_url params token)
                (finish Batch.pages_next fuel') calls
              = (Ok (Some (concat (snd <$> (results, items) :: chain))),
                 rev (page_calls service_url params token ((results, items) :: chain))
                   ++ calls)).
    { intros service_url params token calls fuel fuel' Hserved Hfuel Hfuel'.
      apply served_cons in Hserved as (Hanswer & Hitems & Hcontinues).
      apply read_items_list in Hitems.
      destruct fuel as [|fuel]; [simpl in Hfuel; lia|].
      rewrite batch_run_bind, turn_pages_step. cbn zeta. rewrite Hanswer, Hitems.
      unfold page_calls. simpl. rewrite <- app_assoc. simpl.
      set (params' := Batch.with_token params token) in *.
      set (call := get_call (Batch.page_url service_url params')) in *.
      destruct items as [|item pending].
      - destruct (continues_token _ _ _ _ _ Hcontinues) as [Htoken Hrest].
        rewrite Htoken. destruct chain as [|page chain].
        + rewrite Hrest. simpl. done.
        + destruct Hrest as [Hsome Hserved]. rewrite (is_none_false _ Hsome).
          rewrite <- batch_run_bind. simpl in Hfuel, Hfuel'.
          rewrite (IHturn service_url params' (token_of results) (call :: calls) fuel fuel'
                     Hserved) by (simpl; lia).
          done.
      - simpl. rewrite batch_run_bind.
        rewrite (IHpage service_url params' results pending (call :: calls) fuel' Hcontinues)
          by (simpl in *; lia).
        done. }
    split; [exact Hturn|].
    intros service_url params results0 pending calls fuel Hcontinues Hfuel.
    revert fuel Hfuel. induction pending as [|item pending IH]; intros fuel Hfuel.
    + destruct fuel as [|fuel]; [simpl in Hfuel; lia|].
      destruct (continues_token _ _ _ _ _ Hcontinues) as [Htoken [Hsome Hserved]].
      rewrite drain_step. cbn [Batch.pages_next].
      assert (Hnext : Batch.bind
                (Batch.bind (Batch.lift (Batch.next_token results0))
                   (fun token => if PyValue.is_none token then Batch.ret Batch.Stopped
                                 else Batch.turn_pages fuel service_url params token))
                (finish Batch.pages_next fuel) calls
              = Batch.bind (Batch.turn_pages fuel service_url params (token_of results0))
                  (finish Batch.pages_next fuel) calls).
      { rewrite !batch_run_bind. unfold Batch.lift at 1. rewrite Htoken.
        by rewrite (is_none_false _ Hsome). }
      rewrite Hnext. pose proof (cost_length ((results, items) :: chain)).
      apply Hturn; [done| |]; simpl in *; lia.
    + destruct fuel as [|fuel]; [simpl in Hfuel; lia|].
      rewrite drain_step. simpl. rewrite batch_run_bind. unfold Batch.ret at 1.
      simpl. rewrite batch_run_bind, IH by (simpl in *; lia). done.
Qed.

Lemma cost_items chain : cost chain = length chain + length (concat (snd <$> chain)).
Proof.
  induction chain as [|[results items] chain IH]; [done|].
  rewrite fmap_cons. cbn [cost concat length snd]. rewrite length_app, IH. lia.
Qed.

Lemma iter_pages_run (service_url : string) params chain calls (fuel : nat) :
  served (length calls) service_url params JNull chain →
  length chain + length (concat (snd <$> chain)) < fuel →
  Batch.drain Batch.pages_next fuel (Batch._iter_pages service_url params) calls
  = (Ok (Some (concat (snd <$> chain))),
     rev (page_calls service_url params JNull chain) ++ calls).
Proof.
  intros Hserved Hfuel. rewrite <- cost_items in Hfuel.
  destruct fuel as [|fuel]; [lia|].
  rewrite drain_step. cbn [Batch.pages_next Batch._iter_pages].
  apply pages_turned; [done| |lia]. pose proof (cost_length chain). lia.
Qed.

Lemma page_params_length params token chain :
  length (page_params params token chain) = length chain.
Proof.
  revert params token.
  induction chain as [|[results items] chain IH]; intros; simpl; [done|].
  f_equal. apply IH.
Qed.

Lemma with_token_other params token (key : string) :
  key ≠ "viewtoken" →
  KwDict.get (Batch.with_token params token) key = KwDict.get params key.
Proof.
  intros Hkey. unfold Batch.with_token. destruct (PyValue.is_none token); [done|].
  rewrite kwdict_get_set. by destruct (String.eqb_spec "viewtoken" key) as [<-|_].
Qed.

Lemma page_params_later (sent_before : nat) (service_url : string) params token chain
    (i : nat) (results : json) (items : list json) (later : KwDict.t) :
  served sent_before service_url params token chain →
  chain !! i = Some (results, items) →
  page_params params token chain !! S i = Some later →
  ∃ token', Batch.next_token results = Ok token' ∧ token' ≠ JNull ∧
            KwDict.get later "viewtoken" = Some token' ∧
            ∀ key : string, key ≠ "viewtoken" → KwDict.get later key = KwDict.get params key.
Proof.
  revert sent_before params token i.
  induction chain as [|[results0 items0] chain IH];
    intros sent_before params token i Hserved Hpage Hlater; [done|].
  apply served_cons in Hserved as (_ & _ & Hcontinues).
  apply continues_token in Hcontinues as [Htoken Hrest].
  simpl in Hlater. destruct i as [|i]; simpl in Hpage.
  - injection Hpage as -> ->. destruct chain as [|[results1 items1] chain]; [done|].
    destruct Hrest as [Hsome _]. simpl in Hlater. injection Hlater as <-.
    exists (token_of results). split; [done|]. split; [done|].
    generalize (with_token_other params token).
    generalize (Batch.with_token params token). intros params' Hparams'.
    unfold Batch.with_token. rewrite (is_none_false _ Hsome). split.
    + rewrite kwdict_get_set. by rewrite String.eqb_refl.
    + intros key Hkey. rewrite kwdict_get_set.
      destruct (String.eqb_spec "viewtoken" key) as [<-|_]; [done|].
      by apply Hparams'.
  - destruct chain as [|page chain]; [done|]. destruct Hrest as [_ Hserved].
    destruct (IH _ _ _ _ Hserved Hpage Hlater) as (token' & ? & ? & ? & Hother).
    exists token'. repeat (split; [done|]).
    intros key Hkey. rewrite Hother by done. by apply with_token_other.
Qed.

(** X17. When the service holds a chain of pages ready, consuming the
    generator of [_iter_pages] to its end gives the items of all the pages
    in order, with one GET per page, made in the order of the pages; steps
    beyond the number of pages and items are enough. *)
Theorem iter_pages_collects (service_url : string) params chain calls (fuel : nat) :
  served (length calls) service_url params JNull chain →
  length chain + length (concat (snd <$> chain)) < fuel →
  Batch.drain Batch.pages_next fuel (Batch._iter_pages service_url params) calls
  = (Ok (Some (concat (snd <$> chain))),
     rev (page_calls service_url params JNull chain) ++ calls) ∧
  length (page_calls service_url params JNull chain) = length chain.
Proof.
  intros Hserved Hfuel. split; [by apply iter_pages_run|].
  unfold page_calls. by rewrite length_fmap, page_params_length.
Qed.

(** X18. The requests that [_iter_pages] makes differ in [viewtoken] only:
    the first is made with the caller's parameters, and each later one
    with [viewtoken] set to the [nextToken] of the page before it and
    every other parameter as the caller gave it. *)
Theorem iter_pages_parameters (service_url : string) params chain calls (fuel : nat) :
  served (length calls) service_url params JNull chain →
  length chain + length (concat (snd <$> chain)) < fuel →
  ∃ sent : list KwDict.t,
    snd (Batch.drain Batch.pages_next fuel (Batch._iter_pages service_url params) calls)
    = rev ((fun p => get_call (Batch.page_url service_url p)) <$> sent) ++ calls ∧
    length sent = length chain ∧
    (∀ first, sent !! 0 = Some first → first = params) ∧
    ∀ (i : nat) (results : json) (items : list json) (later : KwDict.t),
      chain !! i = Some (results, items) → sent !! S i = Some later →
      ∃ token, Batch.next_token results = Ok token ∧ token ≠ JNull ∧
               KwDict.get later "viewtoken" = Some token ∧
               ∀ key : string, key ≠ "viewtoken" →
                 KwDict.get later key = KwDict.get params key.
Proof.
  intros Hserved Hfuel. exists (page_params params JNull chain).
  rewrite (iter_pages_run _ _ chain) by done. split; [done|].
  split; [apply page_params_length|]. split.
  - destruct chain as [|[results items] chain]; [done|]. by intros first [= <-].
  - intros i results items later. by apply (page_params_later (length calls) service_url).
Qed.

End BatchPages.

(** ** Requests *)

Section BatchRequests.
Context {service : BatchCollaborators}.
Implicit Types (calls : list api_call) (chain : list (json * list json))
  (config : option SHConfig) (request : Batch.SentinelHubBatch).

Lemma getitem_truthy (obj : json) (key : string) (value : json) :
  PyJson.getitem obj key = Ok value → PyValue.truthy obj = true.
Proof.
  destruct obj as [| | | | |fields]; try discriminate. simpl.
  destruct (fields !! key) eqn:Hfield; [intros _|discriminate].
  destruct (size fields) eqn:Hsize; [|done].
  apply map_size_empty_inv in Hsize. by rewrite Hsize in Hfield.
Qed.

Lemma truthy_not_none (value : json) :
  PyValue.truthy value = true → PyValue.is_none value = false.
Proof. by destruct value. Qed.

Lemma init_listed config (request_info : json) request :
  listed config request_info request →
  Batch.__init__ JNull request_info config = Ok request.
Proof.
  intros (id & Hid & ->). unfold Batch.__init__.
  rewrite (getitem_truthy _ _ _ Hid). simpl. by rewrite Hid.
Qed.

Lemma info_stored request calls :
  PyValue.is_none (Batch._request_info request) = false →
  Batch.info request calls = (Ok (Batch._request_info request, request), calls).
Proof. intros Hstored. unfold Batch.info. by rewrite Hstored. Qed.

Lemma listed_stored config (request_info : json) request :
  listed config request_info request →
  PyValue.is_none (Batch._request_info request) = false.
Proof.
  intros (id & Hid & ->). simpl. apply truthy_not_none. by eapply getitem_truthy.
Qed.

Lemma requests_next_run (fuel : nat) (generator : Batch.requests) calls :
  Batch.requests_next fuel generator calls =
  match Batch.requests_pages generator with
  | Raise e => (Raise e, calls)
  | Ok (config, inner) =>
      match Batch.pages_next fuel inner calls with
      | (Ok (Batch.Yielded item inner'), calls1) =>
          (match Batch.__init__ JNull item config with
           | Ok request => Ok (Batch.Yielded request (Batch.RequestsOver config inner'))
           | Raise e => Raise e
           end, calls1)
      | (Ok Batch.Stopped, calls1) => (Ok Batch.Stopped, calls1)
      | (Ok Batch.Starved, calls1) => (Ok Batch.Starved, calls1)
      | (Raise e, calls1) => (Raise e, calls1)
      end
  end.
Proof.
  unfold Batch.requests_next. rewrite batch_run_bind. unfold Batch.lift at 1.
  destruct (Batch.requests_pages generator) as [[config inner]|e]; [|done].
  rewrite batch_run_bind.
  destruct (Batch.pages_next fuel inner calls) as [[[item inner'| |]|e] calls1]; try done.
  rewrite batch_run_bind. unfold Batch.lift at 1.
  by destruct (Batch.__init__ JNull item config).
Qed.

(** The generator of requests follows the generator of pages item by item. *)
Lemma requests_drained (fuel : nat) :
  ∀ (generator : Batch.requests) config (inner : Batch.pages) calls (items : list json)
    calls' (requests : list Batch.SentinelHubBatch),
    Batch.requests_pages generator = Ok (config, inner) →
    Batch.drain Batch.pages_next fuel inner calls = (Ok (Some items), calls') →
    Forall2 (listed config) items requests →
    Batch.drain Batch.requests_next fuel generator calls = (Ok (Some requests), calls').
Proof.
  induction fuel as [|fuel IH];
    intros generator config inner calls items calls' requests Hgenerator Hpages Hlisted;
    [done|].
  rewrite drain_step, batch_run_bind in Hpages.
  rewrite drain_step, batch_run_bind, requests_next_run, Hgenerator.
  destruct (Batch.pages_next fuel inner calls) as [[[item inner'| |]|e] calls1];
    cbn [finish] in Hpages; try discriminate.
  - rewrite batch_run_bind in Hpages.
    destruct (Batch.drain Batch.pages_next fuel inner' calls1) as [[[rest|]|e] calls2] eqn:Hrest;
      try discriminate.
    injection Hpages as <- <-.
    apply Forall2_cons_inv_l in Hlisted as (request & requests' & Hitem & Hrest' & ->).
    rewrite (init_listed _ _ _ Hitem). cbn [finish]. rewrite batch_run_bind.
    by rewrite (IH (Batch.RequestsOver config inner') config inner' calls1 rest calls2
                  requests').
  - injection Hpages as <- <-. apply Forall2_nil_inv_l in Hlisted as ->. done.
Qed.

(** X19. [iter_requests] asks for the pages of the process endpoint with
    the search parameters that are not [None], and gives one object per
    item listed, with the item as its information and the id the item
    names; reading [info] of such an object makes no further request.
    When a keyword argument named [service_url] is among the parameters,
    the generator raises [TypeError] when it is started, before any
    request. *)
Theorem iter_requests_wraps (search sort user_id : json) config (kwargs : KwDict.t)
    chain calls (fuel : nat) (requests : list Batch.SentinelHubBatch) :
  let url := Batch._get_process_url config JNull in
  let params := _remove_undefined_params
                  (KwDict.of_pairs ([("search", search); ("sort", sort);
                                     ("userid", user_id)] ++ kwargs)) in
  served (length calls) url params JNull chain →
  length chain + length (concat (snd <$> chain)) < fuel →
  Forall2 (listed config) (concat (snd <$> chain)) requests →
  match KwDict.get params "service_url" with
  | Some _ =>
      Batch.drain Batch.requests_next fuel
        (Batch.iter_requests search sort user_id config kwargs) calls
      = (Raise TypeError, calls)
  | None =>
      Batch.drain Batch.requests_next fuel
        (Batch.iter_requests search sort user_id config kwargs) calls
      = (Ok (Some requests), rev (page_calls url params JNull chain) ++ calls) ∧
      ∀ request calls', request ∈ requests →
        Batch.info request calls' = (Ok (Batch._request_info request, request), calls')
  end.
Proof.
  intros url params Hserved Hfuel Hlisted.
  destruct (KwDict.get params "service_url") as [value|] eqn:Hname.
  - destruct fuel as [|fuel]; [lia|].
    rewrite drain_step, batch_run_bind, requests_next_run.
    cbn [Batch.iter_requests Batch.requests_pages]. fold url. fold params.
    unfold Batch.unpack_into_iter_pages. by rewrite Hname.
  - split.
    + apply requests_drained
        with config (Batch._iter_pages url params) (concat (snd <$> chain));
        [|by apply iter_pages_run|done].
      cbn [Batch.iter_requests Batch.requests_pages]. fold url. fold params.
      unfold Batch.unpack_into_iter_pages. by rewrite Hname.
    + intros request calls' Hin. apply info_stored.
      apply (list_elem_of_lookup_1 requests) in Hin as [i Hi].
      destruct (Forall2_lookup_r _ _ _ _ _ Hlisted Hi) as (request_info & _ & Hrequest).
      by eapply listed_stored.
Qed.

(** *** The latest request *)

Lemma string_ltb_leb (s t : string) : String.ltb t s = negb (String.leb s t).
Proof.
  unfold String.ltb, String.leb. rewrite (String.compare_antisym s t).
  by destruct (String.compare t s).
Qed.

Lemma created_run request (stamp : string) calls :
  created_at (Batch._request_info request) stamp →
  Batch.created request calls = (Ok (JStr stamp, request), calls).
Proof.
  intros Hstamp. unfold Batch.created. rewrite batch_run_bind, info_stored.
  - rewrite batch_run_bind. unfold Batch.lift at 1. by rewrite Hstamp.
  - apply truthy_not_none. by eapply getitem_truthy.
Qed.

Lemma max_loop_strings (others : list Batch.SentinelHubBatch) :
  ∀ (stamps : list string) (best : Batch.SentinelHubBatch) (best_stamp : string) calls,
    Forall2 (fun request stamp => created_at (Batch._request_info request) stamp)
      others stamps →
    ∃ (i : nat) (latest : Batch.SentinelHubBatch) (greatest : string),
      Batch.max_loop best (JStr best_stamp) others calls = (Ok latest, calls) ∧
      (best :: others) !! i = Some latest ∧
      first_greatest (best_stamp :: stamps) i greatest.
Proof.
  induction others as [|request others IH]; intros stamps best best_stamp calls Hstamps.
  - apply Forall2_nil_inv_l in Hstamps as ->.
    exists 0, best, best_stamp. split; [done|]. split; [done|]. split; [done|].
    intros [|j] stamp Hj; [|done]. injection Hj as <-. split; [done|lia].
  - apply Forall2_cons_inv_l in Hstamps as (stamp & stamps' & Hstamp & Hstamps & ->).
    cbn [Batch.max_loop]. rewrite batch_run_bind, (created_run _ _ _ Hstamp).
    rewrite batch_run_bind. unfold Batch.lift at 1. cbn [Batch.py_gt].
    rewrite string_ltb_leb.
    destruct (String.leb stamp best_stamp) eqn:Hle; cbn [negb].
    + destruct (IH stamps' best best_stamp calls Hstamps)
        as (i & latest & greatest & Hrun & Hlatest & Hgreatest & Hall).
      assert (Hstamp_le : String.le stamp best_stamp) by (unfold String.le; by rewrite Hle).
      destruct (Hall 0 best_stamp eq_refl) as [Hbest_le Hbest_ne].
      destruct i as [|i].
      * exists 0, latest, greatest. split; [done|]. split; [done|]. split; [done|].
        intros [|[|j]] stamp0 Hj; simpl in Hj.
        -- apply (Hall 0 stamp0 Hj).
        -- injection Hj as <-. split; [|lia]. by etrans.
        -- split; [|lia]. by apply (Hall (S j) stamp0).
      * exists (S (S i)), latest, greatest. split; [done|]. split; [done|]. split; [done|].
        intros [|[|j]] stamp0 Hj; simpl in Hj.
        -- split; [by apply (Hall 0 stamp0)|]. intros _. apply (Hall 0 stamp0 Hj). lia.
        -- injection Hj as <-. split; [by etrans|]. intros _ ->.
           apply Hbest_ne; [lia|]. by apply (anti_symm String.le).
        -- destruct (Hall (S j) stamp0 Hj) as [? Hne]. split; [done|].
           intros ?. apply Hne. lia.
    + destruct (IH stamps' request stamp calls Hstamps)
        as (i & latest & greatest & Hrun & Hlatest & Hgreatest & Hall).
      assert (Hnot_le : ¬ String.le stamp best_stamp).
      { unfold String.le. rewrite Hle. by intros []. }
      assert (Hbest_le : String.le best_stamp stamp).
      { by destruct (total String.le best_stamp stamp). }
      destruct (Hall 0 stamp eq_refl) as [Hstamp_le _].
      exists (S i), latest, greatest. split; [done|]. split; [done|]. split; [done|].
      intros [|j] stamp0 Hj; simpl in Hj.
      * injection Hj as <-. split; [by etrans|]. intros _ ->. by apply Hnot_le.
      * destruct (Hall j stamp0 Hj) as [? Hne]. split; [done|]. intros ?. apply Hne. lia.
Qed.

Lemma latest_params :
  _remove_undefined_params
    (KwDict.of_pairs ([("search", JNull); ("sort", JNull); ("userid", JNull)] ++ KwDict.empty))
  = KwDict.empty.
Proof. reflexivity. Qed.

Lemma get_latest_request_run config chain calls (fuel : nat)
    (requests : list Batch.SentinelHubBatch) :
  served (length calls) (Batch._get_process_url config JNull) KwDict.empty JNull chain →
  length chain + length (concat (snd <$> chain)) < fuel →
  Forall2 (listed config) (concat (snd <$> chain)) requests →
  Batch.get_latest_request fuel config calls
  = Batch.bind (Batch.max_created requests) (fun latest => Batch.ret (Some latest))
      (rev (page_calls (Batch._get_process_url config JNull) KwDict.empty JNull chain)
         ++ calls).
Proof.
  intros Hserved Hfuel Hlisted. unfold Batch.get_latest_request. rewrite batch_run_bind.
  erewrite requests_drained; [done| |by apply iter_pages_run|exact Hlisted].
  cbn [Batch.iter_requests Batch.requests_pages]. by rewrite latest_params.
Qed.

(** X20. With fewer than two requests listed, [get_latest_request] raises
    [TypeError] once it has read the list. *)
Theorem get_latest_request_too_few config chain calls (fuel : nat)
    (requests : list Batch.SentinelHubBatch) :
  served (length calls) (Batch._get_process_url config JNull) KwDict.empty JNull chain →
  length chain + length (concat (snd <$> chain)) < fuel →
  Forall2 (listed config) (concat (snd <$> chain)) requests →
  length requests < 2 →
  Batch.get_latest_request fuel config calls
  = (Raise TypeError,
     rev (page_calls (Batch._get_process_url config JNull) KwDict.empty JNull chain)
       ++ calls).
Proof.
  intros Hserved Hfuel Hlisted Hfew.
  rewrite (get_latest_request_run _ chain _ _ requests) by done.
  destruct requests as [|first [|second others]]; [done|done|simpl in Hfew; lia].
Qed.

(** X21. With two or more requests listed, each giving a text as its time
    of creation, [get_latest_request] returns the first of those whose
    time of creation is the greatest, and makes no request beyond those of
    the pages. *)
Theorem get_latest_request_latest config chain calls (fuel : nat)
    (requests : list Batch.SentinelHubBatch) (stamps : list string) :
  served (length calls) (Batch._get_process_url config JNull) KwDict.empty JNull chain →
  length chain + length (concat (snd <$> chain)) < fuel →
  Forall2 (listed config) (concat (snd <$> chain)) requests →
  Forall2 (fun request stamp => created_at (Batch._request_info request) stamp)
    requests stamps →
  2 ≤ length requests →
  ∃ (i : nat) (latest : Batch.SentinelHubBatch) (greatest : string),
    Batch.get_latest_request fuel config calls
    = (Ok (Some latest),
       rev (page_calls (Batch._get_process_url config JNull) KwDict.empty JNull chain)
         ++ calls) ∧
    requests !! i = Some latest ∧
    first_greatest stamps i greatest.
Proof.
  intros Hserved Hfuel Hlisted Hstamps Hmany.
  rewrite (get_latest_request_run _ chain _ _ requests) by done.
  destruct requests as [|first [|second others]]; [simpl in Hmany; lia..|].
  apply Forall2_cons_inv_l in Hstamps as (stamp & stamps' & Hstamp & Hstamps & ->).
  set (calls' := rev _ ++ calls).
  destruct (max_loop_strings (second :: others) stamps' first stamp calls' Hstamps)
    as (i & latest & greatest & Hrun & Hlatest & Hgreatest).
  exists i, latest, greatest. split; [|done].
  rewrite batch_run_bind. cbn [Batch.max_created].
  rewrite batch_run_bind, (created_run _ _ _ Hstamp). by rewrite Hrun.
Qed.

End BatchRequests.

(** ** Creating a request and reading its geometry *)

Section BatchCreate.
Context {service : BatchCollaborators}.
Implicit Types (calls : list api_call) (config : option SHConfig).

Lemma create_payload (process_request tiling_grid_arg output_arg bucket_name description : json) :
  _remove_undefined_params
    (KwDict.of_pairs [("processRequest", process_request); ("tilingGrid", tiling_grid_arg);
                      ("output", output_arg); ("bucketName", bucket_name);
                      ("description", description)])
  = keep_defined (create_fields process_request tiling_grid_arg output_arg bucket_name
                    description).
Proof.
  assert (Hnodup : NoDup (KwDict.keys (create_fields process_request tiling_grid_arg
                                         output_arg bucket_name description))).
  { unfold create_fields, KwDict.keys. simpl. compute_done. }
  unfold create_fields in *. rewrite kwdict_of_pairs_id by done.
  by apply remove_undefined_params_filter.
Qed.

(** X22. [create] refuses a request that is not a dict before it asks the
    service for anything.  For a dict it posts once to the process
    endpoint, with the fields that are not [None] in the order
    processRequest, tilingGrid, output, bucketName, description, and builds
    the object from the answer.  A [SentinelHubRequest] counts as the
    payload of the first request of its download list. *)
Theorem create_posts_defined_fields (tiling_grid_arg output_arg bucket_name description : json)
    config calls :
  (∀ value, (∀ fields, value ≠ JObj fields) →
     ∃ msg, Batch.create (Batch.PlainValue value) tiling_grid_arg output_arg bucket_name
              description config calls
            = (Raise (ValueError msg), calls)) ∧
  (∀ fields,
     let call := {| call_url := Batch._get_process_url config JNull;
                    call_post_values :=
                      Some (keep_defined (create_fields (JObj fields) tiling_grid_arg
                                            output_arg bucket_name description));
                    call_request_type := None |} in
     Batch.create (Batch.PlainValue (JObj fields)) tiling_grid_arg output_arg bucket_name
       description config calls
     = (let? request_info := answer (length calls) call in
        Batch.__init__ JNull request_info config,
        call :: calls)) ∧
  (∀ first others,
     Batch.create (Batch.RequestObject (first :: others)) tiling_grid_arg output_arg
       bucket_name description config calls
     = Batch.create (Batch.PlainValue first) tiling_grid_arg output_arg bucket_name
         description config calls).
Proof.
  split; [|split].
  - intros value Hvalue. eexists. unfold Batch.create. rewrite batch_run_bind.
    unfold Batch.lift at 1. destruct value; try reflexivity. by destruct (Hvalue fields).
  - intros fields call. unfold Batch.create. rewrite batch_run_bind.
    unfold Batch.lift at 1. cbn beta iota zeta. rewrite create_payload, batch_run_bind.
    unfold Batch.get_auth_json at 1. fold call.
    by destruct (answer (length calls) call).
  - done.
Qed.

Lemma has_char_app (sep : ascii) (prefix tail : string) :
  PyValue.has_char sep (prefix +:+ String sep tail) = true.
Proof.
  induction prefix as [|c prefix IH]; simpl.
  - by rewrite Ascii.eqb_refl.
  - rewrite IH. apply orb_true_r.
Qed.

Lemma rsplit_last_app (sep : ascii) (prefix tail : string) :
  PyValue.has_char sep tail = false →
  PyValue.rsplit_last sep (prefix +:+ String sep tail) = tail.
Proof.
  intros Htail. induction prefix as [|c prefix IH]; simpl.
  - by rewrite Htail, Ascii.eqb_refl.
  - by rewrite has_char_app.
Qed.

(** X23. For a request whose information is stored, [geometry] makes no
    request to the service.  The reference system is built from what
    follows the last slash of the [crs] property; a [bbox] among the
    bounds is used before a [geometry]. *)
Theorem geometry_prefers_bbox (self : Batch.SentinelHubBatch) (process input : json)
    (bounds : gmap string json) (properties : json) (prefix code : string) calls :
  PyJson.getitem (Batch._request_info self) "processRequest" = Ok process →
  PyJson.getitem process "input" = Ok input →
  PyJson.getitem input "bounds" = Ok (JObj bounds) →
  bounds !! "properties" = Some properties →
  PyJson.getitem properties "crs" = Ok (JStr (prefix +:+ String "/" code)) →
  PyValue.has_char "/" code = false →
  Batch.geometry self calls
  = (let? system := CRS code in
     let? shape := match bounds !! "bbox", bounds !! "geometry" with
                   | Some bbox, _ => BBox bbox system
                   | None, Some shape => Geometry shape system
                   | None, None => Raise KeyError
                   end in
     Ok (shape, self),
     calls).
Proof.
  intros Hprocess Hinput Hbounds Hproperties Hcrs Hcode.
  unfold Batch.geometry. rewrite batch_run_bind, info_stored.
  2:{ apply truthy_not_none. by eapply getitem_truthy. }
  rewrite batch_run_bind. unfold Batch.lift at 1.
  rewrite Hprocess. cbn [rbind]. rewrite Hinput. cbn [rbind].
  rewrite Hbounds. cbn [rbind PyJson.getitem PyJson.contains].
  rewrite Hproperties. cbn [rbind]. rewrite Hcrs. cbn [rbind Batch.last_segment].
  rewrite rsplit_last_app by done.
  destruct (CRS code) as [system|e]; [|done]. cbn [rbind].
  destruct (bounds !! "bbox") as [bbox|]; cbn [rbind].
  - by destruct (BBox bbox system).
  - destruct (bounds !! "geometry") as [shape|]; [|done]. cbn [rbind].
    by destruct (Geometry shape system).
Qed.

End BatchCreate.

(** ** The properties on concrete runs *)

Module Runs.
Import Demo Byte.

(** Four cached intervals, the second one timed out, its retry succeeds:
    one request is sent, the merged response is returned and written,
    although no download was required. *)
Example retry_succeeds_run :
  fst (run true true (Some [x01])) = Ok (Some merged_response) ∧
  length (fetched (snd (run true true (Some [x01])))) = 1 ∧
  write_log (disk (snd (run true true (Some [x01]))))
    = [(cache_path, [x04]); ("stat/request.json", [x05])].
Proof. vm_compute. repeat split. Qed.

(** The retry times out again: the outcome is merged in, it is not counted
    as a success, and the response file is not written. *)
Example retry_fails_run :
  let outcome := _single_download (collaborators := stubborn) client (request true true)
                   false (world (Some [x01])) in
  fst outcome = Ok (Some partial_response) ∧
  length (fetched (snd outcome)) = 1 ∧
  write_log (disk (snd outcome)) = [("stat/request.json", [x05])] ∧
  files (snd outcome) !! cache_path = Some [x01].
Proof. vm_compute. repeat split. Qed.

(** Nothing cached: the response is downloaded, the failed interval is
    retried, and both files are written. *)
Example download_run :
  fst (run true false None) = Ok None ∧
  length (fetched (snd (run true false None))) = 2 ∧
  write_log (disk (snd (run true false None)))
    = [(cache_path, [x04]); ("stat/request.json", [x05])].
Proof. vm_compute. repeat split. Qed.

(** An entry whose [error] is not a dict cannot be classified. *)
Example error_not_a_dict :
  _has_retriable_error (JObj {[ "error" := JStr "TIMEOUT" ]}) = Raise AttributeError.
Proof. reflexivity. Qed.

(** A valid request that asks for nothing returns [None] and leaves the
    world alone. *)
Lemma nothing_to_do_run :
  raise_if_invalid (Collaborators := collaborators) (request false false) = Ok tt ∧
  run false false None = (Ok None, world None).
Proof.
  split; [reflexivity|].
  apply (single_download_nothing_to_do (collaborators := collaborators)); reflexivity.
Defined.

(** Against the reading that such a request is an error: the call on a
    valid request that asks for nothing does not raise
    [InvalidRequestError]. *)
Lemma no_purpose_not_invalid :
  raise_if_invalid (Collaborators := collaborators) (request false false) = Ok tt ∧
  save_response (request false false) = false ∧
  return_data (request false false) = false ∧
  ¬ ∃ w', run false false None = (Raise InvalidRequestError, w').
Proof.
  repeat split. intros [w' Hrun]. vm_compute in Hrun. discriminate Hrun.
Qed.

Lemma no_purpose_no_error_run :
  (∀ e, fst (run false false None) ≠ Raise e) ∧ snd (run false false None) = world None.
Proof.
  apply (single_download_no_purpose_no_error (collaborators := collaborators)); reflexivity.
Defined.

(** Two attempts allowed: the loop still cannot run to its end. *)
Lemma two_attempts_run :
  (1 ≤ 2)%Z ∧
  ∀ w', retry_loop (collaborators := collaborators) 2 (request true true) (py_range 2)
          (world None) ≠ (Ok None, w').
Proof.
  assert (Hbound : (1 ≤ 2)%Z) by lia.
  split; [exact Hbound|].
  exact (proj1 (retry_loop_always_returns (collaborators := collaborators) 2
                  (request true true) (world None) Hbound)).
Defined.

Lemma download_per_interval_run :
  NoDup (PyDict.keys two_failed) ∧
  ∃ retried w',
    _download_per_interval (collaborators := collaborators) (request true true)
      two_failed (world None) = (Ok retried, w') ∧
    PyDict.keys retried = PyDict.keys two_failed.
Proof.
  assert (Hkeys : NoDup (PyDict.keys two_failed)) by compute_done.
  split; [exact Hkeys|].
  pose proof (download_per_interval_by_position (collaborators := collaborators)
                (request true true) two_failed (world None) Hkeys) as Hspec.
  destruct (_download_per_interval (request true true) two_failed (world None))
    as [[retried|e] w'] eqn:Hrun.
  - exists retried, w'. split; [reflexivity|exact (proj1 Hspec)].
  - exfalso. vm_compute in Hrun. discriminate Hrun.
Defined.

Lemma clean_entries_not_retriable :
  Forall (fun stat_info => _has_retriable_error stat_info = Ok false) clean_entries.
Proof. repeat constructor. Qed.

Lemma cached_clean_run :
  fst (is_download_required (formats := formats) client (Some cache_path)
         (world (Some [x03]))) = Ok false ∧
  fetched (snd (run true true (Some [x03]))) = [] ∧
  writes_at cache_path (disk (snd (run true true (Some [x03])))) = 0 ∧
  files (snd (run true true (Some [x03]))) !! cache_path = Some [x03].
Proof.
  apply (cached_clean_response_untouched (collaborators := collaborators) client
           (request true true) false (world (Some [x03])) cache_path [x03]
           clean_response clean_entries).
  - reflexivity.
  - reflexivity.
  - vm_compute. reflexivity.
  - reflexivity.
  - vm_compute. reflexivity.
  - repeat constructor; vm_compute; discriminate.
Defined.

Lemma second_call_run :
  Some clean_response = Some clean_response ∧
  fetched (snd (run true true (Some [x03]))) = [] ∧
  ∃ w2, _single_download (collaborators := collaborators) client (request true true) false
          (snd (run true true (Some [x03]))) = (Ok (Some clean_response), w2) ∧
        files w2 = files (snd (run true true (Some [x03]))) ∧
        write_log (disk w2) = write_log (disk (snd (run true true (Some [x03])))) ∧
        fetched w2 = fetched (snd (run true true (Some [x03]))).
Proof.
  apply (second_call_repeats_first (collaborators := collaborators) client
           (request true true) false (world (Some [x03])) cache_path [x03]
           clean_response clean_entries (Some clean_response)
           (snd (run true true (Some [x03])))).
  - reflexivity.
  - reflexivity.
  - vm_compute. reflexivity.
  - reflexivity.
  - vm_compute. reflexivity.
  - exact clean_entries_not_retriable.
  - vm_compute. reflexivity.
Defined.



End Runs.

(** ** Further runs of the Stat client *)

Module ClientRuns.
Import Demo ClientDemo Byte.


Lemma request_info_run :
  let asked := request_path ≠ EmptyString ∧ save_response (request true true) = true ∧
               (redownload client = true ∨ files (world (Some [x01])) !! request_path = None) in
  (writes_at request_path (disk (world (Some [x01])))
     < writes_at request_path (disk (snd (run true true (Some [x01])))) ↔ asked) ∧
  (asked → ∃ content,
     write_format (Collaborators := collaborators) JSON
       (get_request_params (Collaborators := collaborators) (request true true) true)
       = Ok content ∧
     files (snd (run true true (Some [x01]))) !! request_path = Some content) ∧
  (¬ asked → files (snd (run true true (Some [x01]))) !! request_path
             = files (world (Some [x01])) !! request_path).
Proof.
  apply (request_info_written_iff (collaborators := collaborators) client
           (request true true) false (world (Some [x01])) (Some merged_response)
           (snd (run true true (Some [x01]))) request_path).
  - reflexivity.
  - vm_compute. discriminate.
  - vm_compute. reflexivity.
Defined.


Lemma no_save_run :
  files (snd (run false true (Some [x01]))) = files (world (Some [x01])) ∧
  write_log (disk (snd (run false true (Some [x01]))))
    = write_log (disk (world (Some [x01]))).
Proof.
  apply (no_save_no_write (collaborators := collaborators) client (request false true)
           false (world (Some [x01]))).
  reflexivity.
Defined.

Lemma refused_run :
  _single_download (collaborators := collaborators) client refused false (world None)
    = (Raise DownloadError, refusal) ∧
  files refusal = files (world None) ∧
  write_log (disk refusal) = write_log (disk (world None)).
Proof.
  apply (failure_before_writes (collaborators := collaborators) client refused false
           (world None) DownloadError refusal).
  - reflexivity.
  - reflexivity.
  - vm_compute. reflexivity.
Defined.

(** The pool has sent every sub-request by the time the exception of the
    first one comes out. *)
Example pool_raise_run :
  let outcome := _download_per_interval (collaborators := garbled) (request true true)
                   three_failed (world None) in
  fst outcome = Raise DecodeError ∧ length (fetched (snd outcome)) = 3.
Proof. vm_compute. split; reflexivity. Qed.

(** A dict is gone through in the order in which its keys were inserted, a
    string by characters. *)
Example iter_dict_run :
  PyJson.iter (fun _ => ["zeta"; "alpha"; "mid"]) (JObj unsorted)
  = Ok [JStr "zeta"; JStr "alpha"; JStr "mid"].
Proof. vm_compute. reflexivity. Qed.

Example iter_str_run :
  PyJson.iter (fun _ => []) (JStr "né") = Ok [JStr "n"; JStr "é"].
Proof. vm_compute. reflexivity. Qed.

Lemma redownload_run :
  probes (disk (snd (_single_download (collaborators := collaborators) eager
                       (request true true) false (world (Some [x01])))))
  = probes (disk (world (Some [x01]))).
Proof.
  apply (redownload_ignores_cache (collaborators := collaborators) eager
           (request true true) false (world (Some [x01]))).
  reflexivity.
Defined.

End ClientRuns.

(** ** Runs of the Batch interface *)

Module BatchRuns.
Import BatchDemo.

Lemma remove_undefined_params_run :
  (∀ key, KwDict.get (_remove_undefined_params query) key
          = defined (KwDict.get query key)) ∧
  (∀ key value, (key, value) ∈ _remove_undefined_params query → value ≠ JNull) ∧
  sublist (_remove_undefined_params query) query ∧
  NoDup (KwDict.keys (_remove_undefined_params query)) ∧
  _remove_undefined_params (_remove_undefined_params query)
    = _remove_undefined_params query.
Proof. apply (remove_undefined_params_spec query). compute_done. Defined.

Lemma output_run :
  let result := Batch.output (JStr "s3://bucket/path") (JBool true) JNull JNull JNull JNull
                  overrides in
  (∀ key, KwDict.get result key
          = defined (match KwDict.get overrides key with
                     | Some value => Some value
                     | None => KwDict.get [("defaultTilePath", JStr "s3://bucket/path");
                                           ("cogOutput", JBool true);
                                           ("cogParameters", JNull);
                                           ("createCollection", JNull);
                                           ("collectionId", JNull);
                                           ("responses", JNull)] key
                     end)) ∧
  (∀ key value, (key, value) ∈ result → value ≠ JNull) ∧
  NoDup (KwDict.keys result).
Proof.
  apply (output_lookup (JStr "s3://bucket/path") (JBool true) JNull JNull JNull JNull
           overrides).
  compute_done.
Defined.

Lemma tiling_grid_run :
  let base key := match KwDict.get grid_arguments key with
                  | Some value => Some value
                  | None => KwDict.get [("id", JNum 1); ("resolution", JNum 10)] key
                  end in
  ∃ payload,
    Batch.tiling_grid (JNum 1) (JNum 10) (Some [JNum 50; JNum 60]) grid_arguments
      = Ok payload ∧
    ∀ key, KwDict.get payload key
           = if String.eqb key "bufferY" then Some (JNum 60)
             else if String.eqb key "bufferX" then Some (JNum 50)
             else base key.
Proof.
  apply (tiling_grid_lookup (JNum 1) (JNum 10) (Some [JNum 50; JNum 60]) grid_arguments).
  compute_done.
Defined.

Lemma reprocess_tile_run :
  snd (Batch.reprocess_tile (service := service) boxed (JNum 7) [])
    = [{| call_url := Batch._get_tiles_url (service := service) boxed (JNum 7) +:+ "/restart";
          call_post_values := None;
          call_request_type := Some POST |}] ∧
  snd (Batch.get_tile (service := service) boxed (JNum 7) [])
    = [{| call_url := Batch._get_tiles_url (service := service) boxed (JNum 7);
          call_post_values := None;
          call_request_type := None |}].
Proof. apply (reprocess_tile_url (service := service) boxed (JNum 7) []). reflexivity. Defined.

Lemma served_tiles :
  served (service := service) 0 tiles_url tiles_query JNull chain.
Proof.
  split; [reflexivity|]. split; [reflexivity|].
  exists (JStr "t1"). split; [reflexivity|]. split; [discriminate|].
  split; [reflexivity|]. split; reflexivity.
Qed.

Lemma iter_pages_run_twice :
  Batch.drain (Batch.pages_next (service := service)) 10
    (Batch._iter_pages tiles_url tiles_query) []
  = (Ok (Some (concat (snd <$> chain))),
     rev (page_calls (service := service) tiles_url tiles_query JNull chain) ++ []) ∧
  length (page_calls (service := service) tiles_url tiles_query JNull chain) = length chain.
Proof.
  apply (iter_pages_collects (service := service) tiles_url tiles_query chain [] 10).
  - exact served_tiles.
  - simpl. lia.
Defined.

Lemma iter_pages_parameters_run :
  ∃ sent : list KwDict.t,
    snd (Batch.drain (Batch.pages_next (service := service)) 10
           (Batch._iter_pages tiles_url tiles_query) [])
    = rev ((fun p => get_call (Batch.page_url (service := service) tiles_url p)) <$> sent)
        ++ [] ∧
    length sent = length chain ∧
    (∀ first, sent !! 0 = Some first → first = tiles_query) ∧
    ∀ (i : nat) (results : json) (items : list json) (later : KwDict.t),
      chain !! i = Some (results, items) → sent !! S i = Some later →
      ∃ token, Batch.next_token results = Ok token ∧ token ≠ JNull ∧
               KwDict.get later "viewtoken" = Some token ∧
               ∀ key : string, key ≠ "viewtoken" →
                 KwDict.get later key = KwDict.get tiles_query key.
Proof.
  apply (iter_pages_parameters (service := service) tiles_url tiles_query chain [] 10).
  - exact served_tiles.
  - simpl. lia.
Defined.

Lemma served_requests (query : KwDict.t) :
  served (service := service) 0 requests_url query JNull chain.
Proof.
  split; [reflexivity|]. split; [reflexivity|].
  exists (JStr "t1"). split; [reflexivity|]. split; [discriminate|].
  split; [reflexivity|]. split; reflexivity.
Qed.

Lemma served_alone :
  served (service := lonely) 0 (Batch._get_process_url (service := lonely) None JNull)
    KwDict.empty JNull short_chain.
Proof. split; [reflexivity|]. split; reflexivity. Qed.

Lemma listings_listed :
  Forall2 (listed (service := service) None) (concat (snd <$> chain)) listings.
Proof.
  repeat constructor.
  - by exists (JStr "a").
  - by exists (JStr "b").
  - by exists (JStr "c").
Qed.

Lemma iter_requests_run :
  Batch.drain (Batch.requests_next (service := service)) 10
    (Batch.iter_requests (JStr "ndvi") JNull JNull None KwDict.empty) []
  = (Ok (Some listings),
     rev (page_calls (service := service) requests_url requests_query JNull chain) ++ []) ∧
  ∀ request calls', request ∈ listings →
    Batch.info (service := service) request calls'
    = (Ok (Batch._request_info request, request), calls').
Proof.
  apply (iter_requests_wraps (service := service) (JStr "ndvi") JNull JNull None
           KwDict.empty chain [] 10 listings).
  - exact (served_requests requests_query).
  - simpl. lia.
  - exact listings_listed.
Defined.

(** A keyword argument named like the first parameter of [_iter_pages]
    stops the generator before any request. *)
Example iter_requests_service_url_run :
  Batch.drain (Batch.requests_next (service := service)) 10
    (Batch.iter_requests JNull JNull JNull None [("service_url", JStr "x")]) []
  = (Raise TypeError, []).
Proof. vm_compute. reflexivity. Qed.

Lemma too_few_run :
  Batch.get_latest_request (service := lonely) 10 None []
  = (Raise TypeError,
     rev (page_calls (service := lonely)
            (Batch._get_process_url (service := lonely) None JNull) KwDict.empty JNull
            short_chain) ++ []).
Proof.
  apply (get_latest_request_too_few (service := lonely) None short_chain [] 10
           [request_of (service := lonely) None first_info (JStr "a")]).
  - exact served_alone.
  - simpl. lia.
  - repeat constructor. by exists (JStr "a").
  - simpl. lia.
Defined.

Lemma latest_run :
  ∃ (i : nat) (latest : Batch.SentinelHubBatch) (greatest : string),
    Batch.get_latest_request (service := service) 10 None []
    = (Ok (Some latest),
       rev (page_calls (service := service) requests_url KwDict.empty JNull chain) ++ []) ∧
    listings !! i = Some latest ∧
    first_greatest stamps i greatest.
Proof.
  apply (get_latest_request_latest (service := service) None chain [] 10 listings stamps).
  - exact (served_requests KwDict.empty).
  - simpl. lia.
  - exact listings_listed.
  - repeat constructor.
  - simpl. lia.
Defined.

Lemma geometry_run :
  Batch.geometry (service := service) boxed []
  = (let? system := CRS (BatchCollaborators := service) "4326" in
     let? shape := match bounds !! "bbox", bounds !! "geometry" with
                   | Some bbox, _ => BBox (BatchCollaborators := service) bbox system
                   | None, Some shape => Geometry (BatchCollaborators := service) shape system
                   | None, None => Raise KeyError
                   end in
     Ok (shape, boxed),
     []).
Proof.
  apply (geometry_prefers_bbox (service := service) boxed
           (JObj {[ "input" := JObj {[ "bounds" := JObj bounds ]} ]})
           (JObj {[ "bounds" := JObj bounds ]}) bounds
           (JObj {[ "crs" := JStr "http://www.opengis.net/def/crs/EPSG/0/4326" ]})
           "http://www.opengis.net/def/crs/EPSG/0" "4326" []).
  - reflexivity.
  - reflexivity.
  - reflexivity.
  - reflexivity.
  - reflexivity.
  - reflexivity.
Defined.

End BatchRuns.
